(** * nikola/plugins/command/import_wordpress.py: a shallow embedding

    The WordPress importer is embedded as Rocq functions, under Python 3
    on a POSIX system.  Python text is [string] (one [ascii] per code point
    below 256), [None] is [option], sets are [gset], and dictionaries whose
    iteration order is observable (the URL map written to CSV, the
    attachment index, the per-language contents) are insertion-ordered
    association lists.  The importer instance ([self]) is split into the
    read-only options and the mutable [State] threaded through every call;
    log records, file writes and downloads are appended to an event trace.
    An exception that the module does not catch ends the run. *)

From Stdlib Require Import Ascii ZArith Bool.
From Stdlib Require String.
From stdpp Require Import base gmap strings list sorting.

(** ** Python string primitives used by the module *)

Module PyStr.

Definition len (s : string) : nat := String.length s.

(** [s.startswith(p)] *)
Fixpoint startswith (s p : string) {struct p} : bool :=
  match p with
  | EmptyString => true
  | String a p' =>
      match s with
      | EmptyString => false
      | String b s' => if Ascii.eqb a b then startswith s' p' else false
      end
  end.

(** [s[n:]] *)
Fixpoint drop (n : nat) (s : string) : string :=
  match n, s with
  | O, _ => s
  | S n', String _ s' => drop n' s'
  | S _, EmptyString => EmptyString
  end.

(** [s[:n]] *)
Fixpoint take (n : nat) (s : string) : string :=
  match n, s with
  | O, _ => EmptyString
  | S n', String c s' => String c (take n' s')
  | S _, EmptyString => EmptyString
  end.

Fixpoint rev_onto (s acc : string) : string :=
  match s with
  | EmptyString => acc
  | String c s' => rev_onto s' (String c acc)
  end.

Definition rev (s : string) : string := rev_onto s EmptyString.

(** [c.isspace()] on code points below 256: TAB..CR, FS..US, SPACE,
    NEL (0x85) and NBSP (0xA0). *)
Definition is_space (c : ascii) : bool :=
  let n := nat_of_ascii c in
  ((9 <=? n) && (n <=? 13)) || ((28 <=? n) && (n <=? 32))
  || (n =? 133) || (n =? 160).

Fixpoint mem (c : ascii) (chars : string) : bool :=
  match chars with
  | EmptyString => false
  | String a r => Ascii.eqb a c || mem c r
  end.

Fixpoint lstrip_by (p : ascii → bool) (s : string) : string :=
  match s with
  | EmptyString => EmptyString
  | String c s' => if p c then lstrip_by p s' else s
  end.

Definition rstrip_by (p : ascii → bool) (s : string) : string :=
  rev (lstrip_by p (rev s)).

(** [s.strip()], [s.lstrip(chars)], [s.rstrip(chars)], [s.strip(chars)];
    with an argument the argument is a set of characters. *)
Definition strip (s : string) : string :=
  rstrip_by is_space (lstrip_by is_space s).
Definition lstrip_chars (chars s : string) : string :=
  lstrip_by (λ c, mem c chars) s.
Definition rstrip_chars (chars s : string) : string :=
  rstrip_by (λ c, mem c chars) s.
Definition strip_chars (chars s : string) : string :=
  rstrip_chars chars (lstrip_chars chars s).

Definition is_empty (s : string) : bool :=
  match s with EmptyString => true | _ => false end.

Fixpoint all_by (p : ascii → bool) (s : string) : bool :=
  match s with
  | EmptyString => true
  | String c s' => p c && all_by p s'
  end.

(** [s.split(sep)] for a non-empty separator: left to right, matches do
    not overlap.  [skip] counts the characters of a separator still to be
    dropped, [cur] is the current piece, reversed. *)
Fixpoint split_go (sep : string) (s : string) (skip : nat) (cur : string)
  : list string :=
  match s with
  | EmptyString => [rev cur]
  | String c s' =>
      match skip with
      | S k => split_go sep s' k cur
      | O =>
          if startswith s sep
          then rev cur :: split_go sep s' (len sep - 1) EmptyString
          else split_go sep s' 0 (String c cur)
      end
  end.

Definition split (sep s : string) : list string :=
  split_go sep s 0 EmptyString.

(** [sep.join(l)] *)
Fixpoint join (sep : string) (l : list string) : string :=
  match l with
  | [] => EmptyString
  | [x] => x
  | x :: r => x +:+ sep +:+ join sep r
  end.

(** [s.replace(old, new)] and [s.replace(old, new, 1)].  With an empty
    [old], [new] is inserted before every character and at the end. *)
Fixpoint replace_empty (new : string) (s : string) (count : option nat)
  : string :=
  match count with
  | Some O => s
  | _ =>
      new +:+
      match s with
      | EmptyString => EmptyString
      | String c s' => String c (replace_empty new s' (pred <$> count))
      end
  end.

Fixpoint replace_go (old new : string) (s : string) (skip : nat)
  (count : option nat) : string :=
  match s with
  | EmptyString => EmptyString
  | String c s' =>
      match skip with
      | S k => replace_go old new s' k count
      | O =>
          match count with
          | Some O => s
          | _ =>
              if startswith s old
              then new +:+ replace_go old new s' (len old - 1)
                             (pred <$> count)
              else String c (replace_go old new s' 0 count)
          end
      end
  end.

Definition replace_count (old new s : string) (count : option nat)
  : string :=
  if is_empty old then replace_empty new s count
  else replace_go old new s 0 count.

Definition replace (old new s : string) : string :=
  replace_count old new s None.
Definition replace_first (old new s : string) : string :=
  replace_count old new s (Some 1).

Definition endswith (s p : string) : bool := startswith (rev s) (rev p).

(** [sub in s] *)
Fixpoint contains (sub s : string) : bool :=
  startswith s sub ||
  match s with
  | EmptyString => false
  | String _ s' => contains sub s'
  end.

End PyStr.

(** ** The fragment of Python's [re] the module uses

  A backtracking matcher in continuation-passing style: alternatives are
  tried in the priority order of [re] (greedy repetition tries the longest
  run first, lazy repetition the shortest), and the first alternative
  whose continuation succeeds wins.  Repetition is only ever applied to a
  single character class in the module's patterns. *)

Module Re.

Definition newline : ascii := ascii_of_nat 10.

Inductive cls :=
| Chr (c : ascii)          (* a literal or escaped character *)
| Dot (dotall : bool).     (* [.]; matches a newline only under DOTALL *)

Definition cls_match (k : cls) (c : ascii) : bool :=
  match k with
  | Chr a => Ascii.eqb a c
  | Dot dotall => dotall || negb (Ascii.eqb c newline)
  end.

Inductive re :=
| Eps
| One (k : cls)
| Star (greedy : bool) (k : cls)   (* [k*] and [k*?] *)
| Grp (n : nat) (r : re)           (* capturing group number [n] *)
| Opt (r : re)                     (* [r?] *)
| Seq (r1 r2 : re).

Fixpoint lit (s : string) : re :=
  match s with
  | EmptyString => Eps
  | String c s' => Seq (One (Chr c)) (lit s')
  end.

Fixpoint seq (l : list re) : re :=
  match l with
  | [] => Eps
  | r :: l' => Seq r (seq l')
  end.

(** [len(m.groups())]: the number of groups of the pattern. *)
Fixpoint ngroups (r : re) : nat :=
  match r with
  | Eps | One _ | Star _ _ => 0
  | Grp _ r => S (ngroups r)
  | Opt r => ngroups r
  | Seq r1 r2 => ngroups r1 + ngroups r2
  end.

(** Captures: group number to captured text; a group that did not take
    part in the match has no entry ([m.group(n)] is [None]). *)
Definition caps := list (nat * string).

Fixpoint cap_get (n : nat) (g : caps) : option string :=
  match g with
  | [] => None
  | (k, v) :: g' => if Nat.eqb k n then Some v else cap_get n g'
  end.

Section Run.
Context {R : Type}.

Fixpoint star (greedy : bool) (k : cls) (s : string)
  (cont : string → option R) : option R :=
  match s with
  | EmptyString => cont s
  | String c s' =>
      if cls_match k c then
        if greedy then
          match star greedy k s' cont with
          | Some r => Some r
          | None => cont s
          end
        else
          match cont s with
          | Some r => Some r
          | None => star greedy k s' cont
          end
      else cont s
  end.

Fixpoint run (r : re) (s : string) (g : caps)
  (cont : string → caps → option R) : option R :=
  match r with
  | Eps => cont s g
  | One k =>
      match s with
      | String c s' => if cls_match k c then cont s' g else None
      | EmptyString => None
      end
  | Star gr k => star gr k s (λ s', cont s' g)
  | Grp n r =>
      run r s g
        (λ s' g', cont s' ((n, PyStr.take (PyStr.len s - PyStr.len s') s) :: g'))
  | Opt r =>
      match run r s g cont with
      | Some x => Some x
      | None => cont s g
      end
  | Seq r1 r2 => run r1 s g (λ s' g', run r2 s' g' cont)
  end.
End Run.

(** A match object: the matched text and the captures. *)
Record Match := { group0 : string; groups : caps; pattern : re }.

Definition group (m : Match) (n : nat) : option string :=
  match n with
  | O => Some (group0 m)
  | _ => cap_get n (groups m)
  end.

(** [pattern.match(s)]: a match anchored at the start of [s]. *)
Definition match_at (r : re) (s : string) : option Match :=
  run r s []
    (λ s' g, Some {| group0 := PyStr.take (PyStr.len s - PyStr.len s') s;
                     groups := g; pattern := r |}).

(** [pattern.sub(repl, s)] with a function [repl]: leftmost matches, not
    overlapping, each replaced by [repl m].  After an empty match the
    next character is copied and the scan moves on. *)
Fixpoint sub_go (r : re) (repl : Match → string) (s : string) (skip : nat)
  : string :=
  match s with
  | EmptyString =>
      match match_at r s with
      | Some m => repl m
      | None => EmptyString
      end
  | String c s' =>
      match skip with
      | S k => sub_go r repl s' k
      | O =>
          match match_at r s with
          | Some m =>
              match PyStr.len (group0 m) with
              | O => repl m +:+ String c (sub_go r repl s' 0)
              | S k => repl m +:+ sub_go r repl s' k
              end
          | None => String c (sub_go r repl s' 0)
          end
      end
  end.

Definition sub (r : re) (repl : Match → string) (s : string) : string :=
  sub_go r repl s 0.

End Re.

(** ** The importer's options *)

(** The entries [populate_context] computes from the channel (the fixed
    [POSTS], [PAGES] and [COMPILERS] texts and the entries copied from
    [SAMPLE_CONF] are not repeated here). *)
Record Context := {
  DEFAULT_LANG : string;
  TRANSLATIONS_PATTERN : string;
  BLOG_TITLE : string;
  BLOG_DESCRIPTION : string;
  BASE_URL : string;
  SITE_URL : string;
  BLOG_EMAIL : string;
  BLOG_AUTHOR : string
}.

(** The attributes of [self] that [_read_options] and [_prepare] set once
    and nothing changes afterwards ([site_url] and [default_lang] are
    [context['SITE_URL']] and [context['DEFAULT_LANG']]), the context
    itself and the configuration template that [generate_base_site]
    returned. *)

Record Options := {
  output_folder : string;
  squash_newlines : bool;
  exclude_drafts : bool;
  exclude_privates : bool;
  no_downloads : bool;
  import_empty_items : bool;
  auth : option (string * string);
  opt_separate_qtranslate_content : bool;
  site_url : string;
  default_lang : string;
  base_dir : string;
  context : Context;
  conf_template : string
}.

(** ** Text transformers *)

Definition dquote : ascii := ascii_of_nat 34.
Definition nl : string := String Re.newline EmptyString.

Definition dotall_greedy : Re.re := Re.Star true (Re.Dot true).
Definition dotall_lazy : Re.re := Re.Star false (Re.Dot true).

(** [\[code.* lang.*?="(.*?)?".*\](.*?)\[/code\]], DOTALL *)
Definition code_re1 : Re.re :=
  Re.seq [Re.lit "[code"; dotall_greedy; Re.lit " lang"; dotall_lazy;
          Re.lit "="; Re.One (Re.Chr dquote);
          Re.Opt (Re.Grp 1 dotall_lazy); Re.One (Re.Chr dquote);
          dotall_greedy; Re.lit "]"; Re.Grp 2 dotall_lazy; Re.lit "[/code]"].

(** [\[sourcecode.* lang.*?="(.*?)?".*\](.*?)\[/sourcecode\]], DOTALL *)
Definition code_re2 : Re.re :=
  Re.seq [Re.lit "[sourcecode"; dotall_greedy; Re.lit " lang"; dotall_lazy;
          Re.lit "="; Re.One (Re.Chr dquote);
          Re.Opt (Re.Grp 1 dotall_lazy); Re.One (Re.Chr dquote);
          dotall_greedy; Re.lit "]"; Re.Grp 2 dotall_lazy;
          Re.lit "[/sourcecode]"].

(** [\[code.*?\](.*?)\[/code\]], DOTALL *)
Definition code_re3 : Re.re :=
  Re.seq [Re.lit "[code"; dotall_lazy; Re.lit "]"; Re.Grp 1 dotall_lazy;
          Re.lit "[/code]"].

(** [\[sourcecode.*?\](.*?)\[/sourcecode\]], DOTALL *)
Definition code_re4 : Re.re :=
  Re.seq [Re.lit "[sourcecode"; dotall_lazy; Re.lit "]"; Re.Grp 1 dotall_lazy;
          Re.lit "[/sourcecode]"].

(** The inner function [replacement] of [transform_code]. *)
Definition replacement (m : Re.Match) : string :=
  let '(language, code) :=
    if Nat.eqb (Re.ngroups (Re.pattern m)) 1
    then (EmptyString, Re.group0 m)
    else (default EmptyString (Re.group m 1),
          default EmptyString (Re.group m 2)) in
  let code := PyStr.replace "&amp;" "&" code in
  let code := PyStr.replace "&gt;" ">" code in
  let code := PyStr.replace "&lt;" "<" code in
  let code := PyStr.replace "&quot;" (String dquote EmptyString) code in
  "```" +:+ language +:+ nl +:+ code +:+ nl +:+ "```".

Definition transform_code (content : string) : string :=
  let content := Re.sub code_re1 replacement content in
  let content := Re.sub code_re2 replacement content in
  let content := Re.sub code_re3 replacement content in
  let content := Re.sub code_re4 replacement content in
  content.

(** [re.sub(r'\[/caption\]', '', content)] then
    [re.sub(r'\[caption.*\]', '', new_caption)]; no DOTALL here. *)
Definition caption_close_re : Re.re := Re.lit "[/caption]".
Definition caption_open_re : Re.re :=
  Re.seq [Re.lit "[caption"; Re.Star true (Re.Dot false); Re.lit "]"].

Definition transform_caption (content : string) : string :=
  let new_caption := Re.sub caption_close_re (λ _, EmptyString) content in
  let new_caption := Re.sub caption_open_re (λ _, EmptyString) new_caption in
  new_caption.

(** [\n{3,}] *)
Definition newlines_re : Re.re :=
  Re.seq [Re.One (Re.Chr Re.newline); Re.One (Re.Chr Re.newline);
          Re.One (Re.Chr Re.newline); Re.Star true (Re.Chr Re.newline)].

Definition transform_multiple_newlines (o : Options) (content : string)
  : string :=
  if squash_newlines o
  then Re.sub newlines_re (λ _, nl +:+ nl) content
  else content.

(** [transform_content]: [None] is Python's [None]; [post_format] is the
    text of a metadata element and so may itself be [None]. *)
Definition transform_content (o : Options) (content : string)
  (post_format : option string) : option (string * string) :=
  if bool_decide (post_format = Some "wp") then
    let content := transform_code content in
    let content := transform_caption content in
    let content := transform_multiple_newlines o content in
    Some (content, "md")
  else if bool_decide (post_format = Some "markdown") then
    Some (content, "md")
  else if bool_decide (post_format = Some "none") then
    Some (content, "html")
  else None.

(** ** Insertion-ordered dictionaries

    [d[k] = v] keeps the position of an existing key and appends a new one;
    iteration ([keys()], [items()]) follows the list. *)

Module Dict.
Section Ops.
Context {K V : Type} `{EqDecision K}.

Fixpoint get (k : K) (d : list (K * V)) : option V :=
  match d with
  | [] => None
  | (k', v) :: d' => if decide (k' = k) then Some v else get k d'
  end.

Fixpoint set (k : K) (v : V) (d : list (K * V)) : list (K * V) :=
  match d with
  | [] => [(k, v)]
  | (k', v') :: d' =>
      if decide (k' = k) then (k, v) :: d' else (k', v') :: set k v d'
  end.

Definition keys (d : list (K * V)) : list K := fst <$> d.
End Ops.
End Dict.

(** ** The qtranslate splitter *)

Definition qt_start : string := "<!--:".
Definition qt_end : string := "-->".
Definition qt_end_with_lang_len : nat := 5.

Record QtState := {
  content_by_lang : list (string * list string);
  common_txt_list : list string
}.

(** The head of the loop body: [None] is [continue], otherwise the language
    and the chunk with its marker removed. *)
Definition qt_classify (c : string) : option (string * string) :=
  if PyStr.is_empty (PyStr.strip c) then None
  else if PyStr.startswith c qt_end then
    let c := PyStr.lstrip_chars qt_end c in
    if PyStr.is_empty c then None else Some (EmptyString, c)
  else if PyStr.startswith (PyStr.drop 2 c) qt_end then
    Some (PyStr.take 2 c, PyStr.drop qt_end_with_lang_len c)
  else Some (EmptyString, c).

Definition qt_step (st : QtState) (c : string) : QtState :=
  match qt_classify c with
  | None => st
  | Some (lang, c) =>
      if PyStr.is_empty lang then
        {| common_txt_list := common_txt_list st ++ [c];
           content_by_lang :=
             (λ '(l, v), (l, v ++ [c])) <$> content_by_lang st |}
      else
        {| common_txt_list := common_txt_list st;
           content_by_lang :=
             Dict.set lang
               (default (common_txt_list st)
                  (Dict.get lang (content_by_lang st)) ++ [c])
               (content_by_lang st) |}
  end.

Definition separate_qtranslate_content (text : string)
  : list (string * string) :=
  let qt_chunks := PyStr.split qt_start text in
  let st := foldl qt_step
              {| content_by_lang := []; common_txt_list := [] |} qt_chunks in
  let content_by_lang :=
    match common_txt_list st, content_by_lang st with
    | _ :: _, [] => [(EmptyString, common_txt_list st)]
    | _, d => d
    end in
  (λ '(l, v), (l, PyStr.join " " v)) <$> content_by_lang.

(** ** [os.path] on a POSIX system *)

Module PosixPath.

Definition sep : string := "/".

Definition join2 (path b : string) : string :=
  if PyStr.startswith b "/" then b
  else if PyStr.is_empty path || PyStr.endswith path "/" then path +:+ b
  else path +:+ "/" +:+ b.

(** [os.path.join(a, *p)] *)
Definition join (a : string) (p : list string) : string := foldl join2 a p.

(** [p.rfind('/') + 1] *)
Fixpoint after_last_sep (s : string) (pos acc : nat) : nat :=
  match s with
  | EmptyString => acc
  | String c s' =>
      after_last_sep s' (S pos)
        (if Ascii.eqb c (ascii_of_nat 47) then S pos else acc)
  end.

(** [os.path.dirname(p)] *)
Definition dirname (p : string) : string :=
  let i := after_last_sep p 0 0 in
  let head := PyStr.take i p in
  if negb (PyStr.is_empty head)
     && negb (PyStr.is_empty (PyStr.lstrip_chars "/" head))
  then PyStr.rstrip_chars "/" head
  else head.

End PosixPath.

(** ** The parsed export: an element tree *)

#[warnings="-register-all"]
Inductive Element :=
| Elem (tag : string) (text : option string)
       (attrib : list (string * string)) (children : list Element).

Definition tag (e : Element) : string :=
  match e with Elem t _ _ _ => t end.
Definition text (e : Element) : option string :=
  match e with Elem _ t _ _ => t end.
Definition attrib (e : Element) : list (string * string) :=
  match e with Elem _ _ a _ => a end.
Definition children (e : Element) : list Element :=
  match e with Elem _ _ _ c => c end.

Definition has_tag (name : string) (e : Element) : bool :=
  bool_decide (tag e = name).

(** [e.find(name)] and [e.findall(name)] for a plain tag name: the direct
    children with that tag, in document order. *)
Definition findall (name : string) (e : Element) : list Element :=
  List.filter (has_tag name) (children e).
Definition find (name : string) (e : Element) : option Element :=
  head (findall name e).

(** All proper descendants of [p] in document order, each with its parent
    ([getparent()]). *)
Fixpoint descendants (p : Element) : list (Element * Element) :=
  match p with
  | Elem _ _ _ cs =>
      (fix go (l : list Element) : list (Element * Element) :=
         match l with
         | [] => []
         | c :: l' => (p, c) :: descendants c ++ go l'
         end) cs
  end.

(** [e.findall('*//name')]: the elements named [name] below a child of
    [e]. *)
Definition findall_below_children (name : string) (e : Element)
  : list (Element * Element) :=
  List.filter (λ pc, has_tag name pc.2)
    (concat (descendants <$> children e)).

(** ['{{{0}}}local'.format(ns)] *)
Definition qname (ns local : string) : string :=
  "{" +:+ ns +:+ "}" +:+ local.

Definition get_text_tag (tag : option Element) (name : string)
  (default : option string) : option string :=
  match tag with
  | None => default
  | Some tag =>
      match find name tag with
      | Some t =>
          match text t with
          | Some x => Some x
          | None => default
          end
      | None => default
      end
  end.

(** [get_text_tag] called with a string default returns a string. *)
Definition get_text_tag_str (tag : option Element) (name : string)
  (default : string) : string :=
  match get_text_tag tag name (Some default) with
  | Some x => x
  | None => default
  end.

(** ** Results

    The outcome of a call that may raise. *)

Inductive Result (A : Type) :=
| Ok (a : A)
| Raise (exn : string).
Arguments Ok {A} a.
Arguments Raise {A} exn.

(** ** Observable effects *)

Inductive Level := Info | Notice | Warn | Error.

(** The module's log messages, by their format arguments. *)
Inductive LogMsg :=
| ErrorConvertingPost (title : string)
| MalformedDate (post_date : option string) (title slug : string)
| TrashedPost (title : string)
| DraftNotImported (title : string)
| PrivateNotImported (title : string)
| CannotInterpretPost (post_format : option string)
| NoContent (title : string)
| Downloading (url dst_path : string)
| DownloadFailedStatus (url dst_path : string) (status_code : Z)
| DownloadFailed (url dst_path err : string)
| AttachmentNoParent (post_id : Z) (files : list string)
| AttachmentsWithoutPost (post_id : Z) (first_files : list string)
| AdditionalArguments (args : list string).

(** A call that reaches outside the importer: the logger, the file system,
    the site scaffolding, standard output.  [WriteContent] also records
    what the module-level table [links] holds when [write_content] is
    called: the importer fills that table for [basic_import], which owns
    [write_content], and never reads it itself. *)
Inductive Event :=
| Log (level : Level) (msg : LogMsg)
| Print (text : string)
| ReqMissing (names : list string) (purpose : string)
| GenerateBaseSite (output_folder : string)
| MakeDirs (path : string)
| WriteFile (path : string) (data : string)
| WriteMetadata (path title slug : string) (post_date : option string)
    (description : string) (tags : list (option string))
    (other_meta : list (string * string))
| WriteContent (path : string) (data : string)
    (links : list (string * string))
| WriteAttachmentsInfo (path : string) (info : list (Z * list string))
| WriteUrlmapCsv (path : string) (rows : list (string * string))
| WriteConfiguration (path : string) (data : string).

(** ** External collaborators

    Functions of other modules ([urlparse], [requests], [phpserialize],
    [nikola.utils], the site object) that the importer calls.  They are
    parameters of the embedding. *)

Record datetime := {
  year : nat; month : nat; day : nat;
  hour : nat; minute : nat; second : nat;
  tzinfo : option string
}.

Inductive HttpResult :=
| Response (status_code : Z) (content : string)
| ConnectionError (err : string)
| RequestError (exn : string).      (* any other exception of [requests] *)

Inductive PhpSizes :=
| PhpRaise (exn : string)           (* [loads] or a key lookup raised *)
| PhpNoSizes                        (* no [b'sizes'] key *)
| PhpSizeFiles (files : list string).

Record Env := {
  (** [urlparse(url).path] and [urlparse(url).query] *)
  urlparse_path : string → string;
  urlparse_query : string → string;
  unquote : string → string;
  (** [utils.slugify] *)
  slugify : string → string;
  (** [utils.to_datetime]; [None] is its [ValueError] *)
  to_datetime : option string → option datetime;
  get_tzname : datetime → string;
  (** [utils.get_translation_candidate(context, filename, lang)] *)
  get_translation_candidate : string → string → Result string;
  (** [self.site.link('tag', tag)] *)
  site_link_tag : string → string;
  (** [requests.get(url, auth=auth)] *)
  requests_get : string → option (string * string) → HttpResult;
  (** [None] when the [phpserialize] module is missing; otherwise the file
      names [metadata[b'sizes'][size][b'file']] decoded from a metadata
      value *)
  phpserialize : option (string → PhpSizes);
  (** [int(text)]; [None] is its [ValueError] *)
  py_int : string → option Z;
  (** Whether a call that reaches outside raises, and what: it may depend
      on the call and on everything done before it. *)
  raises : list Event → Event → option string;
  (** The order in which [for tag in self.all_tags] visits a set: by
      ascending rank, which stands for the hash order of the process. *)
  tag_rank : option string → nat;
  (** [format_default_translations_config] and [configure_redirections]
      of [basic_import] *)
  format_default_translations_config : gset string → Result string;
  configure_redirections : list (string * string) → Result string;
  (** [conf_template.render( **prepare_config(self.context))], from the
      template, the context and its TRANSLATIONS and REDIRECTIONS
      entries *)
  render_configuration :
    string → Context → string → string → Result string;
  (** [re.sub(pattern, repl, string)] for a replacement that holds a
      backslash *)
  re_sub_template : string → string → string → Result string;
  (** [self.get_configuration_output_path()], from the output folder *)
  get_configuration_output_path : string → string;
  (** [self.help()] *)
  help : string;
  (** [open(filename, 'rb')] read to its end *)
  read_file : string → Result string;
  (** [etree.fromstring] and [element.nsmap.get('wp')] *)
  etree_fromstring : string → Result Element;
  nsmap_wp : Element → option string;
  (** [DEFAULT_TRANSLATIONS_PATTERN] *)
  default_translations_pattern : string;
  (** The template that [self.generate_base_site()] returns, from the
      output folder *)
  generate_base_site : string → string
}.

(** ** The mutable state of a run

    [links] is the module-level dictionary imported from
    [nikola.plugins.basic_import]; [all_tags] is the class attribute. *)

Record State := {
  url_map : list (string * string);
  links : list (string * string);
  timezone : option string;
  extra_languages : gset string;
  all_tags : gset (option string);
  posts_pages : list (Z * (string * string * string));
  attachments : list (Z * list (Z * list string));
  events : list Event
}.

Definition set_url_map (f : list (string * string) → list (string * string))
  (s : State) : State :=
  {| url_map := f (url_map s); links := links s; timezone := timezone s;
     extra_languages := extra_languages s; all_tags := all_tags s;
     posts_pages := posts_pages s; attachments := attachments s;
     events := events s |}.
Definition set_links (f : list (string * string) → list (string * string))
  (s : State) : State :=
  {| url_map := url_map s; links := f (links s); timezone := timezone s;
     extra_languages := extra_languages s; all_tags := all_tags s;
     posts_pages := posts_pages s; attachments := attachments s;
     events := events s |}.
Definition set_timezone (f : option string → option string)
  (s : State) : State :=
  {| url_map := url_map s; links := links s; timezone := f (timezone s);
     extra_languages := extra_languages s; all_tags := all_tags s;
     posts_pages := posts_pages s; attachments := attachments s;
     events := events s |}.
Definition set_extra_languages (f : gset string → gset string)
  (s : State) : State :=
  {| url_map := url_map s; links := links s; timezone := timezone s;
     extra_languages := f (extra_languages s); all_tags := all_tags s;
     posts_pages := posts_pages s; attachments := attachments s;
     events := events s |}.
Definition set_all_tags (f : gset (option string) → gset (option string))
  (s : State) : State :=
  {| url_map := url_map s; links := links s; timezone := timezone s;
     extra_languages := extra_languages s; all_tags := f (all_tags s);
     posts_pages := posts_pages s; attachments := attachments s;
     events := events s |}.
Definition set_posts_pages
  (f : list (Z * (string * string * string))
       → list (Z * (string * string * string)))
  (s : State) : State :=
  {| url_map := url_map s; links := links s; timezone := timezone s;
     extra_languages := extra_languages s; all_tags := all_tags s;
     posts_pages := f (posts_pages s); attachments := attachments s;
     events := events s |}.
Definition set_attachments
  (f : list (Z * list (Z * list string)) → list (Z * list (Z * list string)))
  (s : State) : State :=
  {| url_map := url_map s; links := links s; timezone := timezone s;
     extra_languages := extra_languages s; all_tags := all_tags s;
     posts_pages := posts_pages s; attachments := f (attachments s);
     events := events s |}.
Definition set_events (f : list Event → list Event) (s : State) : State :=
  {| url_map := url_map s; links := links s; timezone := timezone s;
     extra_languages := extra_languages s; all_tags := all_tags s;
     posts_pages := posts_pages s; attachments := attachments s;
     events := f (events s) |}.

(** ** A state monad with exceptions

    A Python exception that nothing catches ends the call with [Raise];
    the mutations made before it stay in the state. *)

Definition M (A : Type) : Type := State → Result A * State.

Definition ret {A} (a : A) : M A := λ s, (Ok a, s).
Definition bind {A B} (c : M A) (k : A → M B) : M B :=
  λ s, match c s with
       | (Ok a, s') => k a s'
       | (Raise e, s') => (Raise e, s')
       end.
Definition raise {A} (exn : string) : M A := λ s, (Raise exn, s).
Definition gets {A} (f : State → A) : M A := λ s, (Ok (f s), s).
Definition modify (f : State → State) : M unit := λ s, (Ok tt, f s).
Definition emit (e : Event) : M unit := modify (set_events (λ l, l ++ [e])).
Definition log (level : Level) (msg : LogMsg) : M unit :=
  emit (Log level msg).
(** A call that returns a value or raises. *)
Definition lift {A} (r : Result A) : M A :=
  match r with
  | Ok a => ret a
  | Raise e => raise e
  end.

#[global] Instance M_ret : MRet M := @ret.
#[global] Instance M_bind : MBind M := λ A B k c, bind c k.

(** ** The importer *)

Definition truthy (x : option string) : bool :=
  match x with
  | Some (String _ _) => true
  | _ => false
  end.

(** [datetime.datetime(1970, 1, 1, 0, 0, 0)] *)
Definition epoch : datetime :=
  {| year := 1970; month := 1; day := 1;
     hour := 0; minute := 0; second := 0; tzinfo := None |}.

Definition digit (n : nat) : ascii := ascii_of_nat (48 + n mod 10).

Definition two_digits (n : nat) : string :=
  String (digit (n / 10)) (String (digit n) EmptyString).
Definition four_digits (n : nat) : string :=
  String (digit (n / 1000)) (String (digit (n / 100)) (two_digits n)).

(** [dt.strftime('%Y-%m-%d %H:%M:%S')] *)
Definition strftime (dt : datetime) : string :=
  four_digits (year dt) +:+ "-" +:+ two_digits (month dt) +:+ "-" +:+
  two_digits (day dt) +:+ " " +:+ two_digits (hour dt) +:+ ":" +:+
  two_digits (minute dt) +:+ ":" +:+ two_digits (second dt).

(** The category loop of [import_item]: the class-level tag set and the
    two local lists. *)
Record TagAcc := {
  acc_all_tags : gset (option string);
  acc_tags : list (option string);
  acc_categories : list string
}.

Definition category_type (tag : Element) : string :=
  match Dict.get "domain" (attrib tag) with
  | Some d => d
  | None => "category"
  end.

Definition category_skipped (tag : Element) : bool :=
  bool_decide (text tag = Some "Uncategorized")
  && bool_decide (category_type tag = "category").

Definition category_step (a : TagAcc) (tag : Element) : TagAcc :=
  let text := text tag in
  let type := category_type tag in
  if category_skipped tag then a
  else
    let all := {[ text ]} ∪ acc_all_tags a in
    if bool_decide (type = "category")
    then {| acc_all_tags := all; acc_tags := acc_tags a;
            acc_categories := acc_categories a ++ [type] |}
    else {| acc_all_tags := all; acc_tags := acc_tags a ++ [text];
            acc_categories := acc_categories a |}.

Definition collect_categories (item : Element) (a : TagAcc) : TagAcc :=
  foldl category_step a (findall "category" item).

(** Lines 532-543: the loop run on the importer's state; it leaves the
    local lists [tags] and [categories]. *)
Definition category_loop (item : Element) (tags : list (option string))
  : M (list (option string) * list string) :=
  all ← gets all_tags;
  let acc :=
    collect_categories item
      {| acc_all_tags := all; acc_tags := tags; acc_categories := [] |} in
  modify (set_all_tags (λ _, acc_all_tags acc)) ;;
  ret (acc_tags acc, acc_categories acc).

Definition _create_metadata (status : string) (excerpt : option string)
  (tags : list (option string)) (categories : list string)
  : list (option string) * list (string * string) :=
  let other_meta := [("wp-status", status)] in
  let other_meta :=
    match excerpt with
    | Some e => other_meta ++ [("excerpt", e)]
    | None => other_meta
    end in
  (tags ++ (Some <$> categories), other_meta).

Section Importer.
Variable env : Env.
Variable o : Options.

(** A call that reaches outside: it is recorded, then returns or raises
    as the environment decides. *)
Definition perform (e : Event) : M unit :=
  trace ← gets events;
  emit e ;;
  match raises env trace e with
  | Some exn => raise exn
  | None => ret tt
  end.

(** Lines 464-490 of [import_item]: output folder and slug from the link;
    [None] when no slug can be found. *)
Definition derive_slug (item : Element) (wordpress_namespace link : string)
  (out_folder : string) : option (string * string) :=
  let path := unquote env (PyStr.strip_chars "/" (urlparse_path env link)) in
  let bd := PyStr.strip_chars "/" (base_dir o) in
  let path :=
    if PyStr.startswith path bd then PyStr.replace_first bd "" path
    else path in
  let pathlist := PyStr.split "/" path in
  if negb (PyStr.is_empty (urlparse_query env link)) then
    let out_folder := PosixPath.join out_folder pathlist in
    let slug :=
      get_text_tag (Some item) (qname wordpress_namespace "post_name") None in
    let slug :=
      if truthy slug then slug
      else get_text_tag (Some item) (qname wordpress_namespace "post_id")
             None in
    match slug with
    | Some (String c r) => Some (out_folder, String c r)
    | _ => None
    end
  else
    let out_folder :=
      if 1 <? length pathlist
      then PosixPath.join out_folder (removelast pathlist)
      else out_folder in
    Some (out_folder, slugify env (List.last pathlist EmptyString)).

(** Lines 549-554: the post format override. *)
Definition find_post_format (item : Element) (wordpress_namespace : string)
  : Result (option string) :=
  let format_tag :=
    List.filter (λ pc, bool_decide (text pc.2 = Some "_tc_post_format"))
      (findall_below_children (qname wordpress_namespace "meta_key") item) in
  match format_tag with
  | [] => Ok (Some "wp")
  | (parent, _) :: _ =>
      match find (qname wordpress_namespace "meta_value") parent with
      | None => Raise "AttributeError"
      | Some v =>
          if bool_decide (text v = Some "wpautop") then Ok (Some "wp")
          else Ok (text v)
      end
  end.

(** Lines 573-601: the loop over the language variants.  [false] is the
    [return False] of the handler around [transform_content]. *)
Fixpoint write_translations (title slug out_folder status : string)
  (post_date excerpt post_format : option string) (description : string)
  (categories : list string)
  (content_translations : list (string * string))
  (tags : list (option string)) : M bool :=
  match content_translations with
  | [] => ret true
  | (lang, content) :: rest =>
      match transform_content o content post_format with
      | None =>
          log Error (CannotInterpretPost post_format) ;;
          ret false
      | Some (content, extension) =>
          let out_meta_filename := slug +:+ ".meta" in
          out_content_filename ←
            (if negb (PyStr.is_empty lang) then
               if bool_decide (lang = default_lang o)
               then ret (slug +:+ "." +:+ extension)
               else
                 candidate ←
                   lift (get_translation_candidate env
                           (slug +:+ "." +:+ extension) lang);
                 modify (set_extra_languages (λ l, {[ lang ]} ∪ l)) ;;
                 ret candidate
             else ret (slug +:+ "." +:+ extension));
          let meta_slug := slug in
          let '(tags, other_meta) :=
            _create_metadata status excerpt tags categories in
          perform (WriteMetadata
                     (PosixPath.join (output_folder o)
                        [out_folder; out_meta_filename])
                     title meta_slug post_date description tags
                     other_meta) ;;
          links ← gets links;
          perform (WriteContent
                     (PosixPath.join (output_folder o)
                        [out_folder; out_content_filename])
                     content links) ;;
          write_translations title slug out_folder status post_date excerpt
            post_format description categories rest tags
      end
  end.

(** Lines 502-606 of [import_item]: what follows once the publish date
    is settled. *)
Definition import_item_dated (item : Element) (wordpress_namespace : string)
  (title link out_folder slug description : string) (dt : datetime)
  (post_date : option string) : M (option (string * string)) :=
  tz ← gets timezone;
  (match tzinfo dt, tz with
   | Some _, None => modify (set_timezone (λ _, Some (get_tzname env dt)))
   | _, _ => ret tt
   end) ;;
  let status :=
    get_text_tag_str (Some item) (qname wordpress_namespace "status")
      "publish" in
  let content :=
    get_text_tag_str (Some item)
      "{http://purl.org/rss/1.0/modules/content/}encoded" "" in
  let excerpt :=
    get_text_tag (Some item)
      "{http://wordpress.org/export/1.2/excerpt/}encoded" None in
  let excerpt := if truthy excerpt then excerpt else None in
  if bool_decide (status = "trash") then
    log Warn (TrashedPost title) ;; ret None
  else
  let '(tags, is_draft, is_private) :=
    if bool_decide (status = "private") then ([Some "private"], false, true)
    else if bool_decide (status ≠ "publish")
         then ([Some "draft"], true, false)
         else ([], false, false) in
  '(tags, categories) ← category_loop item tags;
  let tags :=
    if PyStr.contains "$latex" content
    then tags ++ [Some "mathjax"] else tags in
  match find_post_format item wordpress_namespace with
  | Raise e => raise e
  | Ok post_format =>
  if is_draft && exclude_drafts o then
    log Notice (DraftNotImported title) ;; ret None
  else if is_private && exclude_privates o then
    log Notice (PrivateNotImported title) ;; ret None
  else if negb (PyStr.is_empty (PyStr.strip content)) || import_empty_items o
  then
    modify (set_url_map
      (Dict.set link
         (PyStr.replace PosixPath.sep "/"
            (site_url o +:+ PyStr.rstrip_chars "/" out_folder +:+ "/" +:+
             slug +:+ ".html")))) ;;
    let content_translations :=
      if opt_separate_qtranslate_content o
      then separate_qtranslate_content content
      else [(EmptyString, content)] in
    written ←
      write_translations title slug out_folder status post_date excerpt
        post_format description categories content_translations tags;
    if written : bool then ret (Some (out_folder, slug)) else ret None
  else
    log Warn (NoContent title) ;; ret None
  end.

(** [import_item]: [Some (out_folder, slug)] on success, [None] for
    [return False]. *)
Definition import_item (item : Element) (wordpress_namespace : string)
  (out_folder : string) : M (option (string * string)) :=
  let title := get_text_tag_str (Some item) "title" "NO TITLE" in
  match get_text_tag (Some item) "link" None with
  | None => raise "TypeError"     (* [urlparse(None).path.strip('/')] *)
  | Some link =>
  match derive_slug item wordpress_namespace link out_folder with
  | None => log Error (ErrorConvertingPost title) ;; ret None
  | Some (out_folder, slug) =>
  let description := get_text_tag_str (Some item) "description" "" in
  let post_date :=
    get_text_tag (Some item) (qname wordpress_namespace "post_date") None in
  '(dt, post_date) ←
    match to_datetime env post_date with
    | Some dt => ret (dt, post_date)
    | None =>
        let dt := epoch in
        log Error (MalformedDate post_date title slug) ;;
        ret (dt, Some (strftime dt))
    end;
  import_item_dated item wordpress_namespace title link out_folder slug
    description dt post_date
  end
  end.

Definition download_url_content_to_file (url dst_path : string) : M unit :=
  if no_downloads o then ret tt
  else
    match requests_get env url (auth o) with
    | Response status_code content =>
        if (400 <=? status_code)%Z
        then log Warn (DownloadFailedStatus url dst_path status_code)
        else perform (WriteFile dst_path content)
    | ConnectionError err => log Warn (DownloadFailed url dst_path err)
    | RequestError exn => raise exn
    end.

(** Lines 327-333 and, again, 382-388: fetch [url] into the [files] tree;
    returns [path] and [dst_url]. *)
Definition download_into_files (url : string) : M (string * string) :=
  let path := urlparse_path env url in
  let dst_path :=
    PosixPath.join (output_folder o) ("files" :: PyStr.split "/" path) in
  let dst_dir := PosixPath.dirname dst_path in
  perform (MakeDirs dst_dir) ;;
  log Info (Downloading url dst_path) ;;
  download_url_content_to_file url dst_path ;;
  let dst_url :=
    PyStr.join "/" (drop 2 (PyStr.split PosixPath.sep dst_path)) in
  ret (path, dst_url).

Fixpoint download_size_files (source_path : string) (files : list string)
  : M (list string) :=
  match files with
  | [] => ret []
  | filename :: rest =>
      let url := PyStr.join "/" [source_path; filename] in
      '(path, dst_url) ← download_into_files url;
      modify (set_links (Dict.set url ("/" +:+ dst_url))) ;;
      result ← download_size_files source_path rest;
      ret (path :: result)
  end.

Fixpoint additional_sizes_loop (loads : string → PhpSizes)
  (wordpress_namespace source_path : string)
  (additional_metadata : list Element) : M (list string) :=
  match additional_metadata with
  | [] => ret []
  | element :: rest =>
      let meta_key := find (qname wordpress_namespace "meta_key") element in
      here ←
        (if bool_decide (text <$> meta_key = Some (Some "_wp_attachment_metadata"))
         then
           match find (qname wordpress_namespace "meta_value") element with
           | None => ret []
           | Some meta_value =>
               match text meta_value with
               | None => raise "AttributeError"
               | Some t =>
                   match loads t with
                   | PhpRaise exn => raise exn
                   | PhpNoSizes => ret []
                   | PhpSizeFiles files =>
                       download_size_files source_path files
                   end
               end
           end
         else ret []);
      result ← additional_sizes_loop loads wordpress_namespace source_path
                 rest;
      ret (here ++ result)
  end.

Definition download_additional_image_sizes (item : Element)
  (wordpress_namespace source_path : string) : M (list string) :=
  match phpserialize env with
  | None => ret []
  | Some loads =>
      additional_sizes_loop loads wordpress_namespace source_path
        (findall (qname wordpress_namespace "postmeta") item)
  end.

Definition import_attachment (item : Element) (wordpress_namespace : string)
  : M (list string) :=
  let url :=
    get_text_tag_str (Some item) (qname wordpress_namespace "attachment_url")
      "foo" in
  let link :=
    get_text_tag_str (Some item) (qname wordpress_namespace "link") "foo" in
  '(path, dst_url) ← download_into_files url;
  modify (set_links (Dict.set link ("/" +:+ dst_url))) ;;
  modify (set_links (Dict.set url ("/" +:+ dst_url))) ;;
  more ← download_additional_image_sizes item wordpress_namespace
           (PosixPath.dirname url);
  ret (path :: more).

(** [int(text)] *)
Definition to_int (t : string) : M Z :=
  match py_int env t with
  | Some n => ret n
  | None => raise "ValueError"
  end.

(** [process_item]; [wordpress_namespace] is [item.nsmap['wp']]. *)
Definition process_item (wordpress_namespace : string) (item : Element)
  : M unit :=
  let post_type :=
    get_text_tag_str (Some item) (qname wordpress_namespace "post_type")
      "post" in
  post_id ←
    to_int (get_text_tag_str (Some item)
              (qname wordpress_namespace "post_id") "0");
  let parent_id :=
    get_text_tag (Some item) (qname wordpress_namespace "post_parent") None in
  if bool_decide (post_type = "attachment") then
    files ← import_attachment item wordpress_namespace;
    match parent_id with
    | Some parent_id =>
        parent ← to_int parent_id;
        modify (set_attachments (λ a,
          Dict.set parent
            (Dict.set post_id files (default [] (Dict.get parent a))) a))
    | None => log Warn (AttachmentNoParent post_id files)
    end
  else
    '(post_type, out_folder_slug) ←
      (if bool_decide (post_type = "post")
       then r ← import_item item wordpress_namespace "posts";
            ret (post_type, r)
       else r ← import_item item wordpress_namespace "stories";
            ret ("page", r));
    match out_folder_slug with
    | Some (out_folder, slug) =>
        modify (set_posts_pages
                  (Dict.set post_id (post_type, out_folder, slug)))
    | None => ret tt
    end.

Definition write_attachments_info (path : string)
  (attachments : list (Z * list string)) : M unit :=
  perform (WriteAttachmentsInfo path attachments).

Fixpoint for_each {A} (body : A → M unit) (l : list A) : M unit :=
  match l with
  | [] => ret tt
  | x :: rest => body x ;; for_each body rest
  end.

(** The second loop of [import_posts], for one parent id. *)
Definition assign_attachments (post_id : Z) : M unit :=
  attachments ← gets attachments;
  posts_pages ← gets posts_pages;
  let files := default [] (Dict.get post_id attachments) in
  match Dict.get post_id posts_pages with
  | Some (_, out_folder, slug) =>
      let destination :=
        PosixPath.join (output_folder o)
          [out_folder; slug +:+ ".attachments.json"] in
      write_attachments_info destination files
  | None =>
      log Warn (AttachmentsWithoutPost post_id
                  ((λ e, default EmptyString (head e.2)) <$> files))
  end.

Definition import_posts (wordpress_namespace : string) (channel : Element)
  : M unit :=
  modify (set_posts_pages (λ _, [])) ;;
  modify (set_attachments (λ _, [])) ;;
  for_each (process_item wordpress_namespace) (findall "item" channel) ;;
  attachments ← gets attachments;
  for_each assign_attachments (Dict.keys attachments).

(** The tag redirects of [_execute], for one element of [all_tags]. *)
Definition add_tag_redirect (tag : option string) : M unit :=
  match tag with
  | None => raise "ValueError"      (* [utils.slugify(None)] *)
  | Some tag_str =>
      let tag := slugify env tag_str in
      let src_url := site_url o +:+ "tag/" +:+ tag in
      let dst_url := site_link_tag env tag in
      if bool_decide (src_url ≠ dst_url)
      then modify (set_url_map (Dict.set src_url dst_url))
      else ret tt
  end.

(** [for tag in self.all_tags]: the elements of the set, by rank. *)
Definition tag_order (tags : gset (option string))
  : list (option string) :=
  @merge_sort _ (λ a b, tag_rank env a ≤ tag_rank env b)
    (λ a b, decide (tag_rank env a ≤ tag_rank env b)) (elements tags).

(** [re.sub(pattern, repl, string)] for a pattern without special
    characters: a replacement without backslash is put in as it is. *)
Definition re_sub_literal (pattern repl s : string) : Result string :=
  if PyStr.mem "\" repl then re_sub_template env pattern repl s
  else Ok (PyStr.replace pattern repl s).

(** Lines 171-179; the channel it is passed is not used. *)
Definition _adjust_config_template (rendered_template : string)
  : M string :=
  rendered_template ←
    lift (re_sub_literal "# REDIRECTIONS = " "REDIRECTIONS = "
            rendered_template);
  tz ← gets timezone;
  if truthy tz then
    lift (re_sub_literal "# TIMEZONE = 'UTC'"
            ("TIMEZONE = '" +:+ default EmptyString tz +:+ "'")
            rendered_template)
  else ret rendered_template.

(** [_execute] once the options are read and the channel is parsed
    (lines 191 and 213-239; the reset of [url_map] and [timezone] is the
    one of [_read_options], lines 146-147): the items are imported, the
    tag redirects added, the URL map written, the configuration rendered
    and written.  The head of the function is [_execute_command]. *)
Definition _execute (wordpress_namespace : string) (channel : Element)
  : M unit :=
  modify (set_url_map (λ _, [])) ;;
  modify (set_timezone (λ _, None)) ;;
  modify (set_extra_languages (λ _, ∅)) ;;
  import_posts wordpress_namespace channel ;;
  languages ← gets extra_languages;
  translations ← lift (format_default_translations_config env languages);
  imported ← gets url_map;
  redirections ← lift (configure_redirections env imported);
  tags ← gets all_tags;
  for_each add_tag_redirect (tag_order tags) ;;
  rows ← gets url_map;
  perform (WriteUrlmapCsv
             (PosixPath.join (output_folder o) ["url_map.csv"]) rows) ;;
  rendered_template ←
    lift (render_configuration env (conf_template o) (context o)
            translations redirections);
  rendered_template ← _adjust_config_template rendered_template;
  perform (WriteConfiguration
             (get_configuration_output_path env (output_folder o))
             rendered_template).

End Importer.

(** ** A sample site

    Concrete collaborators and items on which the embedding is evaluated.
    Each stand-in agrees with the real function on the inputs used here:
    plain [http] URLs without escapes, slugs of lower-case letters, digits
    and hyphens, dates written [YYYY-MM-DD HH:MM:SS], decimal ids. *)

Module Sample.

Fixpoint until_any (stops s : string) : string * string :=
  match s with
  | EmptyString => (EmptyString, EmptyString)
  | String c s' =>
      if PyStr.mem c stops then (EmptyString, s)
      else let '(a, b) := until_any stops s' in (String c a, b)
  end.

Fixpoint after_sub (sub s : string) : option string :=
  if PyStr.startswith s sub then Some (PyStr.drop (PyStr.len sub) s)
  else match s with
       | EmptyString => None
       | String _ s' => after_sub sub s'
       end.

Definition after_netloc (url : string) : string :=
  match after_sub "://" url with
  | Some r => (until_any "/?#" r).2
  | None => url
  end.

Definition http_path (url : string) : string :=
  (until_any "?#" (after_netloc url)).1.

Definition http_query (url : string) : string :=
  let rest := (until_any "?#" (after_netloc url)).2 in
  if PyStr.startswith rest "?" then (until_any "#" (PyStr.drop 1 rest)).1
  else EmptyString.

Definition is_digit (c : ascii) : bool :=
  let n := nat_of_ascii c in (48 <=? n) && (n <=? 57).

Fixpoint digits_value (s : string) (acc : Z) : Z :=
  match s with
  | EmptyString => acc
  | String c s' =>
      digits_value s' (10 * acc + Z.of_nat (nat_of_ascii c - 48))%Z
  end.

Definition decimal_int (t : string) : option Z :=
  if negb (PyStr.is_empty t) && PyStr.all_by is_digit t
  then Some (digits_value t 0%Z) else None.

Definition field (s : string) (from n : nat) : option nat :=
  let f := PyStr.take n (PyStr.drop from s) in
  if (PyStr.len f =? n) && PyStr.all_by is_digit f
  then Some (Z.to_nat (digits_value f 0%Z)) else None.

Definition iso_datetime (value : option string) : option datetime :=
  match value with
  | None => None
  | Some v =>
      if (PyStr.len v =? 19)
         && bool_decide (PyStr.take 1 (PyStr.drop 4 v) = "-")
         && bool_decide (PyStr.take 1 (PyStr.drop 7 v) = "-")
         && bool_decide (PyStr.take 1 (PyStr.drop 10 v) = " ")
         && bool_decide (PyStr.take 1 (PyStr.drop 13 v) = ":")
         && bool_decide (PyStr.take 1 (PyStr.drop 16 v) = ":")
      then
        y ← field v 0 4; mo ← field v 5 2; d ← field v 8 2;
        h ← field v 11 2; mi ← field v 14 2; se ← field v 17 2;
        Some {| year := y; month := mo; day := d;
                hour := h; minute := mi; second := se; tzinfo := None |}
      else None
  end.

(** The default pattern [{path}.{lang}.{ext}]. *)
Definition dotted_translation (filename lang : string) : string :=
  let '(ext_rev, rest) := until_any "." (PyStr.rev filename) in
  PyStr.rev (PyStr.drop 1 rest) +:+ "." +:+ lang +:+ "." +:+
  PyStr.rev ext_rev.

Definition ascii_lower (c : ascii) : ascii :=
  let n := nat_of_ascii c in
  if (65 <=? n) && (n <=? 90) then ascii_of_nat (n + 32) else c.

Definition slug_char (c : ascii) : bool :=
  let n := nat_of_ascii c in
  is_digit c || ((97 <=? n) && (n <=? 122)) || (n =? 45) || (n =? 95).

Fixpoint simple_slugify (s : string) : string :=
  match s with
  | EmptyString => EmptyString
  | String c s' =>
      let c := ascii_lower c in
      if slug_char c then String c (simple_slugify s')
      else if PyStr.is_space c then String "-" (simple_slugify s')
      else simple_slugify s'
  end.

Definition blog_context : Context := {|
  DEFAULT_LANG := "en";
  TRANSLATIONS_PATTERN := "{path}.{lang}.{ext}";
  BLOG_TITLE := "Foo";
  BLOG_DESCRIPTION := "PUT DESCRIPTION HERE";
  BASE_URL := "http://foo.com/";
  SITE_URL := "http://foo.com/";
  BLOG_EMAIL := "joe@example.com";
  BLOG_AUTHOR := "Joe Example"
|}.

Definition options : Options := {|
  output_folder := "new_site";
  squash_newlines := false;
  exclude_drafts := false;
  exclude_privates := false;
  no_downloads := false;
  import_empty_items := false;
  auth := None;
  opt_separate_qtranslate_content := false;
  site_url := "http://foo.com/";
  default_lang := "en";
  base_dir := "/";
  context := blog_context;
  conf_template := "# conf.py"
|}.

(** The same site imported with [--no-downloads]. *)
Definition options_no_downloads : Options := {|
  output_folder := "new_site";
  squash_newlines := false;
  exclude_drafts := false;
  exclude_privates := false;
  no_downloads := true;
  import_empty_items := false;
  auth := None;
  opt_separate_qtranslate_content := false;
  site_url := "http://foo.com/";
  default_lang := "en";
  base_dir := "/";
  context := blog_context;
  conf_template := "# conf.py"
|}.

Definition wp : string := "http://wordpress.org/export/1.2/".
Definition content_encoded : string :=
  "{http://purl.org/rss/1.0/modules/content/}encoded".

Definition leaf (name value : string) : Element :=
  Elem name (Some value) [] [].

Definition postmeta (key value : string) : Element :=
  Elem (qname wp "postmeta") None []
    [leaf (qname wp "meta_key") key; leaf (qname wp "meta_value") value].

Definition category (domain value : string) : Element :=
  Elem "category" (Some value) [("domain", domain)] [].

(** A post or page item as WordPress exports it. *)
Definition entry (post_type id link status date body : string)
  (more : list Element) : Element :=
  Elem "item" None []
    ([leaf "title" "Hello"; leaf "link" link;
      leaf (qname wp "post_id") id; leaf (qname wp "post_date") date;
      leaf (qname wp "post_type") post_type;
      leaf (qname wp "status") status; leaf content_encoded body]
     ++ more).

(** An attachment item; [parent] is its [wp:post_parent], if any. *)
Definition attachment (id url : string) (parent : option string) : Element :=
  Elem "item" None []
    ([leaf "title" "photo"; leaf "link" (url +:+ "/");
      leaf (qname wp "post_id") id;
      leaf (qname wp "post_type") "attachment";
      leaf (qname wp "attachment_url") url]
     ++ match parent with
        | Some p => [leaf (qname wp "post_parent") p]
        | None => []
        end).

Definition channel (items : list Element) : Element :=
  Elem "channel" None [] (leaf "title" "Foo" :: items).

(** A post with one attachment, an attachment whose parent (99) is not
    in the export, and an attachment without a parent. *)
Definition blog : Element :=
  channel
    [entry "post" "7" "http://foo.com/2012/09/01/hello-world/" "publish"
       "2012-09-01 10:00:00" "Some text"
       [category "category" "news"; category "post_tag" "rocq"];
     attachment "9" "http://foo.com/wp-content/uploads/2012/09/a.jpg"
       (Some "7");
     attachment "10" "http://foo.com/wp-content/uploads/2012/09/b.jpg"
       (Some "99");
     attachment "11" "http://foo.com/wp-content/uploads/2012/09/c.jpg"
       None].

Definition empty_state : State := {|
  url_map := []; links := []; timezone := None;
  extra_languages := ∅; all_tags := ∅;
  posts_pages := []; attachments := []; events := []
|}.

(** The export file of the blog: its text, which is not looked at again,
    and the tree the parser makes of it. *)
Definition export_text : string := "<rss>...</rss>".
Definition export : Element :=
  Elem "rss" None []
    [Elem "channel" None []
       (leaf "title" "Foo" :: leaf "link" "http://foo.com"
        :: leaf "language" "en" :: findall "item" blog)].

Definition env : Env := {|
  urlparse_path := http_path;
  urlparse_query := http_query;
  unquote := λ s, s;
  slugify := simple_slugify;
  to_datetime := iso_datetime;
  get_tzname := λ _, "UTC";
  get_translation_candidate := λ filename lang,
    Ok (dotted_translation filename lang);
  site_link_tag := λ tag, "/categories/" +:+ tag +:+ ".html";
  requests_get := λ url _, Response 200 ("bytes of " +:+ url);
  phpserialize := Some (λ _, PhpNoSizes);
  py_int := decimal_int;
  raises := λ _ _, None;
  tag_rank := λ _, 0;
  format_default_translations_config := λ _, Ok "TRANSLATIONS";
  configure_redirections := λ _, Ok "REDIRECTIONS";
  render_configuration := λ template _ translations redirections,
    Ok (template +:+ nl +:+ translations +:+ nl +:+ redirections);
  re_sub_template := λ _ _ _, Raise "error";
  get_configuration_output_path := λ folder,
    PosixPath.join folder ["conf.py"];
  help := "nikola import_wordpress [options] wordpress_export_file";
  read_file := λ _, Ok export_text;
  etree_fromstring := λ _, Ok export;
  nsmap_wp := λ _, Some "http://wordpress.org/export/1.2/";
  default_translations_pattern := "{path}.{lang}.{ext}";
  generate_base_site := λ _, "# conf.py"
|}.

End Sample.

(** ** Vocabulary of the properties *)

(** Text that is empty or made of whitespace only. *)
Definition whitespace_only (s : string) : bool :=
  PyStr.all_by PyStr.is_space s.

(** [preserves R c]: every run of [c], whatever it returns or raises,
    takes a state to an [R]-related one. *)
Definition preserves {A} (R : relation State) (c : M A) : Prop :=
  ∀ s r s', c s = (r, s') → R s s'.

(** The trace only grows, and every new event satisfies [P]. *)
Definition appends (P : Event → Prop) : relation State :=
  λ s s', ∃ new, events s' = events s ++ new ∧ Forall P new.

(** The keys of a dictionary of the state are kept. *)
Definition keeps_keys {K V} `{EqDecision K} (f : State → list (K * V))
  : relation State :=
  λ s s', ∀ k, is_Some (Dict.get k (f s)) → is_Some (Dict.get k (f s')).

(** A field of the state is left as it was. *)
Definition unchanged {A} (f : State → A) : relation State :=
  λ s s', f s' = f s.

(** Every metadata file written carries the date [d]. *)
Definition dated (d : option string) (e : Event) : Prop :=
  match e with
  | WriteMetadata _ _ _ post_date _ _ _ => post_date = d
  | _ => True
  end.

(** The events of item processing: no sidecar, no URL map file, and,
    when [d] is given, metadata files dated [d] only. *)
Definition item_event (d : option (option string)) (e : Event) : Prop :=
  match e with
  | WriteMetadata _ _ _ post_date _ _ _ =>
      match d with
      | Some d => post_date = d
      | None => True
      end
  | WriteAttachmentsInfo _ _ | WriteUrlmapCsv _ _ | WriteConfiguration _ _
  | Print _ | ReqMissing _ _ | GenerateBaseSite _ => False
  | _ => True
  end.

(** The events of a download. *)
Definition download_event (e : Event) : Prop :=
  match e with
  | Log _ _ | MakeDirs _ | WriteFile _ _ => True
  | _ => False
  end.

(** What every step of item processing maintains. *)
Definition kept (d : option (option string)) : relation State :=
  λ s s', appends (item_event d) s s'
          ∧ keeps_keys links s s' ∧ keeps_keys attachments s s'.

(** A sidecar event is one that [import_posts] writes for a recorded post
    or page [q], next to its content file, with the attachments indexed
    under [q]. *)
Definition sidecar_of_recorded (o : Options)
  (posts_pages : list (Z * (string * string * string)))
  (attachments : list (Z * list (Z * list string))) (e : Event) : Prop :=
  match e with
  | WriteAttachmentsInfo path info =>
      ∃ q post_type out_folder slug,
        Dict.get q posts_pages = Some (post_type, out_folder, slug)
        ∧ path = PosixPath.join (output_folder o)
                   [out_folder; slug +:+ ".attachments.json"]
        ∧ Dict.get q attachments = Some info
  | _ => True
  end.

(** The texts the category loop adds to [all_tags]. *)
Definition category_texts (l : list Element) : gset (option string) :=
  list_to_set (text <$> List.filter (λ e, negb (category_skipped e)) l).

(** *** The events of an attachment *)

(** What [download_url_content_to_file] does for [url], when it returns:
    nothing with [--no-downloads]; the file written when the reply is
    below 400; a warning for a reply from 400 on and for a connection
    error. *)
Definition fetch_events (env : Env) (o : Options) (url dst_path : string)
  : list Event :=
  if no_downloads o then []
  else
    match requests_get env url (auth o) with
    | Response status_code content =>
        if (400 <=? status_code)%Z
        then [Log Warn (DownloadFailedStatus url dst_path status_code)]
        else [WriteFile dst_path content]
    | ConnectionError err => [Log Warn (DownloadFailed url dst_path err)]
    | RequestError _ => []
    end.

(** Where the file of [url] goes: the output folder, [files] and the
    components of the path of [url], joined as they are. *)
Definition download_destination (env : Env) (o : Options) (url : string)
  : string :=
  PosixPath.join (output_folder o)
    ("files" :: PyStr.split "/" (urlparse_path env url)).

(** The events of fetching [url] into the [files] tree. *)
Definition download_events (env : Env) (o : Options) (url : string)
  : list Event :=
  let dst_path := download_destination env o url in
  MakeDirs (PosixPath.dirname dst_path)
  :: Log Info (Downloading url dst_path)
  :: fetch_events env o url dst_path.

(** The file names of the additional image sizes that one [postmeta]
    element holds, and those of an attachment, as
    [download_additional_image_sizes] finds them when it returns. *)
Definition element_size_files (loads : string → PhpSizes)
  (wordpress_namespace : string) (element : Element) : list string :=
  if bool_decide
       (text <$> find (qname wordpress_namespace "meta_key") element
        = Some (Some "_wp_attachment_metadata"))
  then
    match find (qname wordpress_namespace "meta_value") element with
    | Some meta_value =>
        match text meta_value with
        | Some t =>
            match loads t with
            | PhpSizeFiles files => files
            | _ => []
            end
        | None => []
        end
    | None => []
    end
  else [].

Definition size_files (env : Env) (wordpress_namespace : string)
  (item : Element) : list string :=
  match phpserialize env with
  | None => []
  | Some loads =>
      flat_map (element_size_files loads wordpress_namespace)
        (findall (qname wordpress_namespace "postmeta") item)
  end.

(** The addresses of the files named [files], next to [source_path]. *)
Definition size_urls (source_path : string) (files : list string)
  : list string :=
  (λ filename, PyStr.join "/" [source_path; filename]) <$> files.

(** The addresses an attachment is fetched from: its own and those of
    its additional sizes. *)
Definition attachment_urls (env : Env) (wordpress_namespace : string)
  (item : Element) : list string :=
  let url :=
    get_text_tag_str (Some item)
      (qname wordpress_namespace "attachment_url") "foo" in
  url :: size_urls (PosixPath.dirname url)
           (size_files env wordpress_namespace item).

(** The events of [import_attachment], when it returns. *)
Definition attachment_events (env : Env) (o : Options)
  (wordpress_namespace : string) (item : Element) : list Event :=
  concat (download_events env o
          <$> attachment_urls env wordpress_namespace item).

(** The events of [process_item] for an attachment, when it returns: the
    downloads and, without a parent, the warning. *)
Definition attachment_item_events (env : Env) (o : Options)
  (wordpress_namespace : string) (item : Element) (post_id : Z)
  : list Event :=
  attachment_events env o wordpress_namespace item
  ++ match get_text_tag (Some item)
             (qname wordpress_namespace "post_parent") None with
     | Some _ => []
     | None =>
         [Log Warn
            (AttachmentNoParent post_id
               (urlparse_path env
                  <$> attachment_urls env wordpress_namespace item))]
     end.

(** A path component: not empty and without a slash; a plain one is
    neither [.] nor [..]. *)
Definition segment (x : string) : Prop :=
  PyStr.mem "/" x = false ∧ PyStr.is_empty x = false.
Definition plain_segment (x : string) : Prop :=
  segment x ∧ x ≠ "." ∧ x ≠ "..".

(** The path [/p1/p2/.../pn]. *)
Definition url_path (parts : list string) : string :=
  "/" +:+ PyStr.join "/" parts.

(** The components [x1; ...; xn] as [/x1/.../xn]. *)
Definition slashed (l : list string) : string :=
  foldr (λ x rest, "/" +:+ x +:+ rest) EmptyString l.

(** [path] names something inside the directory [dir]: it is [dir]
    followed by plain components. *)
Definition inside (dir path : string) : Prop :=
  ∃ parts, parts ≠ [] ∧ Forall plain_segment parts
           ∧ path = dir +:+ slashed parts.

(** What the second loop of [import_posts] writes: a sidecar or the
    warning about attachments without post. *)
Definition report_event (e : Event) : Prop :=
  match e with
  | WriteAttachmentsInfo _ _ | Log Warn (AttachmentsWithoutPost _ _) => True
  | _ => False
  end.

(** *** Two runs *)

(** The same importer in another world: other network replies, other
    failures of the calls that reach outside, another iteration order of
    sets. *)
Definition replay (env : Env)
  (requests_get' : string → option (string * string) → HttpResult)
  (raises' : list Event → Event → option string)
  (tag_rank' : option string → nat) : Env :=
  {| urlparse_path := urlparse_path env;
     urlparse_query := urlparse_query env;
     unquote := unquote env;
     slugify := slugify env;
     to_datetime := to_datetime env;
     get_tzname := get_tzname env;
     get_translation_candidate := get_translation_candidate env;
     site_link_tag := site_link_tag env;
     requests_get := requests_get';
     phpserialize := phpserialize env;
     py_int := py_int env;
     raises := raises';
     tag_rank := tag_rank';
     format_default_translations_config :=
       format_default_translations_config env;
     configure_redirections := configure_redirections env;
     render_configuration := render_configuration env;
     re_sub_template := re_sub_template env;
     get_configuration_output_path := get_configuration_output_path env;
     help := help env;
     read_file := read_file env;
     etree_fromstring := etree_fromstring env;
     nsmap_wp := nsmap_wp env;
     default_translations_pattern := default_translations_pattern env;
     generate_base_site := generate_base_site env |}.

(** What a reply of the network decides: the file written or the warning
    logged by [download_url_content_to_file]. *)
Definition network_event (e : Event) : bool :=
  match e with
  | WriteFile _ _
  | Log _ (DownloadFailedStatus _ _ _) | Log _ (DownloadFailed _ _ _) => true
  | _ => false
  end.

(** The trace without those. *)
Definition outputs (l : list Event) : list Event :=
  List.filter (λ e, negb (network_event e)) l.

(** The files of a site: metadata, content, and the URL map. *)
Definition site_file (e : Event) : bool :=
  match e with
  | WriteMetadata _ _ _ _ _ _ _ | WriteContent _ _ _ | WriteUrlmapCsv _ _ =>
      true
  | _ => false
  end.
Definition site_files (l : list Event) : list Event :=
  List.filter site_file l.

(** Two states that differ at most in what the network decided. *)
Definition alike (s t : State) : Prop :=
  url_map s = url_map t ∧ links s = links t ∧ timezone s = timezone t
  ∧ extra_languages s = extra_languages t ∧ all_tags s = all_tags t
  ∧ posts_pages s = posts_pages t ∧ attachments s = attachments t
  ∧ outputs (events s) = outputs (events t).

(** [c] and [d] run alike: from two states that are alike, when both
    return, they return the same and leave states that are alike. *)
Definition co_runs {A} (c d : M A) : Prop :=
  ∀ s t, alike s t →
    match c s, d t with
    | (Ok a, s'), (Ok b, t') => a = b ∧ alike s' t'
    | _, _ => True
    end.

(** ** Reading the options, the export file and the channel *)

(** [s.split(sep, 1)] for a non-empty separator: at most one cut, at the
    first occurrence. *)
Fixpoint split_once_go (sep s cur : string) : list string :=
  match s with
  | EmptyString => [PyStr.rev cur]
  | String c s' =>
      if PyStr.startswith s sep
      then [PyStr.rev cur; PyStr.drop (PyStr.len sep) s]
      else split_once_go sep s' (String c cur)
  end.

Definition split_once (sep s : string) : list string :=
  split_once_go sep s EmptyString.

(** The [options] dictionary handed to [_read_options]; [None] is a key
    that is not there. *)
Record RawOptions := {
  raw_output_folder : option string;
  raw_squash_newlines : option bool;
  raw_exclude_drafts : option bool;
  raw_exclude_privates : option bool;
  raw_no_downloads : option bool;
  raw_include_empty_items : option bool;
  raw_download_auth : option string;
  raw_separate_qtranslate_content : option bool;
  raw_translations_pattern : option string
}.

(** The attributes [_read_options] sets on the importer. *)
Record Settings := {
  wordpress_export_file : string;
  set_squash_newlines : bool;
  set_output_folder : string;
  set_exclude_drafts : bool;
  set_exclude_privates : bool;
  set_no_downloads : bool;
  set_import_empty_items : bool;
  set_auth : option (string * string);
  set_separate_qtranslate_content : bool;
  set_translations_pattern : option string
}.

(** [ReadRaise]: an [IndexError] or [KeyError]; [ReadFailed]: the hint
    about credentials is printed and [False] returned; [ReadDone]: [True]
    is returned, [warned] being the additional arguments the warning
    lists (none when it is empty). *)
Inductive ReadOptions :=
| ReadRaise (exn : string)
| ReadFailed
| ReadDone (settings : Settings) (warned : list string).

(** Lines 131-135: the file name and, may be, the output folder are taken
    from the arguments; what is left of them comes last. *)
Definition positional_arguments (options : RawOptions) (args : list string)
  : Result (string * option string * list string) :=
  match args with
  | [] => Raise "IndexError"
  | filename :: args =>
      match args with
      | [] => Ok (filename, raw_output_folder options, args)
      | first :: rest =>
          if negb (bool_decide ("output_folder" ∈ args))
          then Ok (filename, Some first, rest)
          else
            match raw_output_folder options with
            | None => Raise "KeyError"
            | Some folder =>
                if bool_decide (folder = "new_site")
                then Ok (filename, Some first, rest)
                else Ok (filename, Some folder, args)
            end
      end
  end.

(** Lines 155-161: [None] when the value given holds no colon. *)
Definition credentials (options : RawOptions)
  : option (option (string * string)) :=
  match raw_download_auth options with
  | None => Some None
  | Some username_password =>
      match split_once ":" username_password with
      | [username; password] => Some (Some (username, password))
      | _ => None
      end
  end.

Definition settings_of (options : RawOptions) (filename : string)
  (output_folder : option string) (auth : option (string * string))
  : Settings :=
  {| wordpress_export_file := filename;
     set_squash_newlines := default false (raw_squash_newlines options);
     set_output_folder := default "new_site" output_folder;
     set_exclude_drafts := default false (raw_exclude_drafts options);
     set_exclude_privates := default false (raw_exclude_privates options);
     set_no_downloads := default false (raw_no_downloads options);
     set_import_empty_items :=
       default false (raw_include_empty_items options);
     set_auth := auth;
     set_separate_qtranslate_content :=
       default false (raw_separate_qtranslate_content options);
     set_translations_pattern := raw_translations_pattern options |}.

(** Lines 130-165, as a function of the options and arguments: what
    [_read_options] returns and the attributes it sets.  Its warning, its
    hint and its reset of [url_map] and [timezone] are in
    [run_read_options]. *)
Definition _read_options (options : RawOptions) (args : list string)
  : ReadOptions :=
  match positional_arguments options args with
  | Raise e => ReadRaise e
  | Ok (filename, output_folder, args) =>
      match credentials options with
      | None => ReadFailed
      | Some auth =>
          ReadDone (settings_of options filename output_folder auth) args
      end
  end.

(** [for line in fd]: the lines of a file, each with its line end. *)
Fixpoint readlines_go (s cur : string) : list string :=
  match s with
  | EmptyString => if PyStr.is_empty cur then [] else [PyStr.rev cur]
  | String c s' =>
      if Ascii.eqb c Re.newline
      then PyStr.rev (String c cur) :: readlines_go s' EmptyString
      else readlines_go s' (String c cur)
  end.

Definition readlines (s : string) : list string :=
  readlines_go s EmptyString.

Definition atom_link : string := "<atom:link rel=".

(** [read_xml_file], on the bytes of the file. *)
Definition read_xml_file (data : string) : string :=
  PyStr.join nl
    (List.filter (λ line, negb (PyStr.contains atom_link line))
       (readlines data)).

(** [populate_context]; [wordpress_namespace] is [channel.nsmap['wp']] and
    [default_pattern] the imported [DEFAULT_TRANSLATIONS_PATTERN].  A
    channel whose link text is empty is looked up with [find(None)] on its
    author element, which raises when there is one. *)
Definition populate_context (default_pattern wordpress_namespace : string)
  (channel : Element) : Result Context :=
  let author := find (qname wordpress_namespace "author") channel in
  let base_url := get_text_tag_str (Some channel) "link" "#" in
  let base_url : Result string :=
    if PyStr.is_empty base_url then
      match author with
      | None => Ok "http://foo.com/"
      | Some _ => Raise "TypeError"
      end
    else Ok base_url in
  match base_url with
  | Raise e => Raise e
  | Ok base_url =>
      let base_url :=
        if negb (PyStr.endswith base_url "/") then base_url +:+ "/"
        else base_url in
      Ok {| DEFAULT_LANG :=
              PyStr.take 2 (get_text_tag_str (Some channel) "language" "en");
            TRANSLATIONS_PATTERN := default_pattern;
            BLOG_TITLE :=
              get_text_tag_str (Some channel) "title" "PUT TITLE HERE";
            BLOG_DESCRIPTION :=
              get_text_tag_str (Some channel) "description"
                "PUT DESCRIPTION HERE";
            BASE_URL := base_url;
            SITE_URL := base_url;
            BLOG_EMAIL :=
              get_text_tag_str author
                (qname wordpress_namespace "author_email")
                "joe@example.com";
            BLOG_AUTHOR :=
              get_text_tag_str author
                (qname wordpress_namespace "author_display_name")
                "Joe Example" |}
  end.

(** The importer's options once [_read_options], [_prepare] and
    [generate_base_site] have run. *)
Definition prepared_options (env : Env) (settings : Settings)
  (context : Context) (conf_template : string) : Options :=
  {| output_folder := set_output_folder settings;
     squash_newlines := set_squash_newlines settings;
     exclude_drafts := set_exclude_drafts settings;
     exclude_privates := set_exclude_privates settings;
     no_downloads := set_no_downloads settings;
     import_empty_items := set_import_empty_items settings;
     auth := set_auth settings;
     opt_separate_qtranslate_content :=
       set_separate_qtranslate_content settings;
     site_url := SITE_URL context;
     default_lang := DEFAULT_LANG context;
     base_dir := urlparse_path env (BASE_URL context);
     context := context;
     conf_template := conf_template |}.

(** [_read_options] as the importer runs it: [None] is [return False]. *)
Definition run_read_options (options : RawOptions) (args : list string)
  : M (option Settings) :=
  '(filename, output_folder, rest) ←
    lift (positional_arguments options args);
  (if bool_decide (rest ≠ []) then log Warn (AdditionalArguments rest)
   else ret tt) ;;
  modify (set_url_map (λ _, [])) ;;
  modify (set_timezone (λ _, None)) ;;
  match credentials options with
  | None =>
      emit (Print
              "Please specify HTTP authentication credentials in the form username:password.") ;;
      ret None
  | Some auth => ret (Some (settings_of options filename output_folder auth))
  end.

(** Lines 253-257; [None] when the tree has no [channel] child. *)
Definition get_channel_from_file (env : Env) (filename : string)
  : M (option Element) :=
  data ← lift (read_file env filename);
  tree ← lift (etree_fromstring env (read_xml_file data));
  ret (find "channel" tree).

(** The context with the pattern of [--translations_pattern], when one is
    given (lines 210-211). *)
Definition with_translations_pattern (pattern : option string)
  (c : Context) : Context :=
  if truthy pattern then
    {| DEFAULT_LANG := DEFAULT_LANG c;
       TRANSLATIONS_PATTERN := default EmptyString pattern;
       BLOG_TITLE := BLOG_TITLE c;
       BLOG_DESCRIPTION := BLOG_DESCRIPTION c;
       BASE_URL := BASE_URL c;
       SITE_URL := SITE_URL c;
       BLOG_EMAIL := BLOG_EMAIL c;
       BLOG_AUTHOR := BLOG_AUTHOR c |}
  else c.

(** [_execute], whole (lines 181-239): [Some false] is [return False],
    [None] the end of the function.  Every item is read with the
    namespace map of the channel. *)
Definition _execute_command (env : Env) (options : RawOptions)
  (args : list string) : M (option bool) :=
  match args with
  | [] => emit (Print (help env)) ;; ret (Some false)
  | _ :: _ =>
      settings ← run_read_options options args;
      match settings with
      | None => ret (Some false)
      | Some settings =>
          modify (set_extra_languages (λ _, ∅)) ;;
          (if negb (set_no_downloads settings) then
             match phpserialize env with
             | None =>
                 perform env
                   (ReqMissing ["phpserialize"]
                      "import WordPress dumps without --no-downloads")
             | Some _ => ret tt
             end
           else ret tt) ;;
          channel ← get_channel_from_file env (wordpress_export_file settings);
          match channel with
          | None => raise "AttributeError"     (* [None.nsmap] *)
          | Some channel =>
              match nsmap_wp env channel with
              | None => raise "KeyError"
              | Some wordpress_namespace =>
                  context ←
                    lift (populate_context (default_translations_pattern env)
                            wordpress_namespace channel);
                  perform env
                    (GenerateBaseSite (set_output_folder settings)) ;;
                  let conf_template :=
                    generate_base_site env (set_output_folder settings) in
                  let context :=
                    with_translations_pattern
                      (set_translations_pattern settings) context in
                  _execute env
                    (prepared_options env settings context conf_template)
                    wordpress_namespace channel ;;
                  ret None
              end
          end
      end
  end.

(** ** Vocabulary of the further properties *)

Definition is_log (e : Event) : Prop :=
  match e with
  | Log _ _ => True
  | _ => False
  end.

Definition not_fetched (e : Event) : Prop :=
  match e with
  | WriteFile _ _ => False
  | _ => True
  end.

Definition not_url_map_file (e : Event) : Prop :=
  match e with
  | WriteUrlmapCsv _ _ => False
  | _ => True
  end.

(** The URL map has one row per source URL. *)
Definition unique_sources (s : State) : Prop := NoDup (Dict.keys (url_map s)).

(** One qtranslate section, [<!--:LL-->body<!--:-->]. *)
Definition qt_section (section : string * string) : string :=
  qt_start +:+ section.1 +:+ qt_end +:+ section.2 +:+ qt_start +:+ qt_end.

Fixpoint qt_sections (sections : list (string * string)) : string :=
  match sections with
  | [] => EmptyString
  | x :: rest => qt_section x +:+ qt_sections rest
  end.

(** The bodies of the sections, per language, in order of appearance. *)
Definition add_section (d : list (string * list string))
  (section : string * string) : list (string * list string) :=
  Dict.set section.1
    (default [] (Dict.get section.1 d) ++ [section.2]) d.

Definition is_nl (c : ascii) : bool := Ascii.eqb Re.newline c.

(** Three newlines in a row. *)
Definition triple_nl : string := nl +:+ nl +:+ nl.

Definition starts_with_nl (s : string) : bool :=
  match s with
  | String c _ => is_nl c
  | EmptyString => false
  end.

(** The sample site imported with [--squash-newlines]. *)
Definition squashing_options : Options := {|
  output_folder := "new_site";
  squash_newlines := true;
  exclude_drafts := false;
  exclude_privates := false;
  no_downloads := false;
  import_empty_items := false;
  auth := None;
  opt_separate_qtranslate_content := false;
  site_url := "http://foo.com/";
  default_lang := "en";
  base_dir := "/";
  context := Sample.blog_context;
  conf_template := "# conf.py"
|}.

(** The chunks between the start markers of a text made of sections. *)
Definition qt_chunks_of (sections : list (string * string)) : list string :=
  flat_map (λ section, [section.1 +:+ qt_end +:+ section.2; qt_end])
    sections.

(** A section the splitter reads as one: a two-letter code and a body,
    neither holding the first character of a marker. *)
Definition plain_section (section : string * string) : Prop :=
  PyStr.len section.1 = 2
  ∧ PyStr.mem "<" section.1 = false ∧ PyStr.mem "<" section.2 = false.

(** [keeps P]: a state property that, once true, stays true. *)
Definition keeps (P : State → Prop) : relation State :=
  λ s s', P s → P s'.

(** The tag set only grows. *)
Definition tags_grow : relation State :=
  λ s s', all_tags s ⊆ all_tags s'.

(** Every language added to the language set is a non-empty code other
    than the default language. *)
Definition adds_other_languages (o : Options) : relation State :=
  λ s s', ∀ lang, lang ∈ extra_languages s' →
                  lang ∈ extra_languages s
                  ∨ (lang ≠ EmptyString ∧ lang ≠ default_lang o).

(** Entries of [url_map] and of [links] are never removed. *)
Definition append_only : relation State :=
  λ s s', keeps_keys url_map s s' ∧ keeps_keys links s s'.

(** The URL map keeps one row per source, and no URL map file is
    written. *)
Definition tidy : relation State :=
  λ s s', keeps unique_sources s s' ∧ appends not_url_map_file s s'.

(** Every language of the language set is a non-empty code other than
    the default language. *)
Definition other_languages (o : Options) (s : State) : Prop :=
  ∀ lang, lang ∈ extra_languages s →
          lang ≠ EmptyString ∧ lang ≠ default_lang o.

(** The attributes [_execute] resets before the import (line 191 and
    [_read_options]). *)
Definition reset_attributes (s : State) : State :=
  set_extra_languages (λ _, ∅)
    (set_timezone (λ _, None) (set_url_map (λ _, []) s)).

(** [_execute] up to the writing of the URL map: the import, the entries
    TRANSLATIONS and REDIRECTIONS of the context, which it returns, and
    the tag redirects. *)
Definition import_and_redirect (env : Env) (o : Options)
  (wordpress_namespace : string) (channel : Element)
  : M (string * string) :=
  import_posts env o wordpress_namespace channel ;;
  languages ← gets extra_languages;
  translations ← lift (format_default_translations_config env languages);
  imported ← gets url_map;
  redirections ← lift (configure_redirections env imported);
  tags ← gets all_tags;
  for_each (add_tag_redirect env o) (tag_order env tags) ;;
  ret (translations, redirections).

(** The rest of [_execute]: the configuration rendered and written. *)
Definition write_configuration (env : Env) (o : Options)
  (translations redirections : string) : M unit :=
  rendered_template ←
    lift (render_configuration env (conf_template o) (context o)
            translations redirections);
  rendered_template ← _adjust_config_template env rendered_template;
  perform env
    (WriteConfiguration
       (get_configuration_output_path env (output_folder o))
       rendered_template).

Definition url_map_file (o : Options) (s : State) : Event :=
  WriteUrlmapCsv (PosixPath.join (output_folder o) ["url_map.csv"])
    (url_map s).



(** A qtranslate site: one post written in English and in French. *)
Definition bilingual_options : Options := {|
  output_folder := "new_site";
  squash_newlines := false;
  exclude_drafts := false;
  exclude_privates := false;
  no_downloads := false;
  import_empty_items := false;
  auth := None;
  opt_separate_qtranslate_content := true;
  site_url := "http://foo.com/";
  default_lang := "en";
  base_dir := "/";
  context := Sample.blog_context;
  conf_template := "# conf.py"
|}.

Definition bilingual_blog : Element :=
  Sample.channel
    [Sample.entry "post" "7" "http://foo.com/2012/09/01/hello-world/"
       "publish" "2012-09-01 10:00:00"
       "<!--:en-->Hello<!--:--><!--:fr-->Bonjour<!--:-->"
       [Sample.category "post_tag" "rocq"]].

(** ** Items that are not imported *)

Definition item_status (wordpress_namespace : string) (item : Element)
  : string :=
  get_text_tag_str (Some item) (qname wordpress_namespace "status")
    "publish".

Definition item_content (item : Element) : string :=
  get_text_tag_str (Some item)
    "{http://purl.org/rss/1.0/modules/content/}encoded" "".

(** The item is in the trash, a private post or a draft that the options
    exclude, or has blank content that the options do not ask for. *)
Definition skipped (o : Options) (wordpress_namespace : string)
  (item : Element) : bool :=
  let status := item_status wordpress_namespace item in
  bool_decide (status = "trash")
  || (bool_decide (status = "private") && exclude_privates o)
  || (bool_decide (status ≠ "private") && bool_decide (status ≠ "publish")
      && exclude_drafts o)
  || (PyStr.is_empty (PyStr.strip (item_content item))
      && negb (import_empty_items o)).

(** Nothing is registered and nothing is written but log entries. *)
Definition only_logs : relation State :=
  λ s s', url_map s' = url_map s ∧ links s' = links s
          ∧ extra_languages s' = extra_languages s
          ∧ appends is_log s s'.

(** The sample site imported with [--exclude-drafts]. *)
Definition options_exclude_drafts : Options := {|
  output_folder := "new_site";
  squash_newlines := false;
  exclude_drafts := true;
  exclude_privates := false;
  no_downloads := false;
  import_empty_items := false;
  auth := None;
  opt_separate_qtranslate_content := false;
  site_url := "http://foo.com/";
  default_lang := "en";
  base_dir := "/";
  context := Sample.blog_context;
  conf_template := "# conf.py"
|}.

(** ** The files of one item *)

(** [k] copies of the categories, as the loop over the language versions
    leaves them after [k] rounds. *)
Definition repeated_categories (k : nat) (categories : list string)
  : list (option string) :=
  mjoin (replicate k (Some <$> categories)).

(** The name of the content file of a language version (lines 580-592). *)
Definition translation_file (env : Env) (o : Options)
  (slug extension lang : string) : Result string :=
  if negb (PyStr.is_empty lang) && negb (bool_decide (lang = default_lang o))
  then get_translation_candidate env (slug +:+ "." +:+ extension) lang
  else Ok (slug +:+ "." +:+ extension).

(** The two writes for the language version at position [i]: the
    metadata, always to [<slug>.meta], then the content. *)
Definition version_events (env : Env) (o : Options)
  (title slug out_folder status : string)
  (post_date excerpt post_format : option string) (description : string)
  (categories : list string) (tags : list (option string))
  (links : list (string * string)) (i : nat) (version : string * string)
  : list Event :=
  match transform_content o version.2 post_format with
  | None => []
  | Some (content, extension) =>
      match translation_file env o slug extension version.1 with
      | Raise _ => []
      | Ok name =>
          [WriteMetadata
             (PosixPath.join (output_folder o) [out_folder; slug +:+ ".meta"])
             title slug post_date description
             (tags ++ repeated_categories (S i) categories)
             (_create_metadata status excerpt tags categories).2;
           WriteContent
             (PosixPath.join (output_folder o) [out_folder; name])
             content links]
      end
  end.

(** Every language version can be transformed and named. *)
Definition writable (env : Env) (o : Options) (slug : string)
  (post_format : option string)
  (content_translations : list (string * string)) : Prop :=
  Forall
    (λ version,
       ∃ content extension name,
         transform_content o version.2 post_format
         = Some (content, extension)
         ∧ translation_file env o slug extension version.1 = Ok name)
    content_translations.

(** The records of posts, pages and attachments stay as they are and the
    trace only grows. *)
Definition records_kept : relation State :=
  λ s s', posts_pages s' = posts_pages s ∧ attachments s' = attachments s
          ∧ appends (λ _, True) s s'.

(** ** Export files as lists of lines *)

(** The text of a file whose lines are [lines], each ended by a newline. *)
Definition lines_text (lines : list string) : string :=
  foldr (λ line rest, line +:+ nl +:+ rest) EmptyString lines.

(** A line that [read_xml_file] keeps. *)
Definition kept_line (line : string) : bool :=
  negb (PyStr.contains atom_link line).

(** ** Addresses of downloaded files *)

(** The address [links] gets for a file fetched from [url] (lines 327-335
    and 382-390). *)
Definition files_url (env : Env) (o : Options) (url : string) : string :=
  "/" +:+
  PyStr.join "/"
    (drop 2
       (PyStr.split PosixPath.sep
          (PosixPath.join (output_folder o)
             ("files" :: PyStr.split "/" (urlparse_path env url))))).

(** [url] is entered in [links] with the address of its file. *)
Definition linked (env : Env) (o : Options) (url : string) (s : State)
  : Prop :=
  Dict.get url (links s) = Some (files_url env o url).

(** The command run without any option, and a world where every request
    is answered with 404. *)
Definition no_options : RawOptions :=
  {| raw_output_folder := None; raw_squash_newlines := None;
     raw_exclude_drafts := None; raw_exclude_privates := None;
     raw_no_downloads := None; raw_include_empty_items := None;
     raw_download_auth := None;
     raw_separate_qtranslate_content := None;
     raw_translations_pattern := None |}.

Definition offline_env : Env :=
  replay Sample.env (λ _ _, Response 404 EmptyString) (λ _ _, None)
    (λ _, 0).
(** * Properties *)

#[local] Arguments Ascii.eqb : simpl never.

(** ** The qtranslate splitter *)

(** C2: the two worked examples of the splitter: two marked sections give
    one entry per language, unmarked text lands under the empty key. *)
Theorem separate_qtranslate_content_examples :
  separate_qtranslate_content
    "<!--:en-->Hello<!--:--><!--:fr-->Bonjour<!--:-->"
  = [("en", "Hello"); ("fr", "Bonjour")]
  ∧ separate_qtranslate_content "Shared text" = [("", "Shared text")].
Proof. split; vm_compute; reflexivity. Qed.

Lemma lstrip_by_all p s :
  PyStr.all_by p s = true → PyStr.lstrip_by p s = EmptyString.
Proof.
  induction s as [|c s IH]; simpl; [done|].
  intros [Hc Hs]%andb_prop. rewrite Hc. auto.
Qed.

Lemma strip_whitespace_only s :
  whitespace_only s = true → PyStr.strip s = EmptyString.
Proof.
  intros H. unfold PyStr.strip. by rewrite lstrip_by_all.
Qed.

Lemma is_space_not_marker c :
  PyStr.is_space c = true → Ascii.eqb "<"%char c = false.
Proof.
  intros H. destruct (Ascii.eqb_spec "<"%char c) as [<-|]; [|done].
  vm_compute in H. discriminate.
Qed.

Lemma split_go_whitespace s cur :
  whitespace_only s = true →
  PyStr.split_go qt_start s 0 cur = [PyStr.rev (PyStr.rev_onto s cur)].
Proof.
  unfold qt_start.
  revert cur. induction s as [|c s IH]; intros cur; simpl; [done|].
  intros [Hc Hs]%andb_prop.
  rewrite (is_space_not_marker c Hc). by rewrite IH.
Qed.

Lemma rev_rev_onto s acc :
  PyStr.rev_onto (PyStr.rev_onto s acc) EmptyString
  = PyStr.rev_onto acc s.
Proof.
  revert acc. induction s as [|c s IH]; intros acc; simpl; [done|].
  by rewrite IH.
Qed.

Lemma split_whitespace s :
  whitespace_only s = true → PyStr.split qt_start s = [s].
Proof.
  intros H. unfold PyStr.split. rewrite split_go_whitespace by done.
  unfold PyStr.rev. by rewrite rev_rev_onto.
Qed.

(** C10: on empty or whitespace-only text the splitter returns the empty
    mapping; the single chunk is skipped before any bucket is chosen. *)
Theorem separate_qtranslate_content_whitespace text :
  whitespace_only text = true →
  separate_qtranslate_content text = [].
Proof.
  intros H. unfold separate_qtranslate_content.
  rewrite split_whitespace by done. simpl.
  unfold qt_step, qt_classify. by rewrite strip_whitespace_only.
Qed.

Lemma separate_qtranslate_content_whitespace_witness :
  whitespace_only (" " +:+ nl +:+ " ") = true
  ∧ separate_qtranslate_content (" " +:+ nl +:+ " ") = [].
Proof.
  split; [reflexivity|].
  apply (separate_qtranslate_content_whitespace (" " +:+ nl +:+ " ")).
  reflexivity.
Defined.

(** ** Text transformers *)

(** C3: a code marker without a language attribute is not rewritten to its
    body: the replacement takes the whole match, so the fence wraps the
    markers themselves (the entities inside are unescaped). *)
Theorem transform_code_plain_marker_kept :
  transform_code "[code]a &amp; b[/code]"
  = "```" +:+ nl +:+ "[code]a & b[/code]" +:+ nl +:+ "```"
  ∧ PyStr.contains "[code]" (transform_code "[code]a &amp; b[/code]") = true
  ∧ PyStr.contains "[/code]" (transform_code "[code]a &amp; b[/code]")
    = true.
Proof. repeat split; vm_compute; reflexivity. Qed.

(** C4: [transform_content] dispatches on the post format. *)
Theorem transform_content_dispatch (o : Options) (content : string) :
  transform_content o content (Some "wp")
  = Some (transform_multiple_newlines o
            (transform_caption (transform_code content)), "md")
  ∧ transform_content o content (Some "markdown") = Some (content, "md")
  ∧ transform_content o content (Some "none") = Some (content, "html")
  ∧ ∀ post_format,
      post_format ≠ Some "wp" → post_format ≠ Some "markdown" →
      post_format ≠ Some "none" →
      transform_content o content post_format = None.
Proof.
  repeat split; try reflexivity.
  intros f H1 H2 H3. unfold transform_content.
  rewrite !bool_decide_eq_false_2 by done. reflexivity.
Qed.

Lemma transform_content_dispatch_witness :
  transform_content Sample.options "text" (Some "rest") = None
  ∧ transform_content Sample.options "text" None = None.
Proof.
  split.
  - apply (transform_content_dispatch Sample.options "text");
      discriminate.
  - apply (transform_content_dispatch Sample.options "text");
      discriminate.
Defined.

(** C6: the open-marker pattern is greedy up to the last bracket of the
    line, so text after the marker is removed with it. *)
Theorem transform_caption_eats_to_last_bracket :
  transform_caption
    ("[caption id=" +:+ String dquote "a" +:+ String dquote
       "]photo[/caption] see [1] for more")
  = " for more".
Proof. vm_compute; reflexivity. Qed.

(** ** Reasoning about the state monad *)

Lemma bind_ok_inv {A B} (c : M A) (k : A → M B) s b s' :
  (c ≫= k) s = (Ok b, s') →
  ∃ a s1, c s = (Ok a, s1) ∧ k a s1 = (Ok b, s').
Proof.
  unfold mbind, M_bind, bind. destruct (c s) as [[a|e] s1]; [eauto|done].
Qed.

Lemma bind_inv {A B} (c : M A) (k : A → M B) s r s' :
  (c ≫= k) s = (r, s') →
  (∃ a s1, c s = (Ok a, s1) ∧ k a s1 = (r, s'))
  ∨ (∃ e, c s = (Raise e, s') ∧ r = Raise e).
Proof.
  unfold mbind, M_bind, bind. destruct (c s) as [[a|e] s1].
  - intros H. left. eauto.
  - intros [= <- <-]. right. eauto.
Qed.

Lemma for_each_cons {A} (body : A → M unit) x l :
  for_each body (x :: l) = (body x ≫= λ _, for_each body l).
Proof. reflexivity. Qed.

Section Preserves.
Context (R : relation State) `{!PreOrder R}.

Lemma preserves_ret {A} (a : A) : preserves R (ret a).
Proof. intros s r s' [= <- <-]. reflexivity. Qed.

Lemma preserves_raise {A} e : preserves R (raise (A:=A) e).
Proof. intros s r s' [= <- <-]. reflexivity. Qed.

Lemma preserves_gets {A} (f : State → A) : preserves R (gets f).
Proof. intros s r s' [= <- <-]. reflexivity. Qed.

Lemma preserves_modify f : (∀ s, R s (f s)) → preserves R (modify f).
Proof. intros H s r s' [= <- <-]. apply H. Qed.

Lemma preserves_lift {A} (r : Result A) : preserves R (lift r).
Proof. destruct r; [apply preserves_ret|apply preserves_raise]. Qed.

Lemma preserves_bind {A B} (c : M A) (k : A → M B) :
  preserves R c → (∀ a, preserves R (k a)) → preserves R (c ≫= k).
Proof.
  intros Hc Hk s r s'. unfold mbind, M_bind, bind.
  destruct (c s) as [[a|e] s1] eqn:E.
  - intros H. etrans; [by eapply Hc|by eapply Hk].
  - intros [= <- <-]. by eapply Hc.
Qed.

Lemma preserves_perform env e :
  (∀ s, R s (set_events (λ l, l ++ [e]) s)) → preserves R (perform env e).
Proof.
  intros H. unfold perform.
  apply preserves_bind; [apply preserves_gets|intros trace].
  apply preserves_bind; [by apply preserves_modify|intros _].
  destruct (raises env trace e); [apply preserves_raise|apply preserves_ret].
Qed.

Lemma preserves_for_each {A} (body : A → M unit) l :
  (∀ x, preserves R (body x)) → preserves R (for_each body l).
Proof.
  intros Hb. induction l as [|x l IH]; simpl.
  - apply preserves_ret.
  - apply preserves_bind; auto.
Qed.

(** A completed loop ran its body on each element, in a state reached by
    [R] and leaving a state from which the end is reached by [R]. *)
Lemma for_each_elem {A} (body : A → M unit) l x s s' :
  (∀ y, preserves R (body y)) →
  for_each body l s = (Ok tt, s') → x ∈ l →
  ∃ s1 s2, R s s1 ∧ body x s1 = (Ok tt, s2) ∧ R s2 s'.
Proof.
  intros Hb. revert s. induction l as [|y l IH]; intros s Hrun Hx.
  - by apply elem_of_nil in Hx.
  - rewrite for_each_cons in Hrun.
    apply bind_ok_inv in Hrun as ([] & s1 & Hy & Hrest).
    apply elem_of_cons in Hx as [->|Hx].
    + exists s, s1. split; [reflexivity|]. split; [done|].
      by eapply (preserves_for_each body l Hb).
    + destruct (IH _ Hrest Hx) as (sa & sb & ? & ? & ?).
      exists sa, sb. split; [|done]. etrans; [by eapply Hb|done].
Qed.
End Preserves.

#[local] Instance appends_preorder P : PreOrder (appends P).
Proof.
  split.
  - intros s. exists []. by rewrite app_nil_r.
  - intros s1 s2 s3 (n1 & E1 & F1) (n2 & E2 & F2). exists (n1 ++ n2).
    rewrite E2, E1, app_assoc. split; [done|]. by apply Forall_app.
Qed.

#[local] Instance keeps_keys_preorder {K V} `{EqDecision K}
  (f : State → list (K * V)) : PreOrder (keeps_keys f).
Proof.
  split.
  - intros s k ?. done.
  - intros s1 s2 s3 H1 H2 k ?. auto.
Qed.

#[local] Instance unchanged_preorder {A} (f : State → A) :
  PreOrder (unchanged f).
Proof.
  split.
  - intros s. reflexivity.
  - intros s1 s2 s3 H1 H2. unfold unchanged in *. congruence.
Qed.

#[local] Instance kept_preorder d : PreOrder (kept d).
Proof.
  split.
  - intros s. repeat split; reflexivity.
  - intros s1 s2 s3 (?&?&?) (?&?&?). repeat split; by etrans.
Qed.

Lemma appends_same P s s' : events s' = events s → appends P s s'.
Proof. intros E. exists []. by rewrite E, app_nil_r. Qed.

Lemma appends_emit P e s s' :
  P e → events s' = events s ++ [e] → appends P s s'.
Proof. intros ? E. exists [e]. split; [done|]. by constructor. Qed.

Lemma appends_impl (P Q : Event → Prop) s s' :
  (∀ e, P e → Q e) → appends P s s' → appends Q s s'.
Proof.
  intros H (new & ? & ?). exists new. split; [done|].
  by eapply Forall_impl.
Qed.

Lemma dict_get_set {K V} `{EqDecision K} (k k' : K) (v : V) d :
  Dict.get k' (Dict.set k v d)
  = if decide (k = k') then Some v else Dict.get k' d.
Proof.
  induction d as [|[k0 v0] d IH]; simpl.
  - by destruct (decide (k = k')).
  - destruct (decide (k0 = k)) as [->|Hne]; simpl.
    + by destruct (decide (k = k')).
    + rewrite IH. destruct (decide (k0 = k')) as [->|]; [|done].
      by rewrite decide_False.
Qed.

Lemma keeps_keys_same {K V} `{EqDecision K} (f : State → list (K * V)) s s' :
  f s' = f s → keeps_keys f s s'.
Proof. intros E k. by rewrite E. Qed.

Lemma keeps_keys_set {K V} `{EqDecision K} (f : State → list (K * V))
  s s' k v :
  f s' = Dict.set k v (f s) → keeps_keys f s s'.
Proof.
  intros E k' ?. rewrite E, dict_get_set. by destruct (decide (k = k')).
Qed.

Lemma kept_weaken d s s' : kept d s s' → kept None s s'.
Proof.
  intros (H & ? & ?). split; [|done]. eapply appends_impl; [|done].
  intros []; simpl; try done.
Qed.

(** One step of a proof that a command maintains a relation: peel the
    head of the command, leave the state updates to [step_side]. *)
Ltac step_side :=
  intros; unfold kept, unchanged;
  repeat match goal with |- _ ∧ _ => split end;
  first
    [ reflexivity
    | apply appends_same; reflexivity
    | eapply appends_emit; [|reflexivity]; simpl; done
    | apply keeps_keys_same; reflexivity
    | eapply keeps_keys_set; reflexivity
    | match goal with H : _ |- _ => apply H; simpl; done end ].

Ltac preserves_step :=
  lazymatch goal with
  | |- preserves _ (mbind _ _) => apply preserves_bind; [tc_solve| |intros ?]
  | |- preserves _ (ret _) => apply preserves_ret; tc_solve
  | |- preserves _ (raise _) => apply preserves_raise; tc_solve
  | |- preserves _ (gets _) => apply preserves_gets; tc_solve
  | |- preserves _ (modify _) => apply preserves_modify; step_side
  | |- preserves _ (emit _) => apply preserves_modify; step_side
  | |- preserves _ (log _ _) => apply preserves_modify; step_side
  | |- preserves _ (lift _) => apply preserves_lift; tc_solve
  | |- preserves _ (perform _ _) =>
      apply preserves_perform; [tc_solve|step_side]
  | |- preserves _ (write_attachments_info _ _ _) =>
      apply preserves_perform; [tc_solve|step_side]
  | |- preserves _ (match ?x with _ => _ end) => destruct x
  end.

Ltac preserves_auto := repeat (preserves_step; try assumption).

(** ** What a download maintains

    Downloads only log, create directories, write fetched files and enter
    keys in [links]; any preorder closed under these steps is maintained by
    [import_attachment]. *)

Section Downloads.
Context (env : Env) (o : Options).
Context (R : relation State) `{!PreOrder R}.
Hypothesis R_emit :
  ∀ s e, download_event e → R s (set_events (λ l, l ++ [e]) s).
Hypothesis R_links : ∀ s k v, R s (set_links (Dict.set k v) s).

Lemma download_url_content_to_file_preserves url dst_path :
  preserves R (download_url_content_to_file env o url dst_path).
Proof. unfold download_url_content_to_file. preserves_auto. Qed.

Lemma download_into_files_preserves url :
  preserves R (download_into_files env o url).
Proof.
  unfold download_into_files. preserves_auto.
  apply download_url_content_to_file_preserves.
Qed.

Lemma download_size_files_preserves source_path files :
  preserves R (download_size_files env o source_path files).
Proof.
  induction files as [|f rest IH]; simpl; preserves_auto.
  apply download_into_files_preserves.
Qed.

Lemma additional_sizes_loop_preserves loads ns source_path l :
  preserves R (additional_sizes_loop env o loads ns source_path l).
Proof.
  induction l as [|e rest IH]; simpl; preserves_auto.
  apply download_size_files_preserves.
Qed.

Lemma download_additional_image_sizes_preserves item ns source_path :
  preserves R (download_additional_image_sizes env o item ns source_path).
Proof.
  unfold download_additional_image_sizes. preserves_auto.
  apply additional_sizes_loop_preserves.
Qed.

Lemma import_attachment_preserves item ns :
  preserves R (import_attachment env o item ns).
Proof.
  unfold import_attachment. preserves_auto.
  - apply download_into_files_preserves.
  - apply download_additional_image_sizes_preserves.
Qed.
End Downloads.

(** ** What item processing maintains *)

Section Kept.
Context (env : Env) (o : Options).

Lemma preserves_kept_weaken {A} d (c : M A) :
  preserves (kept d) c → preserves (kept None) c.
Proof. intros H s r s' E. eapply kept_weaken, H, E. Qed.

Lemma category_loop_kept d item tags :
  preserves (kept d) (category_loop item tags).
Proof. unfold category_loop. preserves_auto. Qed.

Lemma write_translations_kept title slug out_folder status post_date excerpt
  post_format description categories content_translations tags :
  preserves (kept (Some post_date))
    (write_translations env o title slug out_folder status post_date excerpt
       post_format description categories content_translations tags).
Proof.
  revert tags.
  induction content_translations as [|[lang content] rest IH]; intros tags;
    simpl.
  - preserves_auto.
  - preserves_auto. apply IH.
Qed.

Lemma import_item_dated_kept item ns title link out_folder slug description
  dt post_date :
  preserves (kept (Some post_date))
    (import_item_dated env o item ns title link out_folder slug description
       dt post_date).
Proof.
  unfold import_item_dated. preserves_auto;
    first [apply category_loop_kept | apply write_translations_kept].
Qed.

Lemma import_item_kept item ns out_folder :
  preserves (kept None) (import_item env o item ns out_folder).
Proof.
  unfold import_item. preserves_auto.
  eapply preserves_kept_weaken, import_item_dated_kept.
Qed.

Lemma kept_emit d s e :
  download_event e → kept d s (set_events (λ l, l ++ [e]) s).
Proof. intros He. destruct e; try done; step_side. Qed.

Lemma kept_links d s k v : kept d s (set_links (Dict.set k v) s).
Proof. step_side. Qed.

Lemma download_additional_image_sizes_kept d item ns source_path :
  preserves (kept d)
    (download_additional_image_sizes env o item ns source_path).
Proof.
  apply download_additional_image_sizes_preserves;
    [tc_solve|apply kept_emit|apply kept_links].
Qed.

Lemma import_attachment_kept d item ns :
  preserves (kept d) (import_attachment env o item ns).
Proof.
  apply import_attachment_preserves;
    [tc_solve|apply kept_emit|apply kept_links].
Qed.

Lemma to_int_kept d t : preserves (kept d) (to_int env t).
Proof. unfold to_int. preserves_auto. Qed.

Lemma process_item_kept ns item :
  preserves (kept None) (process_item env o ns item).
Proof.
  unfold process_item. preserves_auto;
    first [apply to_int_kept | apply import_attachment_kept
          | apply import_item_kept].
Qed.

End Kept.

(** ** import_item *)

(** The category loop, one element at a time: what is skipped, where the
    text of the others goes, and what the [categories] list receives. *)
Lemma category_step_cases a tag :
  (category_skipped tag = true → category_step a tag = a)
  ∧ (category_skipped tag = false →
     acc_all_tags (category_step a tag) = {[ text tag ]} ∪ acc_all_tags a
     ∧ (category_type tag = "category" →
        acc_tags (category_step a tag) = acc_tags a
        ∧ acc_categories (category_step a tag)
          = acc_categories a ++ ["category"])
     ∧ (category_type tag ≠ "category" →
        acc_tags (category_step a tag) = acc_tags a ++ [text tag]
        ∧ acc_categories (category_step a tag) = acc_categories a)).
Proof.
  unfold category_step. split; intros ->; [done|].
  case_bool_decide as Ht; simpl; repeat split; try done.
  all: intros; rewrite ?Ht; done.
Qed.

(** C5: an element of the 'category' domain adds the literal domain name
    to the categories list, not its text; the text only reaches the tag
    set.  A tag element and the default category behave as described. *)
Theorem category_loop_appends_domain_name :
  let item :=
    Sample.entry "post" "7" "http://foo.com/2012/09/01/hello-world/"
      "publish" "2012-09-01 10:00:00" "Some text"
      [Sample.category "category" "news";
       Sample.category "post_tag" "rocq";
       Sample.category "category" "Uncategorized"] in
  let acc :=
    collect_categories item
      {| acc_all_tags := ∅; acc_tags := []; acc_categories := [] |} in
  acc_categories acc = ["category"]
  ∧ acc_tags acc = [Some "rocq"]
  ∧ elements (acc_all_tags acc) = [Some "news"; Some "rocq"].
Proof. vm_compute. done. Qed.

(** C1: an item whose post format no transformer supports is reported as
    failed, yet its link has been entered in the URL map before the
    transformation was tried. *)
Theorem import_item_failed_transform_keeps_entry :
  let link := "http://foo.com/2012/09/02/plain/" in
  let item :=
    Sample.entry "post" "8" link "publish" "2012-09-02 10:00:00"
      "Some text" [Sample.postmeta "_tc_post_format" "rest"] in
  let run :=
    import_item Sample.env Sample.options item Sample.wp "posts"
      Sample.empty_state in
  run.1 = Ok None
  ∧ Dict.get link (url_map run.2)
    = Some "http://foo.com/posts/2012/09/02/plain.html"
  ∧ events run.2 = [Log Error (CannotInterpretPost (Some "rest"))].
Proof. vm_compute. done. Qed.

(** C7: when the publish date does not parse, [import_item] logs the
    error and goes on exactly as for an item dated 1970-01-01 00:00:00:
    the rest of the processing runs, and every metadata file it writes
    carries that date. *)
Theorem import_item_malformed_date env o item ns folder link out_folder slug
  (s : State) :
  get_text_tag (Some item) "link" None = Some link →
  derive_slug env o item ns link folder = Some (out_folder, slug) →
  to_datetime env (get_text_tag (Some item) (qname ns "post_date") None)
  = None →
  let title := get_text_tag_str (Some item) "title" "NO TITLE" in
  let description := get_text_tag_str (Some item) "description" "" in
  let logged :=
    Log Error
      (MalformedDate (get_text_tag (Some item) (qname ns "post_date") None)
         title slug) in
  import_item env o item ns folder s
  = import_item_dated env o item ns title link out_folder slug description
      epoch (Some "1970-01-01 00:00:00")
      (set_events (λ l, l ++ [logged]) s)
  ∧ ∃ new,
      events (import_item env o item ns folder s).2
      = events s ++ logged :: new
      ∧ Forall (dated (Some "1970-01-01 00:00:00")) new.
Proof.
  intros Hlink Hslug Hdate title description logged.
  assert (import_item env o item ns folder s
          = import_item_dated env o item ns title link out_folder slug
              description epoch (Some "1970-01-01 00:00:00")
              (set_events (λ l, l ++ [logged]) s)) as Heq.
  { unfold import_item. rewrite Hlink, Hslug, Hdate. reflexivity. }
  split; [done|]. rewrite Heq.
  destruct (import_item_dated env o item ns title link out_folder slug
              description epoch (Some "1970-01-01 00:00:00")
              (set_events (λ l, l ++ [logged]) s)) as [r s'] eqn:E.
  apply import_item_dated_kept in E as ((new & Hev & Hall) & _).
  exists new. simpl in *. rewrite Hev, <- app_assoc. split; [done|].
  eapply Forall_impl; [done|]. intros []; simpl; done.
Qed.

Lemma import_item_malformed_date_witness :
  let item :=
    Sample.entry "post" "8" "http://foo.com/2012/09/02/undated/"
      "publish" "not-a-date" "Some text" [] in
  ∃ new,
    events (import_item Sample.env Sample.options item Sample.wp "posts"
              Sample.empty_state).2
    = Log Error (MalformedDate (Some "not-a-date") "Hello" "undated") :: new
    ∧ Forall (dated (Some "1970-01-01 00:00:00")) new.
Proof.
  apply (import_item_malformed_date Sample.env Sample.options
           (Sample.entry "post" "8" "http://foo.com/2012/09/02/undated/"
              "publish" "not-a-date" "Some text" [])
           Sample.wp "posts" "http://foo.com/2012/09/02/undated/"
           "posts/2012/09/02" "undated" Sample.empty_state);
    reflexivity.
Defined.

Section Registered.
Context (env : Env) (o : Options).

Lemma write_translations_url_map title slug out_folder status post_date
  excerpt post_format description categories content_translations tags :
  preserves (unchanged url_map)
    (write_translations env o title slug out_folder status post_date excerpt
       post_format description categories content_translations tags).
Proof.
  revert tags.
  induction content_translations as [|[lang content] rest IH]; intros tags;
    simpl; preserves_auto. apply IH.
Qed.

Lemma log_then_none_fails {A} level msg (a : A) s s' :
  (log level msg ≫= λ _, ret None) s ≠ (Ok (Some a), s').
Proof. intros [= ]. Qed.

(** The invariant of the URL map: an item that [import_item] reports as
    imported has its link in the map. *)
Lemma import_item_success_registers item ns folder s out_folder slug s' :
  import_item env o item ns folder s = (Ok (Some (out_folder, slug)), s') →
  ∃ link, get_text_tag (Some item) "link" None = Some link
          ∧ is_Some (Dict.get link (url_map s')).
Proof.
  unfold import_item.
  destruct (get_text_tag (Some item) "link" None) as [link|]; [|done].
  destruct (derive_slug env o item ns link folder) as [[f sl]|];
    [|by intros ?%log_then_none_fails].
  intros Hrun. exists link. split; [done|].
  apply bind_ok_inv in Hrun as ([dt post_date] & s1 & _ & Hrun).
  unfold import_item_dated in Hrun.
  apply bind_ok_inv in Hrun as (tz & s2 & _ & Hrun).
  apply bind_ok_inv in Hrun as ([] & s3 & _ & Hrun).
  case_bool_decide; [by apply log_then_none_fails in Hrun|].
  destruct (if bool_decide _ then _ else _) as [[tags is_draft] is_private].
  apply bind_ok_inv in Hrun as ([tags' categories] & s4 & _ & Hrun).
  destruct (find_post_format item ns) as [post_format|]; [|done].
  destruct (is_draft && exclude_drafts o);
    [by apply log_then_none_fails in Hrun|].
  destruct (is_private && exclude_privates o);
    [by apply log_then_none_fails in Hrun|].
  destruct (negb _ || import_empty_items o);
    [|by apply log_then_none_fails in Hrun].
  apply bind_ok_inv in Hrun as ([] & s5 & [= <-] & Hrun).
  apply bind_ok_inv in Hrun as (written & s6 & Hwr & Hrun).
  apply write_translations_url_map in Hwr. unfold unchanged in Hwr.
  destruct written; inversion Hrun; subst.
  rewrite Hwr. simpl. rewrite dict_get_set, decide_True by done. eauto.
Qed.

End Registered.

(** ** Paths below the [files] folder *)

Lemma append_cons c (a b : string) : String c a +:+ b = String c (a +:+ b).
Proof. reflexivity. Qed.

Lemma append_empty_r (a : string) : a +:+ EmptyString = a.
Proof.
  induction a as [|x a IH]; [done|]. by rewrite append_cons, IH.
Qed.

Lemma append_assoc_s (a b c : string) : (a +:+ b) +:+ c = a +:+ b +:+ c.
Proof.
  induction a as [|x a IH]; [done|]. by rewrite !append_cons, IH.
Qed.

Lemma startswith_app p x : PyStr.startswith (p +:+ x) p = true.
Proof.
  induction p as [|c p IH]; [done|].
  rewrite append_cons. simpl. by rewrite Ascii.eqb_refl.
Qed.

Lemma mem_rev_onto c s acc :
  PyStr.mem c (PyStr.rev_onto s acc) = PyStr.mem c s || PyStr.mem c acc.
Proof.
  revert acc. induction s as [|a s IH]; intros acc; simpl; [done|].
  rewrite IH. simpl.
  by destruct (Ascii.eqb a c), (PyStr.mem c s), (PyStr.mem c acc).
Qed.

Lemma split_go_no_sep s cur :
  PyStr.mem "/" cur = false →
  Forall (λ x, PyStr.mem "/" x = false) (PyStr.split_go "/" s 0 cur).
Proof.
  revert cur. induction s as [|c s IH]; intros cur Hcur; simpl.
  - constructor; [|done]. unfold PyStr.rev. by rewrite mem_rev_onto, Hcur.
  - destruct (Ascii.eqb_spec "/"%char c) as [<-|Hne].
    + constructor; [|by apply IH].
      unfold PyStr.rev. by rewrite mem_rev_onto, Hcur.
    + apply IH. simpl. rewrite Hcur, orb_false_r.
      destruct (Ascii.eqb_spec c "/"%char) as [->|]; done.
Qed.

Lemma no_sep_not_absolute x :
  PyStr.mem "/" x = false → PyStr.startswith x "/" = false.
Proof.
  destruct x as [|c x]; simpl; [done|].
  destruct (Ascii.eqb_spec c "/"%char) as [->|Hne]; [done|]. intros _.
  destruct (Ascii.eqb_spec "/"%char c) as [<-|]; done.
Qed.

Lemma join2_extends p x :
  PyStr.startswith x "/" = false → ∃ r, PosixPath.join2 p x = p +:+ r.
Proof.
  intros H. unfold PosixPath.join2. rewrite H.
  destruct (_ || _); eauto.
Qed.

Lemma join_extends p l :
  Forall (λ x, PyStr.mem "/" x = false) l →
  ∃ r, PosixPath.join p l = p +:+ r.
Proof.
  unfold PosixPath.join. revert p.
  induction l as [|x l IH]; intros p Hl; simpl.
  - exists EmptyString. by rewrite append_empty_r.
  - apply Forall_cons in Hl as [Hx Hl].
    destruct (join2_extends p x (no_sep_not_absolute x Hx)) as [r1 ->].
    destruct (IH (p +:+ r1) Hl) as [r2 ->].
    exists (r1 +:+ r2). apply append_assoc_s.
Qed.

(** The destination of a download lies below [<output_folder>/files]. *)
Lemma files_path_below_files (o : Options) path :
  PyStr.startswith
    (PosixPath.join (output_folder o) ("files" :: PyStr.split "/" path))
    (PosixPath.join (output_folder o) ["files"]) = true.
Proof.
  change (PosixPath.join (output_folder o) ("files" :: PyStr.split "/" path))
    with (PosixPath.join (PosixPath.join (output_folder o) ["files"])
            (PyStr.split "/" path)).
  destruct (join_extends (PosixPath.join (output_folder o) ["files"])
              (PyStr.split "/" path)) as [r ->].
  - by apply split_go_no_sep.
  - apply startswith_app.
Qed.

(** *** Joining and splitting paths *)

Lemma rev_onto_nonempty s acc :
  PyStr.is_empty acc = false →
  PyStr.is_empty (PyStr.rev_onto s acc) = false.
Proof.
  revert acc. induction s as [|c s IH]; intros acc; simpl; [done|].
  intros _. by apply IH.
Qed.

Lemma rev_onto_append s acc x :
  PyStr.rev_onto s acc +:+ x = PyStr.rev_onto s (acc +:+ x).
Proof.
  revert acc. induction s as [|c s IH]; intros acc; simpl; [done|].
  by rewrite IH, append_cons.
Qed.

Lemma rev_onto_app s x acc :
  PyStr.rev_onto (s +:+ x) acc = PyStr.rev_onto x (PyStr.rev_onto s acc).
Proof.
  revert acc. induction s as [|c s IH]; intros acc; [done|].
  rewrite append_cons. simpl. apply IH.
Qed.

Lemma endswith_app s x : PyStr.endswith (s +:+ x) x = true.
Proof.
  unfold PyStr.endswith, PyStr.rev. rewrite rev_onto_app.
  replace (PyStr.rev_onto x (PyStr.rev_onto s EmptyString))
    with (PyStr.rev_onto x EmptyString +:+ PyStr.rev_onto s EmptyString)
    by apply rev_onto_append.
  apply startswith_app.
Qed.

Lemma rev_rev s : PyStr.rev (PyStr.rev s) = s.
Proof. unfold PyStr.rev. by rewrite rev_rev_onto. Qed.

Lemma split_go_segment x rest cur :
  PyStr.mem "/" x = false →
  PyStr.split_go "/" (x +:+ rest) 0 cur
  = PyStr.split_go "/" rest 0 (PyStr.rev_onto x cur).
Proof.
  revert cur. induction x as [|c x IH]; intros cur; [done|].
  intros [Hc Hx]%orb_false_elim. rewrite append_cons. simpl.
  rewrite Ascii.eqb_sym in Hc. rewrite Hc. by apply IH.
Qed.

Lemma split_go_join x l cur :
  PyStr.mem "/" x = false →
  Forall (λ y, PyStr.mem "/" y = false) l →
  PyStr.split_go "/" (PyStr.join "/" (x :: l)) 0 cur
  = PyStr.rev (PyStr.rev_onto x cur) :: l.
Proof.
  intros Hx Hl. revert x cur Hx.
  induction Hl as [|y l Hy Hl IH]; intros x cur Hx.
  - simpl. rewrite <- (append_empty_r x) at 1.
    by rewrite split_go_segment.
  - change (PyStr.join "/" (x :: y :: l))
      with (x +:+ "/" +:+ PyStr.join "/" (y :: l)).
    rewrite split_go_segment by done.
    change ("/" +:+ PyStr.join "/" (y :: l))
      with (String "/" (PyStr.join "/" (y :: l))).
    cbn [PyStr.split_go PyStr.startswith]. rewrite Ascii.eqb_refl.
    change (PyStr.len "/" - 1) with 0. rewrite IH by done.
    f_equal. f_equal.
    change (PyStr.rev (PyStr.rev_onto y "")) with (PyStr.rev (PyStr.rev y)).
    apply rev_rev.
Qed.

Lemma split_join x l :
  PyStr.mem "/" x = false →
  Forall (λ y, PyStr.mem "/" y = false) l →
  PyStr.split "/" (PyStr.join "/" (x :: l)) = x :: l.
Proof.
  intros Hx Hl. unfold PyStr.split. rewrite split_go_join by done.
  f_equal. apply rev_rev.
Qed.

Lemma rev_onto_segment x acc :
  segment x → ∃ c r, PyStr.rev_onto x acc = String c r
                     ∧ Ascii.eqb "/" c = false.
Proof.
  intros [Hmem Hne].
  assert (PyStr.mem "/" (PyStr.rev_onto x EmptyString) = false) as Hrev.
  { by rewrite mem_rev_onto, Hmem. }
  assert (PyStr.rev_onto x acc = PyStr.rev_onto x EmptyString +:+ acc)
    as -> by by rewrite rev_onto_append.
  destruct x as [|a x]; [done|].
  destruct (PyStr.rev_onto (String a x) EmptyString) as [|c r] eqn:E.
  - pose proof (rev_onto_nonempty x (String a EmptyString) eq_refl) as H.
    simpl in E. by rewrite E in H.
  - exists c, (r +:+ acc). split; [done|].
    simpl in Hrev. apply orb_false_elim in Hrev as [Hc _].
    by rewrite Ascii.eqb_sym.
Qed.

Lemma endswith_segment a x : segment x → PyStr.endswith (a +:+ x) "/" = false.
Proof.
  intros Hx. unfold PyStr.endswith, PyStr.rev. rewrite rev_onto_app.
  destruct (rev_onto_segment x (PyStr.rev_onto a EmptyString) Hx)
    as (c & r & -> & Hc).
  simpl. by rewrite Hc.
Qed.

Lemma segment_relative x : segment x → PyStr.startswith x "/" = false.
Proof. intros [? _]. by apply no_sep_not_absolute. Qed.

Lemma join2_segment acc x :
  PyStr.is_empty acc = false → PyStr.endswith acc "/" = false →
  segment x → PosixPath.join2 acc x = acc +:+ "/" +:+ x.
Proof.
  intros Hne Hend Hx. unfold PosixPath.join2.
  by rewrite (segment_relative x Hx), Hne, Hend.
Qed.

Lemma append_nonempty a x :
  PyStr.is_empty x = false → PyStr.is_empty (a +:+ x) = false.
Proof. destruct a; [done|by rewrite append_cons]. Qed.

Lemma join_segments acc l :
  PyStr.is_empty acc = false → PyStr.endswith acc "/" = false →
  Forall segment l →
  PosixPath.join acc l = acc +:+ slashed l.
Proof.
  unfold PosixPath.join. intros Hne Hend Hl. revert acc Hne Hend.
  induction Hl as [|x l Hx Hl IH]; intros acc Hne Hend; simpl.
  - by rewrite append_empty_r.
  - rewrite join2_segment by done.
    rewrite <- append_assoc_s, IH.
    + by rewrite !append_assoc_s.
    + apply append_nonempty, Hx.
    + by apply endswith_segment.
Qed.

Lemma join_slashed x l : PyStr.join "/" (x :: l) = x +:+ slashed l.
Proof.
  revert x. induction l as [|y l IH]; intros x.
  - simpl. by rewrite append_empty_r.
  - change (PyStr.join "/" (x :: y :: l))
      with (x +:+ "/" +:+ PyStr.join "/" (y :: l)).
    by rewrite IH.
Qed.

Lemma segment_files : segment "files".
Proof. by split. Qed.


(** ** Attachments *)

Lemma dict_get_keys {K V} `{EqDecision K} (k : K) (d : list (K * V)) :
  k ∈ Dict.keys d → is_Some (Dict.get k d).
Proof.
  unfold Dict.keys. induction d as [|[k0 v0] d IH]; simpl.
  - by intros ?%elem_of_nil.
  - intros [->|?]%elem_of_cons.
    + rewrite decide_True by done. eauto.
    + destruct (decide (k0 = k)); eauto.
Qed.

Lemma dict_keys_get {K V} `{EqDecision K} (k : K) (d : list (K * V)) :
  is_Some (Dict.get k d) → k ∈ Dict.keys d.
Proof.
  unfold Dict.keys. induction d as [|[k0 v0] d IH]; simpl.
  - by intros [? ?].
  - destruct (decide (k0 = k)) as [->|]; intros ?.
    + apply elem_of_cons. by left.
    + apply elem_of_cons. right. auto.
Qed.

(** A call that returned has been recorded, and nothing else changed. *)
Lemma perform_ok_inv env e s s' :
  perform env e s = (Ok tt, s') → s' = set_events (λ l, l ++ [e]) s.
Proof.
  unfold perform, mbind, M_bind, bind, gets, emit, modify, ret, raise.
  simpl. destruct (raises env (events s) e); [done|]. by intros [= <-].
Qed.

Lemma lift_ok_inv {A} (r : Result A) a s s' :
  lift r s = (Ok a, s') → r = Ok a ∧ s' = s.
Proof. destruct r; intros [= <- <-]; done. Qed.

Section Attachments.
Context (env : Env) (o : Options).

Lemma download_url_content_to_file_ok url dst_path s s' :
  download_url_content_to_file env o url dst_path s = (Ok tt, s') →
  events s' = events s ++ fetch_events env o url dst_path
  ∧ links s' = links s.
Proof.
  unfold download_url_content_to_file, fetch_events.
  destruct (no_downloads o).
  { intros [= <-]. by rewrite app_nil_r. }
  destruct (requests_get env url (auth o)) as [code c|err|exn];
    [destruct (400 <=? code)%Z|..].
  - intros [= <-]. done.
  - intros ->%perform_ok_inv. done.
  - intros [= <-]. done.
  - done.
Qed.

Lemma download_into_files_ok url s path dst_url s' :
  download_into_files env o url s = (Ok (path, dst_url), s') →
  path = urlparse_path env url
  ∧ events s' = events s ++ download_events env o url
  ∧ links s' = links s.
Proof.
  unfold download_into_files. intros Hrun.
  apply bind_ok_inv in Hrun as ([] & s1 & ->%perform_ok_inv & Hrun).
  apply bind_ok_inv in Hrun as ([] & s2 & [= <-] & Hrun).
  apply bind_ok_inv in Hrun as ([] & s3 & Hdl & [= <- _ <-]).
  apply download_url_content_to_file_ok in Hdl as [Hev Hl].
  split; [done|]. rewrite Hev, Hl. simpl.
  unfold download_events, download_destination.
  by rewrite <- !app_assoc.
Qed.

Lemma download_size_files_ok source_path files s paths s' :
  download_size_files env o source_path files s = (Ok paths, s') →
  paths = urlparse_path env <$> size_urls source_path files
  ∧ events s'
    = events s
      ++ concat (download_events env o <$> size_urls source_path files).
Proof.
  revert s paths. induction files as [|f rest IH]; intros s paths; simpl.
  - intros [= <- <-]. by rewrite app_nil_r.
  - intros Hrun.
    apply bind_ok_inv in Hrun as ([path dst_url] & s1 & Hdl & Hrun).
    apply download_into_files_ok in Hdl as (-> & Hev1 & _).
    apply bind_ok_inv in Hrun as ([] & s2 & [= <-] & Hrun).
    apply bind_ok_inv in Hrun as (result & s3 & Hrest & [= <- <-]).
    apply IH in Hrest as [-> Hev]. split; [done|].
    rewrite Hev. simpl. by rewrite Hev1, <- app_assoc.
Qed.

Lemma additional_sizes_loop_ok loads ns source_path l s paths s' :
  additional_sizes_loop env o loads ns source_path l s = (Ok paths, s') →
  let files := flat_map (element_size_files loads ns) l in
  paths = urlparse_path env <$> size_urls source_path files
  ∧ events s'
    = events s
      ++ concat (download_events env o <$> size_urls source_path files).
Proof.
  revert s paths. induction l as [|element rest IH]; intros s paths; simpl.
  - intros [= <- <-]. by rewrite app_nil_r.
  - intros Hrun.
    apply bind_ok_inv in Hrun as (here & s1 & Hhere & Hrun).
    apply bind_ok_inv in Hrun as (result & s2 & Hrest & [= <- <-]).
    apply IH in Hrest as [-> Hev].
    unfold size_urls in *. rewrite !fmap_app, concat_app, Hev.
    assert (here = urlparse_path env
                   <$> ((λ filename, PyStr.join "/" [source_path; filename])
                        <$> element_size_files loads ns element)
            ∧ events s1
              = events s
                ++ concat (download_events env o
                           <$> ((λ filename,
                                   PyStr.join "/" [source_path; filename])
                                <$> element_size_files loads ns element)))
      as [-> ->].
    { unfold element_size_files.
      case_bool_decide as Hkey;
        [|injection Hhere as <- <-; by rewrite app_nil_r].
      destruct (find (qname ns "meta_value") element) as [meta_value|];
        [|injection Hhere as <- <-; by rewrite app_nil_r].
      destruct (text meta_value) as [t|]; [|done].
      destruct (loads t) as [exn| |files]; [done| |].
      - injection Hhere as <- <-. by rewrite app_nil_r.
      - by apply download_size_files_ok in Hhere. }
    by rewrite <- app_assoc.
Qed.

Lemma import_attachment_ok item ns s files s' :
  import_attachment env o item ns s = (Ok files, s') →
  let url :=
    get_text_tag_str (Some item) (qname ns "attachment_url") "foo" in
  let link := get_text_tag_str (Some item) (qname ns "link") "foo" in
  files = urlparse_path env <$> attachment_urls env ns item
  ∧ events s' = events s ++ attachment_events env o ns item
  ∧ is_Some (Dict.get url (links s')) ∧ is_Some (Dict.get link (links s')).
Proof.
  intros Hrun url link. unfold import_attachment in Hrun.
  fold url link in Hrun.
  apply bind_ok_inv in Hrun as ([path dst_url] & s1 & Hdl & Hrun).
  apply download_into_files_ok in Hdl as (-> & Hev1 & Hl1).
  apply bind_ok_inv in Hrun as ([] & s2 & [= <-] & Hrun).
  apply bind_ok_inv in Hrun as ([] & s3 & [= <-] & Hrun).
  apply bind_ok_inv in Hrun as (more & s4 & Hmore & [= <- <-]).
  pose proof (download_additional_image_sizes_kept env o None _ _ _ _ _ _
                Hmore) as (_ & Hkeys & _).
  assert (more = urlparse_path env
                 <$> size_urls (PosixPath.dirname url)
                       (size_files env ns item)
          ∧ events s4
            = events s1
              ++ concat (download_events env o
                         <$> size_urls (PosixPath.dirname url)
                               (size_files env ns item))) as [-> Hev2].
  { unfold download_additional_image_sizes, size_files in *.
    destruct (phpserialize env) as [loads|].
    - by apply additional_sizes_loop_ok in Hmore.
    - injection Hmore as <- <-. simpl. by rewrite app_nil_r. }
  unfold attachment_events, attachment_urls. fold url. split; [done|].
  split; [rewrite Hev2, Hev1; simpl; by rewrite <- app_assoc|].
  split.
  - apply Hkeys. simpl. rewrite dict_get_set, decide_True by done. eauto.
  - apply Hkeys. simpl. rewrite !dict_get_set.
    destruct (decide (url = link)); [eauto|].
    rewrite decide_True by done. eauto.
Qed.

(** [process_item] on an attachment, when it returns. *)
Lemma process_item_attachment ns item s s' :
  get_text_tag_str (Some item) (qname ns "post_type") "post" = "attachment" →
  process_item env o ns item s = (Ok tt, s') →
  let url :=
    get_text_tag_str (Some item) (qname ns "attachment_url") "foo" in
  let link := get_text_tag_str (Some item) (qname ns "link") "foo" in
  ∃ post_id,
    py_int env (get_text_tag_str (Some item) (qname ns "post_id") "0")
    = Some post_id
    ∧ events s' = events s ++ attachment_item_events env o ns item post_id
    ∧ is_Some (Dict.get url (links s')) ∧ is_Some (Dict.get link (links s'))
    ∧ match get_text_tag (Some item) (qname ns "post_parent") None with
      | None => True
      | Some p =>
          ∃ parent, py_int env p = Some parent
                    ∧ is_Some (Dict.get parent (attachments s'))
      end.
Proof.
  intros Htype Hrun url link. unfold process_item in Hrun.
  rewrite Htype in Hrun.
  apply bind_ok_inv in Hrun as (post_id & s1 & Hid & Hrun).
  unfold to_int in Hid.
  destruct (py_int env _) as [n|] eqn:Hn; [|done].
  injection Hid as <- <-. exists n. split; [done|].
  rewrite bool_decide_eq_true_2 in Hrun by done.
  apply bind_ok_inv in Hrun as (files & s2 & Hatt & Hrun).
  apply import_attachment_ok in Hatt as (-> & Hev & Hu & Hl).
  fold url link in Hu, Hl. unfold attachment_item_events.
  destruct (get_text_tag (Some item) (qname ns "post_parent") None)
    as [p|] eqn:Hp.
  - apply bind_ok_inv in Hrun as (parent & s3 & Hpar & [= <-]).
    unfold to_int in Hpar. destruct (py_int env p) as [pid|] eqn:Hpid;
      inversion Hpar; subst. simpl.
    rewrite app_nil_r. split; [done|]. split; [done|]. split; [done|].
    exists parent. split; [done|].
    rewrite dict_get_set, decide_True by done. eauto.
  - injection Hrun as <-. simpl.
    split; [by rewrite Hev, <- app_assoc|]. done.
Qed.

(** The second loop of [import_posts], when it returns: one sidecar per
    recorded parent, one warning per parent that was not recorded, nothing
    else. *)
Lemma assign_attachments_loop keys s s' :
  for_each (assign_attachments env o) keys s = (Ok tt, s') →
  (∀ k, k ∈ keys → is_Some (Dict.get k (attachments s))) →
  posts_pages s' = posts_pages s
  ∧ attachments s' = attachments s ∧ links s' = links s
  ∧ ∃ n, events s' = events s ++ n
         ∧ Forall report_event n
         ∧ Forall (sidecar_of_recorded o (posts_pages s) (attachments s)) n
         ∧ ∀ k, k ∈ keys → Dict.get k (posts_pages s) = None →
                ∃ files, Log Warn (AttachmentsWithoutPost k files) ∈ n.
Proof.
  revert s. induction keys as [|k keys IH]; intros s Hrun Hkeys.
  - inversion Hrun; subst. repeat split; try done. exists [].
    rewrite app_nil_r. repeat split; try done. by intros k ?%elem_of_nil.
  - rewrite for_each_cons in Hrun.
    apply bind_ok_inv in Hrun as ([] & s1 & Hk & Hrun).
    assert (∃ e, s1 = set_events (λ l, l ++ [e]) s
                 ∧ report_event e
                 ∧ sidecar_of_recorded o (posts_pages s) (attachments s) e
                 ∧ (Dict.get k (posts_pages s) = None →
                    ∃ files, e = Log Warn (AttachmentsWithoutPost k files)))
      as (e & -> & Hrep & He & Hwarn).
    { unfold assign_attachments in Hk.
      apply bind_ok_inv in Hk as (atts & sa & [= <- <-] & Hk).
      apply bind_ok_inv in Hk as (pp & sb & [= <- <-] & Hk).
      destruct (Hkeys k) as [info Hinfo]; [apply elem_of_cons; by left|].
      destruct (Dict.get k (posts_pages s)) as [[[pt f] sl]|] eqn:Hpp.
      - apply perform_ok_inv in Hk as ->. eexists. split; [done|].
        split; [done|]. split; [|done]. simpl. exists k, pt, f, sl.
        rewrite Hinfo. done.
      - injection Hk as <-. eexists. split; [done|]. split; [done|].
        split; [done|]. eauto. }
    apply IH in Hrun as (Hpp & Hat & Hl & n & Hev & Hrepn & Hall & Hw).
    2:{ intros k' ?. simpl. apply Hkeys, elem_of_cons. by right. }
    simpl in *. repeat split; try done.
    exists (e :: n). rewrite Hev, <- app_assoc. split; [done|].
    split; [by constructor|]. split; [by constructor|].
    intros k' [->|Hk']%elem_of_cons Hnone.
    + destruct (Hwarn Hnone) as [files ->]. exists files.
      apply elem_of_cons. by left.
    + destruct (Hw k' Hk' Hnone) as [files ?]. exists files.
      apply elem_of_cons. by right.
Qed.

End Attachments.

(** *** Where a download goes *)

Lemma plain_segments_segments l : Forall plain_segment l → Forall segment l.
Proof. intros H. eapply Forall_impl; [done|]. by intros x [? _]. Qed.

Lemma segments_no_sep l :
  Forall segment l → Forall (λ y, PyStr.mem "/" y = false) l.
Proof. intros H. eapply Forall_impl; [done|]. by intros x [? _]. Qed.

(** For a URL whose path is made of components, the file goes to the
    folder [files] of the output folder, followed by these components. *)
Lemma download_destination_slashed env o url parts :
  parts ≠ [] → Forall segment parts →
  urlparse_path env url = url_path parts →
  download_destination env o url
  = PosixPath.join (output_folder o) ["files"] +:+ slashed parts.
Proof.
  intros Hne Hparts Hpath. destruct parts as [|p parts]; [done|].
  apply Forall_cons in Hparts as [Hp Hparts].
  unfold download_destination. rewrite Hpath.
  change (url_path (p :: parts)) with (PyStr.join "/" ("" :: p :: parts)).
  rewrite split_join;
    [|done|constructor; [apply Hp|by apply segments_no_sep]].
  set (A := PosixPath.join (output_folder o) ["files"]).
  change (PosixPath.join (output_folder o) ("files" :: "" :: p :: parts))
    with (PosixPath.join (PosixPath.join2 (PosixPath.join2 A "") p) parts).
  assert (∃ a, A = a +:+ "files") as [a HA].
  { unfold A, PosixPath.join. simpl. unfold PosixPath.join2. simpl.
    destruct (_ || _); [by eexists|].
    exists (output_folder o +:+ "/"). by rewrite append_assoc_s. }
  assert (PosixPath.join2 A "" = A +:+ "/") as ->.
  { unfold PosixPath.join2. simpl PyStr.startswith. cbv iota.
    rewrite HA, append_nonempty, endswith_segment by apply segment_files.
    simpl. by rewrite !append_assoc_s, ?append_empty_r. }
  assert (PosixPath.join2 (A +:+ "/") p = (A +:+ "/") +:+ p) as ->.
  { unfold PosixPath.join2.
    by rewrite (segment_relative p Hp), endswith_app, orb_true_r. }
  rewrite join_segments; [|by apply append_nonempty, Hp
                          |by apply endswith_segment|done].
  simpl slashed. by rewrite !append_assoc_s.
Qed.

Lemma download_destination_inside env o url parts :
  parts ≠ [] → Forall plain_segment parts →
  urlparse_path env url = url_path parts →
  inside (PosixPath.join (output_folder o) ["files"])
    (download_destination env o url).
Proof.
  intros Hne Hparts Hpath. exists parts. split; [done|]. split; [done|].
  apply download_destination_slashed; [done| |done].
  by apply plain_segments_segments.
Qed.

Section Orphans.
Context (env : Env) (o : Options).

Lemma process_item_attachment_url_map ns item :
  get_text_tag_str (Some item) (qname ns "post_type") "post" = "attachment" →
  preserves (unchanged url_map) (process_item env o ns item).
Proof.
  intros Htype. unfold process_item, to_int. rewrite Htype.
  rewrite bool_decide_eq_true_2 by done. preserves_auto.
  apply import_attachment_preserves; [tc_solve|done..].
Qed.

(** C8, as the code has it.  For an attachment of an import that
    completes: its file goes to the output folder's [files] followed by
    the components of the URL path, joined as they are, which is inside
    that folder when the components are plain; the attachment is entered
    in [links], never in the URL map; what is done for it is exactly the
    creation of the directory, the download notice and the outcome of the
    fetch (the file written only when downloads are enabled and the reply
    is below 400), the same for each additional size, and then, without a
    parent, the warning; with a parent that was not recorded as a post or
    page, the warning comes in the reports at the end of the import; and
    these reports hold sidecars of recorded posts and pages only. *)
Theorem orphan_attachment_dropped ns channel item (s s' : State) :
  import_posts env o ns channel s = (Ok tt, s') →
  item ∈ findall "item" channel →
  get_text_tag_str (Some item) (qname ns "post_type") "post" = "attachment" →
  let url :=
    get_text_tag_str (Some item) (qname ns "attachment_url") "foo" in
  let link := get_text_tag_str (Some item) (qname ns "link") "foo" in
  (∀ parts, parts ≠ [] → Forall plain_segment parts →
            urlparse_path env url = url_path parts →
            inside (PosixPath.join (output_folder o) ["files"])
              (download_destination env o url))
  ∧ (∀ t r t', process_item env o ns item t = (r, t') →
               url_map t' = url_map t)
  ∧ is_Some (Dict.get url (links s')) ∧ is_Some (Dict.get link (links s'))
  ∧ ∃ post_id before rest reports,
      py_int env (get_text_tag_str (Some item) (qname ns "post_id") "0")
      = Some post_id
      ∧ events s'
        = events s
          ++ (before ++ attachment_item_events env o ns item post_id ++ rest)
          ++ reports
      ∧ Forall (item_event None) (before ++ rest)
      ∧ Forall report_event reports
      ∧ Forall (sidecar_of_recorded o (posts_pages s') (attachments s'))
          reports
      ∧ match get_text_tag (Some item) (qname ns "post_parent") None with
        | None => True
        | Some p =>
            ∃ parent,
              py_int env p = Some parent
              ∧ (Dict.get parent (posts_pages s') = None →
                 ∃ files,
                   Log Warn (AttachmentsWithoutPost parent files) ∈ reports)
        end.
Proof.
  intros Hrun Hitem Htype url link.
  split; [intros parts; apply download_destination_inside|].
  split; [intros t r t' Ht;
          by apply (process_item_attachment_url_map ns item Htype) in Ht|].
  unfold import_posts in Hrun.
  apply bind_ok_inv in Hrun as ([] & s0a & [= <-] & Hrun).
  apply bind_ok_inv in Hrun as ([] & s0 & [= <-] & Hrun).
  apply bind_ok_inv in Hrun as ([] & s1 & Hloop1 & Hrun).
  apply bind_ok_inv in Hrun as (atts & s1' & [= <- <-] & Hloop2).
  eapply (for_each_elem (kept None)) in Hloop1
    as (sa & sb & Hpre & Hproc & Hpost); [|apply process_item_kept|done].
  destruct Hpre as ((na & Hna & Fna) & _ & _).
  destruct Hpost as ((nb & Hnb & Fnb) & Hlinks & Hatts).
  apply process_item_attachment in Hproc
    as (post_id & Hid & Hn & Hu & Hl & Hparent); [|done].
  fold url link in Hu, Hl.
  apply assign_attachments_loop in Hloop2
    as (Hpp & Hat & Hli & n2 & Hn2 & Frep & Fn2 & Hwarn);
    [|intros k; apply dict_get_keys].
  simpl in Hna.
  rewrite Hli. split; [by apply Hlinks|]. split; [by apply Hlinks|].
  exists post_id, na, nb, n2. split; [done|].
  split; [by rewrite Hn2, Hnb, Hn, Hna, <- !app_assoc|].
  split; [by apply Forall_app|]. split; [done|].
  split; [by rewrite Hpp, Hat|].
  destruct (get_text_tag (Some item) (qname ns "post_parent") None);
    [|done].
  destruct Hparent as (parent & Hint & Hsome). exists parent.
  split; [done|]. rewrite Hpp. intros Hnone.
  apply (Hwarn parent); [|done]. by apply dict_keys_get, Hatts.
Qed.

End Orphans.

Lemma orphan_attachment_dropped_witness :
  let item :=
    Sample.attachment "10"
      "http://foo.com/wp-content/uploads/2012/09/b.jpg" (Some "99") in
  let run :=
    import_posts Sample.env Sample.options Sample.wp Sample.blog
      Sample.empty_state in
  inside "new_site/files" "new_site/files/wp-content/uploads/2012/09/b.jpg"
  ∧ is_Some (Dict.get "http://foo.com/wp-content/uploads/2012/09/b.jpg"
               (links run.2))
  ∧ ∃ reports files,
      Log Warn (AttachmentsWithoutPost 99 files) ∈ reports
      ∧ Forall report_event reports.
Proof.
  intros item run.
  destruct (orphan_attachment_dropped Sample.env Sample.options Sample.wp
              Sample.blog item Sample.empty_state run.2)
    as (Hin & _ & Hurl & _ & id & before & rest & reports & _ & Hev & _
        & Hrep & _ & parent & Hparent & Hwarn).
  - vm_compute. reflexivity.
  - vm_compute. do 2 apply list_elem_of_further. apply list_elem_of_here.
  - vm_compute. reflexivity.
  - split; [|split; [exact Hurl|]].
    + apply (Hin ["wp-content"; "uploads"; "2012"; "09"; "b.jpg"]).
      * done.
      * repeat constructor; done.
      * vm_compute. reflexivity.
    + injection Hparent as <-.
      destruct Hwarn as [files Hfiles]; [vm_compute; reflexivity|].
      exists reports, files. split; [exact Hfiles|exact Hrep].
Defined.

(** C8, as stated, fails: an attachment without a parent is entered in
    [links] and not in the URL map, whose file stays empty; and with
    [--no-downloads] nothing is fetched for it. *)
Lemma orphan_attachment_not_in_url_map :
  let url := "http://foo.com/wp-content/uploads/2012/09/c.jpg" in
  let channel := Sample.channel [Sample.attachment "11" url None] in
  let run :=
    _execute Sample.env Sample.options Sample.wp channel
      Sample.empty_state in
  let run_no_downloads :=
    _execute Sample.env Sample.options_no_downloads Sample.wp channel
      Sample.empty_state in
  run.1 = Ok tt
  ∧ url_map run.2 = []
  ∧ Dict.get url (links run.2) = Some "/wp-content/uploads/2012/09/c.jpg"
  ∧ WriteUrlmapCsv "new_site/url_map.csv" [] ∈ events run.2
  ∧ events run_no_downloads.2
    = [MakeDirs "new_site/files/wp-content/uploads/2012/09";
       Log Info (Downloading url
                   "new_site/files/wp-content/uploads/2012/09/c.jpg");
       Log Warn (AttachmentNoParent 11
                   ["/wp-content/uploads/2012/09/c.jpg"]);
       WriteUrlmapCsv "new_site/url_map.csv" [];
       WriteConfiguration "new_site/conf.py"
         ("# conf.py" +:+ nl +:+ "TRANSLATIONS" +:+ nl +:+ "REDIRECTIONS")].
Proof.
  vm_compute. repeat split.
  do 4 apply list_elem_of_further. apply list_elem_of_here.
Qed.

(** ** Two runs of the importer *)

Lemma category_texts_cons x l :
  category_texts (x :: l)
  = if category_skipped x then category_texts l
    else {[ text x ]} ∪ category_texts l.
Proof. unfold category_texts. simpl. by destruct (category_skipped x). Qed.

(** The category loop adds the same texts whatever the tag set was, and
    its two lists do not depend on that set. *)
Lemma collect_categories_frame l a b :
  acc_tags a = acc_tags b → acc_categories a = acc_categories b →
  acc_tags (foldl category_step a l) = acc_tags (foldl category_step b l)
  ∧ acc_categories (foldl category_step a l)
    = acc_categories (foldl category_step b l)
  ∧ acc_all_tags (foldl category_step a l)
    = acc_all_tags a ∪ category_texts l
  ∧ acc_all_tags (foldl category_step b l)
    = acc_all_tags b ∪ category_texts l.
Proof.
  revert a b. induction l as [|x l IH]; intros a b Ht Hc; simpl.
  - unfold category_texts. simpl. rewrite !(right_id_L ∅ (∪)). done.
  - rewrite category_texts_cons.
    assert (acc_tags (category_step a x) = acc_tags (category_step b x)
            ∧ acc_categories (category_step a x)
              = acc_categories (category_step b x)) as [Ht' Hc'].
    { unfold category_step. destruct (category_skipped x); [done|].
      case_bool_decide; simpl; split; congruence. }
    destruct (IH _ _ Ht' Hc') as (-> & -> & -> & ->).
    split; [done|]. split; [done|].
    unfold category_step. destruct (category_skipped x); [done|].
    case_bool_decide; simpl;
      by rewrite !(assoc_L (∪)), !(comm_L (∪) {[ text x ]}).
Qed.

(** *** States that are alike *)

#[local] Instance alike_equivalence : Equivalence alike.
Proof.
  split.
  - intros s. by split_and!.
  - intros s t (?&?&?&?&?&?&?&?). by split_and!.
  - intros s t u (?&?&?&?&?&?&?&?) (?&?&?&?&?&?&?&?).
    split_and!; congruence.
Qed.

Lemma outputs_app l k : outputs (l ++ k) = outputs l ++ outputs k.
Proof. unfold outputs. apply List.filter_app. Qed.

Lemma alike_emit e s t :
  alike s t →
  alike (set_events (λ l, l ++ [e]) s) (set_events (λ l, l ++ [e]) t).
Proof.
  intros (?&?&?&?&?&?&?&H). split_and!; try done. simpl.
  by rewrite !outputs_app, H.
Qed.

(** An event that the network decided does not show. *)
Lemma alike_network e s :
  network_event e = true → alike s (set_events (λ l, l ++ [e]) s).
Proof.
  intros He. split_and!; try done. simpl. rewrite outputs_app.
  unfold outputs at 3. simpl. rewrite He. simpl. by rewrite app_nil_r.
Qed.

Ltac alike_side :=
  let H := fresh in
  intros ? ? H; destruct H as (?&?&?&?&?&?&?&?);
  split_and!; simpl; try done; congruence.

(** *** Runs that are alike *)

Lemma co_runs_ret {A} (a : A) : co_runs (ret a) (ret a).
Proof. intros s t H. done. Qed.

Lemma co_runs_raise_l {A} e (d : M A) : co_runs (raise e) d.
Proof. intros s t H. done. Qed.

Lemma co_runs_raise_r {A} e (c : M A) : co_runs c (raise e).
Proof. intros s t H. simpl. by destruct (c s) as [[] ?]. Qed.

Lemma co_runs_lift {A} (r : Result A) : co_runs (lift r) (lift r).
Proof. destruct r; [apply co_runs_ret|apply co_runs_raise_l]. Qed.

Lemma co_runs_gets {A} (f : State → A) :
  (∀ s t, alike s t → f s = f t) → co_runs (gets f) (gets f).
Proof. intros Hf s t H. simpl. split; [by apply Hf|done]. Qed.

Lemma co_runs_modify f :
  (∀ s t, alike s t → alike (f s) (f t)) → co_runs (modify f) (modify f).
Proof. intros Hf s t H. simpl. split; [done|by apply Hf]. Qed.

Lemma co_runs_emit e : co_runs (emit e) (emit e).
Proof. apply co_runs_modify. intros s t. apply alike_emit. Qed.

Lemma co_runs_perform env env' e : co_runs (perform env e) (perform env' e).
Proof.
  intros s t H. unfold perform, mbind, M_bind, bind, gets, emit, modify.
  simpl. destruct (raises env (events s) e), (raises env' (events t) e);
    try done.
  simpl. split; [done|by apply alike_emit].
Qed.

Lemma co_runs_bind {A B} (c d : M A) (k k' : A → M B) :
  co_runs c d → (∀ a, co_runs (k a) (k' a)) →
  co_runs (c ≫= k) (d ≫= k').
Proof.
  intros Hc Hk s t H. unfold mbind, M_bind, bind.
  specialize (Hc s t H).
  destruct (c s) as [[a|e] s1], (d t) as [[b|e'] t1]; try done.
  - destruct Hc as [<- H1]. apply Hk, H1.
  - by destruct (k a s1) as [[] ?].
Qed.

Lemma co_runs_for_each {A} (body body' : A → M unit) l :
  (∀ x, co_runs (body x) (body' x)) →
  co_runs (for_each body l) (for_each body' l).
Proof.
  intros Hb. induction l as [|x l IH]; simpl.
  - apply co_runs_ret.
  - apply co_runs_bind; auto.
Qed.

(** A call that, when it returns, has changed nothing that shows. *)
Lemma co_runs_hidden (c d : M unit) :
  (∀ s s', c s = (Ok tt, s') → alike s s') →
  (∀ s s', d s = (Ok tt, s') → alike s s') →
  co_runs c d.
Proof.
  intros Hc Hd s t H.
  destruct (c s) as [[[]|e] s1] eqn:Ec, (d t) as [[[]|e'] t1] eqn:Ed;
    try done.
  split; [done|]. etrans; [symmetry; by eapply Hc|].
  etrans; [exact H|by eapply Hd].
Qed.

Ltac co_step :=
  lazymatch goal with
  | |- co_runs (mbind _ _) (mbind _ _) => apply co_runs_bind; [|intros ?]
  | |- co_runs (ret _) (ret _) => apply co_runs_ret
  | |- co_runs (raise _) _ => apply co_runs_raise_l
  | |- co_runs _ (raise _) => apply co_runs_raise_r
  | |- co_runs (lift _) (lift _) => apply co_runs_lift
  | |- co_runs (gets _) (gets _) =>
      apply co_runs_gets; let H := fresh in
      intros ? ? H; destruct H as (?&?&?&?&?&?&?&?); done
  | |- co_runs (modify _) (modify _) => apply co_runs_modify; alike_side
  | |- co_runs (emit _) (emit _) => apply co_runs_emit
  | |- co_runs (log _ _) (log _ _) => apply co_runs_emit
  | |- co_runs (perform _ _) (perform _ _) => apply co_runs_perform
  | |- co_runs (match ?x with _ => _ end) (match ?x with _ => _ end) =>
      destruct x
  end.

Ltac co_auto := repeat (co_step; try assumption).

Section TwoRuns.
Context (env : Env) (o : Options).
Context (requests_get' : string → option (string * string) → HttpResult).
Context (raises' : list Event → Event → option string).
Context (tag_rank' : option string → nat).

#[local] Abbreviation env' := (replay env requests_get' raises' tag_rank').

Lemma category_loop_co item tags :
  co_runs (category_loop item tags) (category_loop item tags).
Proof.
  unfold category_loop.
  apply co_runs_bind; [co_step|intros all]. co_auto.
Qed.

Lemma write_translations_co title slug out_folder status post_date excerpt
  post_format description categories content_translations tags :
  co_runs
    (write_translations env o title slug out_folder status post_date
       excerpt post_format description categories content_translations tags)
    (write_translations env' o title slug out_folder status post_date
       excerpt post_format description categories content_translations tags).
Proof.
  revert tags.
  induction content_translations as [|[lang content] rest IH]; intros tags;
    simpl; co_auto. apply IH.
Qed.

Lemma import_item_dated_co item ns title link out_folder slug description dt
  post_date :
  co_runs
    (import_item_dated env o item ns title link out_folder slug description
       dt post_date)
    (import_item_dated env' o item ns title link out_folder slug description
       dt post_date).
Proof.
  unfold import_item_dated. cbn [replay get_tzname]. co_auto.
  - apply category_loop_co.
  - apply write_translations_co.
Qed.

Lemma import_item_co item ns out_folder :
  co_runs (import_item env o item ns out_folder)
    (import_item env' o item ns out_folder).
Proof.
  unfold import_item.
  change (derive_slug env' o) with (derive_slug env o).
  cbn [replay to_datetime]. co_auto. apply import_item_dated_co.
Qed.

Lemma download_url_content_to_file_hidden e url dst_path s s' :
  download_url_content_to_file e o url dst_path s = (Ok tt, s') →
  alike s s'.
Proof.
  unfold download_url_content_to_file. destruct (no_downloads o).
  { by intros [= <-]. }
  destruct (requests_get e url (auth o)) as [code c|err|exn];
    [destruct (400 <=? code)%Z|..].
  - intros [= <-]. by apply alike_network.
  - intros ->%perform_ok_inv. by apply alike_network.
  - intros [= <-]. by apply alike_network.
  - done.
Qed.

Lemma download_into_files_co url :
  co_runs (download_into_files env o url) (download_into_files env' o url).
Proof.
  unfold download_into_files. cbn [replay urlparse_path]. co_auto.
  apply co_runs_hidden; apply download_url_content_to_file_hidden.
Qed.

Lemma download_size_files_co source_path files :
  co_runs (download_size_files env o source_path files)
    (download_size_files env' o source_path files).
Proof.
  induction files as [|f rest IH]; simpl; co_auto.
  apply download_into_files_co.
Qed.

Lemma additional_sizes_loop_co loads ns source_path l :
  co_runs (additional_sizes_loop env o loads ns source_path l)
    (additional_sizes_loop env' o loads ns source_path l).
Proof.
  induction l as [|e rest IH]; simpl; co_auto.
  apply download_size_files_co.
Qed.

Lemma import_attachment_co item ns :
  co_runs (import_attachment env o item ns) (import_attachment env' o item ns).
Proof.
  unfold import_attachment, download_additional_image_sizes.
  cbn [replay phpserialize]. co_auto.
  - apply download_into_files_co.
  - apply additional_sizes_loop_co.
Qed.

Lemma process_item_co ns item :
  co_runs (process_item env o ns item) (process_item env' o ns item).
Proof.
  unfold process_item, to_int. cbn [replay py_int]. co_auto;
    first [apply import_attachment_co | apply import_item_co].
Qed.

Lemma assign_attachments_co post_id :
  co_runs (assign_attachments env o post_id)
    (assign_attachments env' o post_id).
Proof. unfold assign_attachments, write_attachments_info. co_auto. Qed.

Lemma import_posts_co ns channel :
  co_runs (import_posts env o ns channel) (import_posts env' o ns channel).
Proof.
  unfold import_posts. co_auto.
  - apply co_runs_for_each, process_item_co.
  - apply co_runs_for_each, assign_attachments_co.
Qed.

Lemma add_tag_redirect_co tag :
  co_runs (add_tag_redirect env o tag) (add_tag_redirect env' o tag).
Proof.
  unfold add_tag_redirect. cbn [replay slugify site_link_tag]. co_auto.
Qed.

Lemma adjust_config_template_co rendered :
  co_runs (_adjust_config_template env rendered)
    (_adjust_config_template env' rendered).
Proof.
  unfold _adjust_config_template.
  change (re_sub_literal env') with (re_sub_literal env). co_auto.
Qed.

(** [_execute], when both worlds visit the tags in the same order. *)
Lemma execute_co ns channel :
  (∀ tags, tag_order env tags = tag_order env' tags) →
  co_runs (_execute env o ns channel) (_execute env' o ns channel).
Proof.
  intros Horder. unfold _execute.
  cbn [replay format_default_translations_config configure_redirections
       render_configuration get_configuration_output_path].
  do 4 (apply co_runs_bind; [co_auto|intros ?]);
    [by apply import_posts_co|].
  do 5 (apply co_runs_bind; [co_auto|intros ?]).
  apply co_runs_bind.
  { rewrite <- Horder. apply co_runs_for_each, add_tag_redirect_co. }
  intros _. co_auto. apply adjust_config_template_co.
Qed.

End TwoRuns.

Lemma site_files_outputs l : site_files (outputs l) = site_files l.
Proof.
  unfold site_files, outputs. induction l as [|e l IH]; [done|].
  simpl. destruct (network_event e) eqn:He; simpl.
  - rewrite IH. by destruct e as [? []| | | | | | | | | |].
  - by rewrite IH.
Qed.

Section TwoCommands.
Context (env : Env).
Context (requests_get' : string → option (string * string) → HttpResult).
Context (raises' : list Event → Event → option string).
Context (tag_rank' : option string → nat).

#[local] Abbreviation env' := (replay env requests_get' raises' tag_rank').

Lemma run_read_options_co options args :
  co_runs (run_read_options options args) (run_read_options options args).
Proof.
  unfold run_read_options.
  apply co_runs_bind; [co_step|intros [[filename folder] rest]].
  co_auto.
Qed.

Lemma get_channel_from_file_co filename :
  co_runs (get_channel_from_file env filename)
    (get_channel_from_file env' filename).
Proof.
  unfold get_channel_from_file. cbn [replay read_file etree_fromstring].
  co_auto.
Qed.

Lemma execute_command_co options args :
  (∀ tags, tag_order env tags = tag_order env' tags) →
  co_runs (_execute_command env options args)
    (_execute_command env' options args).
Proof.
  intros Horder. unfold _execute_command.
  destruct args as [|filename args]; [co_auto|].
  apply co_runs_bind; [apply run_read_options_co|intros [settings|]];
    [|co_auto].
  change (prepared_options env' settings)
    with (prepared_options env settings).
  cbn [replay phpserialize nsmap_wp default_translations_pattern
       generate_base_site].
  apply co_runs_bind; [co_auto|intros _].
  apply co_runs_bind; [co_auto|intros _].
  apply co_runs_bind; [apply get_channel_from_file_co|intros [channel|]];
    [|co_auto].
  destruct (nsmap_wp env channel) as [ns|]; [|co_auto].
  apply co_runs_bind; [co_auto|intros context].
  apply co_runs_bind; [co_auto|intros _].
  apply co_runs_bind; [by apply execute_co|intros _]. co_auto.
Qed.

(** C9: two runs of the importer on the same export file with the same
    options, started from the same state, in worlds that may differ in
    what the network answers and in which calls to the outside fail, and
    that visit the tags in the same order: when both complete, they
    return the same, and apart from what the network decided (the files
    fetched and the warnings about failed downloads) they did the same
    things in the same order.  In particular the rows of url_map.csv are
    the same, in the same order, and the metadata and content files are
    written with the same data, the content files with the same table
    of links at hand. *)
Theorem two_runs_same_files options args (s : State) r1 s1 r2 s2 :
  (∀ tags, tag_order env tags = tag_order env' tags) →
  _execute_command env options args s = (Ok r1, s1) →
  _execute_command env' options args s = (Ok r2, s2) →
  r1 = r2
  ∧ outputs (events s1) = outputs (events s2)
  ∧ site_files (events s1) = site_files (events s2)
  ∧ url_map s1 = url_map s2.
Proof.
  intros Horder H1 H2.
  pose proof (execute_command_co options args Horder s s) as H.
  rewrite H1, H2 in H.
  destruct H as (-> & Hu & _ & _ & _ & _ & _ & _ & Hout); [reflexivity|].
  split; [done|]. split; [done|]. split; [|done].
  by rewrite <- (site_files_outputs (events s1)), Hout, site_files_outputs.
Qed.

End TwoCommands.

Lemma two_runs_same_files_witness :
  let run1 :=
    _execute_command Sample.env no_options ["export.xml"]
      Sample.empty_state in
  let run2 :=
    _execute_command offline_env no_options ["export.xml"]
      Sample.empty_state in
  events run1.2 ≠ events run2.2
  ∧ site_files (events run1.2) = site_files (events run2.2)
  ∧ url_map run1.2 = url_map run2.2.
Proof.
  intros run1 run2. split; [vm_compute; discriminate|].
  destruct (two_runs_same_files Sample.env
              (λ _ _, Response 404 EmptyString) (λ _ _, None) (λ _, 0)
              no_options ["export.xml"] Sample.empty_state
              None run1.2 None run2.2) as (_ & _ & Hfiles & Hmap).
  - reflexivity.
  - vm_compute. reflexivity.
  - vm_compute. reflexivity.
  - split; [exact Hfiles|exact Hmap].
Defined.

(** * Further properties *)

(** ** Substitution where nothing matches *)

Lemma sub_unmatched r repl s :
  Re.match_at r EmptyString = None →
  (∀ c t, c ≠ "["%char → Re.match_at r (String c t) = None) →
  PyStr.mem "[" s = false → Re.sub r repl s = s.
Proof.
  intros Hnil Hcons. unfold Re.sub.
  induction s as [|c s IH]; simpl; [by rewrite Hnil|].
  intros [Hc Hs]%orb_false_elim. rewrite Hcons, IH; [done..|].
  intros ->. by rewrite Ascii.eqb_refl in Hc.
Qed.

Lemma bracket_pattern_unmatched p rest c t :
  c ≠ "["%char →
  Re.match_at (Re.seq (Re.lit (String "[" p) :: rest)) (String c t) = None.
Proof.
  intros Hc. unfold Re.match_at. simpl.
  destruct (Ascii.eqb_spec "["%char c); [congruence|done].
Qed.

Lemma bracket_literal_unmatched p c t :
  c ≠ "["%char → Re.match_at (Re.lit (String "[" p)) (String c t) = None.
Proof.
  intros Hc. unfold Re.match_at. simpl.
  destruct (Ascii.eqb_spec "["%char c); [congruence|done].
Qed.

Lemma transform_code_plain content :
  PyStr.mem "[" content = false → transform_code content = content.
Proof.
  intros H. unfold transform_code.
  rewrite (sub_unmatched code_re1), (sub_unmatched code_re2),
    (sub_unmatched code_re3), (sub_unmatched code_re4); try done.
  all: intros c t; apply bracket_pattern_unmatched.
Qed.

Lemma transform_caption_plain content :
  PyStr.mem "[" content = false → transform_caption content = content.
Proof.
  intros H. unfold transform_caption.
  rewrite (sub_unmatched caption_close_re), (sub_unmatched caption_open_re);
    try done.
  - intros c t. apply bracket_pattern_unmatched.
  - intros c t. apply bracket_literal_unmatched.
Qed.

(** X1: text without an opening bracket has no shortcode, and the "wp"
    pipeline hands it back unchanged (newline squashing apart). *)
Theorem bracket_free_text_unchanged (o : Options) (content : string) :
  PyStr.mem "[" content = false →
  transform_code content = content
  ∧ transform_caption content = content
  ∧ (squash_newlines o = false →
     transform_content o content (Some "wp") = Some (content, "md")).
Proof.
  intros H. split; [by apply transform_code_plain|].
  split; [by apply transform_caption_plain|].
  intros Hno. unfold transform_content, transform_multiple_newlines.
  rewrite bool_decide_eq_true_2 by done.
  by rewrite Hno, transform_code_plain, transform_caption_plain.
Qed.

Lemma bracket_free_text_unchanged_witness :
  transform_content Sample.options "a < b and c > d" (Some "wp")
  = Some ("a < b and c > d", "md").
Proof.
  apply (bracket_free_text_unchanged Sample.options "a < b and c > d");
    reflexivity.
Defined.

(** ** Squashing newlines *)

Lemma star_greedy_total {R} k s (cont : string → option R) :
  (∀ x, is_Some (cont x)) →
  Re.star true k s cont = cont (PyStr.lstrip_by (Re.cls_match k) s).
Proof.
  intros Hc. induction s as [|c s IH]; simpl; [done|].
  destruct (Re.cls_match k c); [|done].
  rewrite IH. by destruct (Hc (PyStr.lstrip_by (Re.cls_match k) s)) as [x ->].
Qed.

Lemma sub_go_skip r repl s k :
  Re.sub_go r repl s k = Re.sub_go r repl (PyStr.drop k s) 0.
Proof.
  revert k. induction s as [|c s IH]; intros [|k]; simpl; try done.
Qed.

Lemma lstrip_by_length p s :
  PyStr.len (PyStr.lstrip_by p s) ≤ PyStr.len s.
Proof.
  induction s as [|c s IH]; simpl; [done|]. destruct (p c); simpl; lia.
Qed.

Lemma drop_to_lstrip p s :
  PyStr.drop (PyStr.len s - PyStr.len (PyStr.lstrip_by p s)) s
  = PyStr.lstrip_by p s.
Proof.
  induction s as [|c s IH]; simpl; [done|]. destruct (p c) eqn:E; simpl.
  - pose proof (lstrip_by_length p s).
    replace (S (PyStr.len s) - PyStr.len (PyStr.lstrip_by p s))
      with (S (PyStr.len s - PyStr.len (PyStr.lstrip_by p s))) by lia.
    simpl. exact IH.
  - by rewrite Nat.sub_diag.
Qed.

Lemma take_length n s : n ≤ PyStr.len s → PyStr.len (PyStr.take n s) = n.
Proof.
  revert n. induction s as [|c s IH]; intros [|n]; simpl; try done; try lia.
  intros ?. rewrite IH; lia.
Qed.

Lemma lstrip_by_head p s :
  match PyStr.lstrip_by p s with
  | String c _ => p c = false
  | EmptyString => True
  end.
Proof.
  induction s as [|c s IH]; simpl; [done|]. by destruct (p c) eqn:E.
Qed.

(** What the pattern [\n{3,}] matches at the start of a text: the whole
    run of newlines there, when it has three or more. *)
Lemma newlines_match s3 :
  let s := String Re.newline (String Re.newline (String Re.newline s3)) in
  let rest := PyStr.lstrip_by is_nl s3 in
  ∃ m, Re.match_at newlines_re s = Some m
       ∧ PyStr.len (Re.group0 m) = 3 + (PyStr.len s3 - PyStr.len rest).
Proof.
  intros s rest. unfold Re.match_at, newlines_re. simpl.
  rewrite (star_greedy_total (Re.Chr Re.newline)) by eauto.
  eexists. split; [reflexivity|]. simpl.
  change (PyStr.lstrip_by (Re.cls_match (Re.Chr Re.newline)) s3) with rest.
  pose proof (lstrip_by_length is_nl s3) as Hle. fold rest in Hle.
  rewrite take_length; simpl; lia.
Qed.

Lemma newlines_unmatched s :
  PyStr.startswith s triple_nl = false → Re.match_at newlines_re s = None.
Proof.
  unfold Re.match_at, newlines_re, triple_nl, nl. simpl.
  destruct s as [|c1 [|c2 [|c3 s]]]; simpl; try done.
  - by destruct (Ascii.eqb Re.newline c1).
  - by destruct (Ascii.eqb Re.newline c1), (Ascii.eqb Re.newline c2).
  - by destruct (Ascii.eqb Re.newline c1), (Ascii.eqb Re.newline c2),
         (Ascii.eqb Re.newline c3).
Qed.

Lemma contains_cons p c s :
  PyStr.contains p (String c s)
  = PyStr.startswith (String c s) p || PyStr.contains p s.
Proof. reflexivity. Qed.

Lemma squash_unchanged s :
  PyStr.contains triple_nl s = false →
  Re.sub newlines_re (λ _, nl +:+ nl) s = s.
Proof.
  unfold Re.sub. induction s as [|c s IH]; [done|].
  rewrite contains_cons. intros [Hh Ht]%orb_false_elim.
  simpl. rewrite newlines_unmatched by done. by rewrite IH.
Qed.

(** X3: text without three newlines in a row is left as it is, whether
    squashing is enabled or not. *)
Theorem transform_multiple_newlines_unchanged (o : Options) content :
  PyStr.contains triple_nl content = false →
  transform_multiple_newlines o content = content.
Proof.
  intros H. unfold transform_multiple_newlines.
  destruct (squash_newlines o); [by apply squash_unchanged|done].
Qed.

Lemma transform_multiple_newlines_unchanged_witness :
  transform_multiple_newlines Sample.options ("a" +:+ nl +:+ nl +:+ "b")
  = "a" +:+ nl +:+ nl +:+ "b".
Proof.
  apply (transform_multiple_newlines_unchanged Sample.options
           ("a" +:+ nl +:+ nl +:+ "b")).
  reflexivity.
Defined.

Lemma squash_step_unmatched c s :
  PyStr.startswith (String c s) triple_nl = false →
  Re.sub_go newlines_re (λ _, nl +:+ nl) (String c s) 0
  = String c (Re.sub_go newlines_re (λ _, nl +:+ nl) s 0).
Proof. intros H. simpl. by rewrite newlines_unmatched. Qed.

Lemma is_nl_true c : is_nl c = true → c = Re.newline.
Proof. unfold is_nl. by destruct (Ascii.eqb_spec Re.newline c). Qed.

(** A text that starts with a newline is squashed to one or two newlines
    followed by the squashing of a shorter text that starts otherwise. *)
Lemma squash_run s1 :
  ∃ t, starts_with_nl t = false
       ∧ PyStr.len t ≤ PyStr.len s1
       ∧ (Re.sub_go newlines_re (λ _, nl +:+ nl) (String Re.newline s1) 0
          = nl +:+ Re.sub_go newlines_re (λ _, nl +:+ nl) t 0
          ∨ Re.sub_go newlines_re (λ _, nl +:+ nl) (String Re.newline s1) 0
            = nl +:+ nl +:+ Re.sub_go newlines_re (λ _, nl +:+ nl) t 0).
Proof.
  destruct s1 as [|c2 s2].
  { exists EmptyString. split; [done|]. split; [done|]. by left. }
  destruct (is_nl c2) eqn:E2.
  2:{ exists (String c2 s2). split; [done|]. split; [done|]. left.
      rewrite squash_step_unmatched; [done|].
      unfold triple_nl, nl. simpl. rewrite ?Ascii.eqb_refl.
      unfold is_nl in E2. by rewrite E2. }
  apply is_nl_true in E2 as ->.
  destruct s2 as [|c3 s3].
  { exists EmptyString. split; [done|]. split; [simpl; lia|]. by right. }
  destruct (is_nl c3) eqn:E3.
  2:{ exists (String c3 s3). split; [done|]. split; [simpl; lia|]. right.
      rewrite !squash_step_unmatched; [done|..].
      all: unfold triple_nl, nl; simpl; rewrite ?Ascii.eqb_refl.
      all: unfold is_nl in E3; by rewrite E3. }
  apply is_nl_true in E3 as ->.
  exists (PyStr.lstrip_by is_nl s3).
  pose proof (lstrip_by_head is_nl s3) as Hhead.
  pose proof (lstrip_by_length is_nl s3) as Hlen.
  split; [by destruct (PyStr.lstrip_by is_nl s3)|].
  split; [simpl; lia|]. right.
  destruct (newlines_match s3) as (m & Hm & Hl).
  cbn zeta in Hm, Hl.
  change (Re.sub_go newlines_re (λ _, nl +:+ nl)
            (String Re.newline (String Re.newline (String Re.newline s3))) 0)
    with (match Re.match_at newlines_re
                  (String Re.newline
                     (String Re.newline (String Re.newline s3))) with
          | Some m =>
              match PyStr.len (Re.group0 m) with
              | O => (nl +:+ nl) +:+
                     String Re.newline
                       (Re.sub_go newlines_re (λ _, nl +:+ nl)
                          (String Re.newline (String Re.newline s3)) 0)
              | S k => (nl +:+ nl) +:+
                       Re.sub_go newlines_re (λ _, nl +:+ nl)
                         (String Re.newline (String Re.newline s3)) k
              end
          | None =>
              String Re.newline
                (Re.sub_go newlines_re (λ _, nl +:+ nl)
                   (String Re.newline (String Re.newline s3)) 0)
          end).
  rewrite Hm, Hl.
  change (3 + (PyStr.len s3 - PyStr.len (PyStr.lstrip_by is_nl s3)))
    with (S (S (S (PyStr.len s3 - PyStr.len (PyStr.lstrip_by is_nl s3))))).
  cbn iota. rewrite sub_go_skip.
  change (PyStr.drop
            (S (S (PyStr.len s3 - PyStr.len (PyStr.lstrip_by is_nl s3))))
            (String Re.newline (String Re.newline s3)))
    with (PyStr.drop (PyStr.len s3 - PyStr.len (PyStr.lstrip_by is_nl s3))
            s3).
  by rewrite drop_to_lstrip.
Qed.

Lemma triple_nl_after_newlines y :
  starts_with_nl y = false → PyStr.contains triple_nl y = false →
  PyStr.contains triple_nl (nl +:+ y) = false
  ∧ PyStr.contains triple_nl (nl +:+ nl +:+ y) = false.
Proof.
  intros Hy Hc. unfold nl.
  change (String Re.newline "" +:+ String Re.newline "" +:+ y)
    with (String Re.newline (String Re.newline y)).
  change (String Re.newline "" +:+ y) with (String Re.newline y).
  rewrite !contains_cons, Hc. unfold triple_nl, nl. simpl.
  rewrite ?Ascii.eqb_refl.
  destruct y as [|c y]; [done|]. simpl in Hy. unfold is_nl in Hy.
  simpl. by rewrite Hy.
Qed.

Lemma squash_no_triple n s :
  PyStr.len s ≤ n →
  PyStr.contains triple_nl
    (Re.sub_go newlines_re (λ _, nl +:+ nl) s 0) = false
  ∧ (starts_with_nl s = false →
     starts_with_nl (Re.sub_go newlines_re (λ _, nl +:+ nl) s 0) = false).
Proof.
  revert s. induction n as [|n IH]; intros [|c s] Hlen; simpl in Hlen;
    try done; try lia.
  assert (PyStr.len s ≤ n) as Hs by lia.
  destruct (is_nl c) eqn:Ec.
  - apply is_nl_true in Ec as ->. split; [|done].
    destruct (squash_run s) as (t & Ht & Hlt & [-> | ->]);
      destruct (IH t) as [Hc Hh]; try lia;
      by apply triple_nl_after_newlines; auto.
  - assert (PyStr.startswith (String c s) triple_nl = false) as Hno.
    { unfold triple_nl, nl. simpl. unfold is_nl in Ec. by rewrite Ec. }
    rewrite squash_step_unmatched by done.
    destruct (IH s Hs) as [Hc Hh]. split; [|done].
    rewrite contains_cons, Hc.
    unfold triple_nl, nl. simpl. unfold is_nl in Ec. by rewrite Ec.
Qed.

(** X2: with squashing enabled the result never holds three newlines in
    a row. *)
Theorem transform_multiple_newlines_squashes (o : Options) content :
  squash_newlines o = true →
  PyStr.contains triple_nl (transform_multiple_newlines o content) = false.
Proof.
  intros H. unfold transform_multiple_newlines. rewrite H.
  by apply (squash_no_triple (PyStr.len content)).
Qed.

Lemma transform_multiple_newlines_squashes_witness :
  PyStr.contains triple_nl
    (transform_multiple_newlines squashing_options
       ("a" +:+ nl +:+ nl +:+ nl +:+ nl +:+ "b")) = false.
Proof.
  apply (transform_multiple_newlines_squashes squashing_options
           ("a" +:+ nl +:+ nl +:+ nl +:+ nl +:+ "b")).
  reflexivity.
Defined.

(** ** The splitter on text without markers and on text made of sections *)

Lemma contains_false_head p s :
  PyStr.contains p s = false → PyStr.startswith s p = false.
Proof. destruct s; simpl; by intros [? ?]%orb_false_elim. Qed.

Lemma contains_false_drop p n s :
  PyStr.contains p s = false → PyStr.contains p (PyStr.drop n s) = false.
Proof.
  revert s. induction n as [|n IH]; intros [|c s]; simpl; try done.
  intros [? ?]%orb_false_elim. by apply IH.
Qed.

Lemma split_go_unmarked sep s cur :
  PyStr.contains sep s = false →
  PyStr.split_go sep s 0 cur = [PyStr.rev (PyStr.rev_onto s cur)].
Proof.
  revert cur. induction s as [|c s IH]; intros cur; [done|].
  rewrite contains_cons. intros [Hh Ht]%orb_false_elim.
  simpl. rewrite Hh. by apply IH.
Qed.

(** X4: text that holds neither a start marker nor an end marker, and is
    not blank, comes back whole under the default (empty) language. *)
Theorem separate_qtranslate_content_unmarked text :
  PyStr.contains qt_start text = false →
  PyStr.contains qt_end text = false →
  PyStr.is_empty (PyStr.strip text) = false →
  separate_qtranslate_content text = [(EmptyString, text)].
Proof.
  intros Hstart Hend Hblank. unfold separate_qtranslate_content, PyStr.split.
  rewrite split_go_unmarked by done.
  change (PyStr.rev (PyStr.rev_onto text "")) with (PyStr.rev (PyStr.rev text)).
  rewrite rev_rev. simpl. unfold qt_step, qt_classify.
  rewrite Hblank, (contains_false_head _ _ Hend).
  rewrite (contains_false_head _ _ (contains_false_drop _ 2 _ Hend)).
  reflexivity.
Qed.

Lemma separate_qtranslate_content_unmarked_witness :
  separate_qtranslate_content "Just <b>one</b> language"
  = [(EmptyString, "Just <b>one</b> language")].
Proof.
  apply (separate_qtranslate_content_unmarked "Just <b>one</b> language");
    reflexivity.
Defined.

Lemma split_go_plain a rest cur :
  PyStr.mem "<" a = false →
  PyStr.split_go qt_start (a +:+ rest) 0 cur
  = PyStr.split_go qt_start rest 0 (PyStr.rev_onto a cur).
Proof.
  revert cur. induction a as [|c a IH]; intros cur; [done|].
  intros [Hc Ha]%orb_false_elim. rewrite append_cons. simpl.
  destruct (Ascii.eqb_spec "<"%char c) as [<-|_].
  { by rewrite Ascii.eqb_refl in Hc. }
  by apply IH.
Qed.

Lemma split_go_marker rest cur :
  PyStr.split_go qt_start (qt_start +:+ rest) 0 cur
  = PyStr.rev cur :: PyStr.split_go qt_start rest 0 EmptyString.
Proof. reflexivity. Qed.

Lemma mem_append c a b :
  PyStr.mem c (a +:+ b) = PyStr.mem c a || PyStr.mem c b.
Proof.
  induction a as [|x a IH]; [done|]. rewrite append_cons. simpl.
  by rewrite IH, orb_assoc.
Qed.

Lemma split_sections sections cur :
  Forall plain_section sections →
  PyStr.split_go qt_start (qt_sections sections) 0 cur
  = PyStr.rev cur :: qt_chunks_of sections.
Proof.
  intros Hall. revert cur.
  induction Hall as [|[lang body] rest (Hlen & Hl & Hb) _ IH]; intros cur;
    [done|].
  simpl in Hlen, Hl, Hb. simpl qt_sections. unfold qt_section. simpl fst.
  simpl snd. rewrite !append_assoc_s. rewrite split_go_marker.
  rewrite <- (append_assoc_s lang), <- (append_assoc_s (lang +:+ qt_end)).
  rewrite split_go_plain.
  2:{ rewrite !mem_append, Hl, Hb. reflexivity. }
  rewrite split_go_marker.
  rewrite (split_go_plain qt_end) by reflexivity.
  rewrite IH. simpl. f_equal.
  - change (PyStr.rev_onto ((lang +:+ qt_end) +:+ body) "")
      with (PyStr.rev ((lang +:+ qt_end) +:+ body)).
    by rewrite rev_rev, append_assoc_s.
Qed.

Lemma all_by_lstrip p s :
  PyStr.all_by p (PyStr.lstrip_by p s) = PyStr.all_by p s.
Proof.
  induction s as [|c s IH]; simpl; [done|].
  destruct (p c) eqn:E; simpl; [done|]. by rewrite E.
Qed.

Lemma all_by_rev_onto p s acc :
  PyStr.all_by p (PyStr.rev_onto s acc)
  = PyStr.all_by p s && PyStr.all_by p acc.
Proof.
  revert acc. induction s as [|c s IH]; intros acc; simpl; [done|].
  rewrite IH. simpl. by destruct (p c), (PyStr.all_by p s).
Qed.

(** Text with a character that is not whitespace is not blank. *)
Lemma strip_nonblank s :
  PyStr.all_by PyStr.is_space s = false →
  PyStr.is_empty (PyStr.strip s) = false.
Proof.
  intros H. unfold PyStr.strip, PyStr.rstrip_by.
  set (t := PyStr.lstrip_by PyStr.is_space s).
  assert (PyStr.all_by PyStr.is_space
            (PyStr.lstrip_by PyStr.is_space (PyStr.rev t)) = false) as Hv.
  { rewrite all_by_lstrip. unfold PyStr.rev. rewrite all_by_rev_onto.
    unfold t. by rewrite all_by_lstrip, H. }
  destruct (PyStr.lstrip_by PyStr.is_space (PyStr.rev t)) as [|c v];
    [done|].
  unfold PyStr.rev. simpl. by apply rev_onto_nonempty.
Qed.

(** A chunk that opens with a two-letter code and the end marker is read
    as that language's text. *)
Lemma qt_classify_section lang body :
  PyStr.len lang = 2 →
  qt_classify (lang +:+ qt_end +:+ body) = Some (lang, body).
Proof.
  destruct lang as [|a [|b [|c lang]]]; try done. intros _.
  unfold qt_classify. rewrite strip_nonblank.
  2:{ rewrite !append_cons. simpl.
      by destruct (PyStr.is_space a), (PyStr.is_space b). }
  rewrite !append_cons. unfold qt_end. simpl.
  destruct (Ascii.eqb "-" a), (Ascii.eqb "-" b); reflexivity.
Qed.

Lemma qt_step_section st lang body :
  PyStr.len lang = 2 → common_txt_list st = [] →
  qt_step (qt_step st (lang +:+ qt_end +:+ body)) qt_end
  = {| content_by_lang := add_section (content_by_lang st) (lang, body);
       common_txt_list := [] |}.
Proof.
  intros Hlen Hcommon. unfold qt_step at 2.
  rewrite qt_classify_section by done.
  destruct lang as [|a lang]; [done|]. simpl PyStr.is_empty. cbn iota.
  rewrite Hcommon. reflexivity.
Qed.

Lemma fold_sections sections d :
  Forall plain_section sections →
  foldl qt_step {| content_by_lang := d; common_txt_list := [] |}
    (qt_chunks_of sections)
  = {| content_by_lang := foldl add_section d sections;
       common_txt_list := [] |}.
Proof.
  intros Hall. revert d.
  induction Hall as [|[lang body] rest (Hlen & _ & _) _ IH]; intros d;
    [done|].
  simpl in Hlen. simpl. rewrite qt_step_section by done. apply IH.
Qed.

(** X5: on text made only of sections [<!--:LL-->body<!--:-->] the
    splitter returns, for each language in order of first appearance, the
    bodies of its sections joined by single spaces. *)
Theorem separate_qtranslate_content_sections
  (sections : list (string * string)) :
  Forall plain_section sections →
  separate_qtranslate_content (qt_sections sections)
  = (λ '(l, v), (l, PyStr.join " " v)) <$> foldl add_section [] sections.
Proof.
  intros Hall. unfold separate_qtranslate_content, PyStr.split.
  rewrite split_sections by done.
  change (foldl qt_step {| content_by_lang := []; common_txt_list := [] |}
            (PyStr.rev "" :: qt_chunks_of sections))
    with (foldl qt_step {| content_by_lang := []; common_txt_list := [] |}
            (qt_chunks_of sections)).
  rewrite fold_sections by done. reflexivity.
Qed.

Lemma separate_qtranslate_content_sections_witness :
  separate_qtranslate_content
    "<!--:en-->Hello<!--:--><!--:fr-->Bonjour<!--:--><!--:en-->again<!--:-->"
  = [("en", "Hello again"); ("fr", "Bonjour")].
Proof.
  apply (separate_qtranslate_content_sections
           [("en", "Hello"); ("fr", "Bonjour"); ("en", "again")]).
  repeat constructor.
Defined.

(** ** Invariants of item processing

    A preorder on states that every elementary step of the importer
    respects is respected by [process_item], hence by the first loop of
    [import_posts].  The steps are listed once, here; each invariant below
    is an instance. *)

Section Invariant.
Context (env : Env) (o : Options).
Context (R : relation State) `{!PreOrder R}.
Hypothesis R_log :
  ∀ s level msg, R s (set_events (λ l, l ++ [Log level msg]) s).
Hypothesis R_makedirs :
  ∀ s path, R s (set_events (λ l, l ++ [MakeDirs path]) s).
Hypothesis R_metadata :
  ∀ s path title slug post_date description tags other_meta,
    R s (set_events
           (λ l, l ++ [WriteMetadata path title slug post_date description
                         tags other_meta]) s).
Hypothesis R_content :
  ∀ s path data links,
    R s (set_events (λ l, l ++ [WriteContent path data links]) s).
Hypothesis R_download :
  ∀ url dst_path,
    preserves R (download_url_content_to_file env o url dst_path).
Hypothesis R_links : ∀ s k v, R s (set_links (Dict.set k v) s).
Hypothesis R_url_map : ∀ s k v, R s (set_url_map (Dict.set k v) s).
Hypothesis R_timezone : ∀ s tz, R s (set_timezone (λ _, tz) s).
Hypothesis R_extra_languages :
  ∀ s lang, lang ≠ EmptyString → lang ≠ default_lang o →
            R s (set_extra_languages (λ l, {[ lang ]} ∪ l) s).
Hypothesis R_all_tags :
  ∀ s T, all_tags s ⊆ T → R s (set_all_tags (λ _, T) s).
Hypothesis R_posts_pages :
  ∀ s k v, R s (set_posts_pages (Dict.set k v) s).
Hypothesis R_attachments :
  ∀ s parent post_id files,
    R s (set_attachments
           (λ a, Dict.set parent
                   (Dict.set post_id files (default [] (Dict.get parent a)))
                   a) s).

Hypothesis R_sidecar :
  ∀ s path info,
    R s (set_events (λ l, l ++ [WriteAttachmentsInfo path info]) s).
Hypothesis R_new_posts_pages : ∀ s, R s (set_posts_pages (λ _, []) s).
Hypothesis R_new_attachments : ∀ s, R s (set_attachments (λ _, []) s).
Hypothesis R_new_url_map : ∀ s, R s (set_url_map (λ _, []) s).
Hypothesis R_new_extra_languages :
  ∀ s, R s (set_extra_languages (λ _, ∅) s).
Hypothesis R_url_map_file :
  ∀ s path rows, R s (set_events (λ l, l ++ [WriteUrlmapCsv path rows]) s).
Hypothesis R_configuration :
  ∀ s path data,
    R s (set_events (λ l, l ++ [WriteConfiguration path data]) s).

Lemma category_loop_invariant item tags :
  preserves R (category_loop item tags).
Proof.
  intros s r s'. unfold category_loop, mbind, M_bind, bind, gets, modify, ret.
  simpl. intros [= <- <-]. apply R_all_tags.
  destruct (collect_categories_frame (findall "category" item)
              {| acc_all_tags := all_tags s; acc_tags := tags;
                 acc_categories := [] |}
              {| acc_all_tags := all_tags s; acc_tags := tags;
                 acc_categories := [] |}) as (_ & _ & E & _); [done..|].
  unfold collect_categories. rewrite E. simpl. apply union_subseteq_l.
Qed.

Lemma write_translations_invariant title slug out_folder status post_date
  excerpt post_format description categories content_translations tags :
  preserves R
    (write_translations env o title slug out_folder status post_date excerpt
       post_format description categories content_translations tags).
Proof.
  revert tags.
  induction content_translations as [|[lang content] rest IH]; intros tags;
    simpl; [preserves_auto|].
  destruct (transform_content o content post_format) as [[c ext]|];
    [|preserves_auto].
  apply preserves_bind; [tc_solve| |].
  - destruct lang as [|a lang]; simpl; [preserves_auto|].
    case_bool_decide as Hd; [preserves_auto|].
    apply preserves_bind; [tc_solve|preserves_auto|intros candidate].
    apply preserves_bind; [tc_solve| |intros ?; preserves_auto].
    apply preserves_modify. intros s. by apply R_extra_languages.
  - intros name. preserves_auto. apply IH.
Qed.

Lemma import_item_dated_invariant item ns title link out_folder slug
  description dt post_date :
  preserves R
    (import_item_dated env o item ns title link out_folder slug description
       dt post_date).
Proof.
  unfold import_item_dated. preserves_auto;
    first [apply category_loop_invariant
          | apply write_translations_invariant].
Qed.

Lemma import_item_invariant item ns out_folder :
  preserves R (import_item env o item ns out_folder).
Proof.
  unfold import_item. preserves_auto. apply import_item_dated_invariant.
Qed.

Lemma download_into_files_invariant url :
  preserves R (download_into_files env o url).
Proof. unfold download_into_files. preserves_auto. apply R_download. Qed.

Lemma download_size_files_invariant source_path files :
  preserves R (download_size_files env o source_path files).
Proof.
  induction files as [|f rest IH]; simpl; preserves_auto.
  apply download_into_files_invariant.
Qed.

Lemma additional_sizes_loop_invariant loads ns source_path l :
  preserves R (additional_sizes_loop env o loads ns source_path l).
Proof.
  induction l as [|e rest IH]; simpl; preserves_auto.
  apply download_size_files_invariant.
Qed.

Lemma import_attachment_invariant item ns :
  preserves R (import_attachment env o item ns).
Proof.
  unfold import_attachment, download_additional_image_sizes.
  preserves_auto.
  - apply download_into_files_invariant.
  - apply additional_sizes_loop_invariant.
Qed.

Lemma process_item_invariant ns item :
  preserves R (process_item env o ns item).
Proof.
  unfold process_item, to_int. preserves_auto;
    first [apply import_attachment_invariant | apply import_item_invariant].
Qed.

Lemma process_items_invariant ns items :
  preserves R (for_each (process_item env o ns) items).
Proof. apply preserves_for_each; [tc_solve|]. apply process_item_invariant. Qed.

Lemma assign_attachments_invariant post_id :
  preserves R (assign_attachments env o post_id).
Proof. unfold assign_attachments. preserves_auto. Qed.

Lemma import_posts_invariant ns channel :
  preserves R (import_posts env o ns channel).
Proof.
  unfold import_posts. preserves_auto.
  - apply process_items_invariant.
  - apply preserves_for_each; [tc_solve|].
    apply assign_attachments_invariant.
Qed.

Lemma add_tag_redirect_invariant tag :
  preserves R (add_tag_redirect env o tag).
Proof. unfold add_tag_redirect. preserves_auto. Qed.

Lemma adjust_config_template_invariant rendered :
  preserves R (_adjust_config_template env rendered).
Proof. unfold _adjust_config_template. preserves_auto. Qed.

Lemma execute_invariant ns channel :
  preserves R (_execute env o ns channel).
Proof.
  unfold _execute. preserves_auto.
  - apply import_posts_invariant.
  - apply preserves_for_each; [tc_solve|].
    apply add_tag_redirect_invariant.
  - apply adjust_config_template_invariant.
Qed.

End Invariant.

#[local] Instance keeps_preorder P : PreOrder (keeps P).
Proof.
  split.
  - intros s H. exact H.
  - intros s1 s2 s3 H1 H2 H. exact (H2 (H1 H)).
Qed.

#[local] Instance tags_grow_preorder : PreOrder tags_grow.
Proof.
  split.
  - intros s. unfold tags_grow. done.
  - intros s1 s2 s3 H1 H2. unfold tags_grow in *. by etrans.
Qed.

#[local] Instance append_only_preorder : PreOrder append_only.
Proof.
  split.
  - intros s. split; reflexivity.
  - intros s1 s2 s3 [? ?] [? ?]. split; by etrans.
Qed.

#[local] Instance tidy_preorder : PreOrder tidy.
Proof.
  split.
  - intros s. split; reflexivity.
  - intros s1 s2 s3 [? ?] [? ?]. split; by etrans.
Qed.

Lemma dict_set_keys_in {K V} `{EqDecision K} (k : K) (v : V) d :
  k ∈ Dict.keys d → Dict.keys (Dict.set k v d) = Dict.keys d.
Proof.
  unfold Dict.keys. induction d as [|[k0 v0] d IH]; simpl.
  - by intros ?%elem_of_nil.
  - intros Hin. destruct (decide (k0 = k)) as [->|Hne]; simpl; [done|].
    f_equal. apply IH. apply elem_of_cons in Hin as [->|?]; done.
Qed.

Lemma dict_set_keys_new {K V} `{EqDecision K} (k : K) (v : V) d :
  k ∉ Dict.keys d → Dict.keys (Dict.set k v d) = Dict.keys d ++ [k].
Proof.
  unfold Dict.keys. induction d as [|[k0 v0] d IH]; simpl; [done|].
  intros Hin. destruct (decide (k0 = k)) as [->|Hne]; simpl.
  - exfalso. apply Hin, elem_of_cons. by left.
  - f_equal. apply IH. intros ?. apply Hin, elem_of_cons. by right.
Qed.

Lemma dict_set_nodup {K V} `{EqDecision K} (k : K) (v : V) d :
  NoDup (Dict.keys d) → NoDup (Dict.keys (Dict.set k v d)).
Proof.
  intros Hd. destruct (decide (k ∈ Dict.keys d)) as [Hin|Hin].
  - by rewrite dict_set_keys_in.
  - rewrite dict_set_keys_new by done.
    apply NoDup_app. split; [done|]. split; [|apply NoDup_singleton].
    intros x Hx ->%list_elem_of_singleton. done.
Qed.

(** Closing the side conditions of the invariant principle. *)
Ltac invariant_side :=
  intros; unfold tidy, append_only, keeps, tags_grow, unique_sources;
  repeat match goal with |- _ ∧ _ => split end;
  first
    [ done
    | apply appends_same; reflexivity
    | eapply appends_emit; [|reflexivity]; simpl; done
    | apply keeps_keys_same; reflexivity
    | eapply keeps_keys_set; reflexivity
    | simpl; intros; by apply dict_set_nodup
    | simpl; intros; apply NoDup_nil_2 ].

Ltac invariant_step :=
  lazymatch goal with
  | |- preserves _ (mbind _ _) => apply preserves_bind; [tc_solve| |intros ?]
  | |- preserves _ (ret _) => apply preserves_ret; tc_solve
  | |- preserves _ (raise _) => apply preserves_raise; tc_solve
  | |- preserves _ (gets _) => apply preserves_gets; tc_solve
  | |- preserves _ (lift _) => apply preserves_lift; tc_solve
  | |- preserves _ (perform _ _) =>
      apply preserves_perform; [tc_solve|invariant_side]
  | |- preserves _ (emit _) => apply preserves_modify; invariant_side
  | |- preserves _ (log _ _) => apply preserves_modify; invariant_side
  | |- preserves _ (if ?x then _ else _) => destruct x
  | |- preserves _ (match ?x with _ => _ end) => destruct x
  end.

Section RunInvariants.
Context (env : Env) (o : Options).

Lemma download_without_fetch url dst_path :
  no_downloads o = true →
  preserves (appends not_fetched)
    (download_url_content_to_file env o url dst_path).
Proof.
  intros H. unfold download_url_content_to_file. rewrite H.
  apply preserves_ret; tc_solve.
Qed.

(** X6: with [--no-downloads] a whole run fetches nothing: no file of the
    [files] tree is written, whatever the export holds. *)
Theorem no_downloads_fetches_nothing ns channel (s : State) r s' :
  no_downloads o = true →
  _execute env o ns channel s = (r, s') →
  ∃ new, events s' = events s ++ new ∧ Forall not_fetched new.
Proof.
  intros Hno Hrun.
  assert (preserves (appends not_fetched) (_execute env o ns channel)) as H.
  { apply execute_invariant; try tc_solve; try invariant_side.
    intros. by apply download_without_fetch. }
  exact (H _ _ _ Hrun).
Qed.

Lemma download_keeps_entries url dst_path :
  preserves append_only (download_url_content_to_file env o url dst_path).
Proof.
  unfold download_url_content_to_file. repeat invariant_step.
Qed.


(** X7: [import_posts] only ever adds to the URL map and to [links]: a
    source URL that has an entry keeps one, whatever else is imported and
    even when the import ends with an exception. *)
Theorem import_posts_append_only ns channel (s : State) r s' :
  import_posts env o ns channel s = (r, s') →
  (∀ url, is_Some (Dict.get url (url_map s)) →
          is_Some (Dict.get url (url_map s')))
  ∧ (∀ url, is_Some (Dict.get url (links s)) →
            is_Some (Dict.get url (links s'))).
Proof.
  intros Hrun.
  assert (preserves append_only (import_posts env o ns channel)) as H.
  { apply import_posts_invariant; try tc_solve; try invariant_side.
    apply download_keeps_entries. }
  exact (H _ _ _ Hrun).
Qed.

Lemma execute_split ns channel s :
  _execute env o ns channel s
  = match import_and_redirect env o ns channel (reset_attributes s) with
    | (Ok (translations, redirections), x) =>
        (perform env (url_map_file o x) ;;
         write_configuration env o translations redirections) x
    | (Raise e, x) => (Raise e, x)
    end.
Proof.
  unfold _execute, import_and_redirect, reset_attributes, mbind, M_bind,
    bind, modify, gets.
  destruct (import_posts env o ns channel _) as [[[]|e] x]; [|done].
  destruct (format_default_translations_config env _) as [t|e]; [|done].
  simpl.
  destruct (configure_redirections env _) as [rd|e]; [|done]. simpl.
  destruct (for_each _ _ x) as [[[]|e] y]; done.
Qed.





Lemma import_posts_languages ns channel :
  preserves (keeps (other_languages o)) (import_posts env o ns channel).
Proof.
  apply import_posts_invariant; try tc_solve;
    try (intros; intros H; exact H).
  - unfold download_url_content_to_file. intros.
    repeat invariant_step; intros ? H; exact H.
  - intros s lang Hne Hdef H l [->%elem_of_singleton|Hl]%elem_of_union.
    + done.
    + by apply H.
  - intros s T _ H. exact H.
Qed.

(** X9: after a run, whether it completes or not, the set of languages
    found in the export holds only non-empty codes other than the
    default language: the default language never becomes a translation
    of itself. *)
Theorem execute_languages ns channel (s : State) r s' lang :
  _execute env o ns channel s = (r, s') →
  lang ∈ extra_languages s' →
  lang ≠ EmptyString ∧ lang ≠ default_lang o.
Proof.
  intros Hrun.
  assert (other_languages o s') as H; [|apply H].
  assert (preserves (keeps (other_languages o))
            (import_posts env o ns channel ;;
             languages ← gets extra_languages;
             translations ←
               lift (format_default_translations_config env languages);
             imported ← gets url_map;
             redirections ← lift (configure_redirections env imported);
             tags ← gets all_tags;
             for_each (add_tag_redirect env o) (tag_order env tags) ;;
             rows ← gets url_map;
             perform env
               (WriteUrlmapCsv
                  (PosixPath.join (output_folder o) ["url_map.csv"]) rows) ;;
             rendered_template ←
               lift (render_configuration env (conf_template o) (context o)
                       translations redirections);
             rendered_template ←
               _adjust_config_template env rendered_template;
             perform env
               (WriteConfiguration
                  (get_configuration_output_path env (output_folder o))
                  rendered_template))) as Hrest.
  { apply preserves_bind; [tc_solve|apply import_posts_languages|intros _].
    unfold _adjust_config_template.
    repeat invariant_step; try (intros ? H; exact H).
    apply preserves_for_each; [tc_solve|]. intros tag.
    apply add_tag_redirect_invariant; try tc_solve; intros; intros H;
      exact H. }
  eapply (Hrest (reset_attributes s)); [exact Hrun|].
  intros l Hl. by apply elem_of_empty in Hl.
Qed.

End RunInvariants.



Lemma no_downloads_fetches_nothing_witness :
  let run :=
    _execute Sample.env Sample.options_no_downloads Sample.wp Sample.blog
      Sample.empty_state in
  ∃ new, events run.2 = events Sample.empty_state ++ new
         ∧ Forall not_fetched new.
Proof.
  intros run.
  apply (no_downloads_fetches_nothing Sample.env
           Sample.options_no_downloads Sample.wp Sample.blog
           Sample.empty_state run.1 run.2).
  - reflexivity.
  - vm_compute. reflexivity.
Defined.

Lemma import_posts_append_only_witness :
  let s := set_url_map (Dict.set "http://old.example/" "/old.html")
             Sample.empty_state in
  let run :=
    import_posts Sample.env Sample.options Sample.wp Sample.blog s in
  is_Some (Dict.get "http://old.example/" (url_map run.2)).
Proof.
  intros s run.
  destruct (import_posts_append_only Sample.env Sample.options Sample.wp
              Sample.blog s run.1 run.2) as [Hurl _].
  - vm_compute. reflexivity.
  - apply Hurl. vm_compute. by eexists.
Defined.


Lemma execute_languages_witness :
  let run :=
    _execute Sample.env bilingual_options Sample.wp bilingual_blog
      Sample.empty_state in
  "fr" ∈ extra_languages run.2
  ∧ "fr" ≠ EmptyString ∧ "fr" ≠ default_lang bilingual_options.
Proof.
  intros run.
  assert ("fr" ∈ extra_languages run.2) as Hin.
  { vm_compute. reflexivity. }
  split; [exact Hin|].
  apply (execute_languages Sample.env bilingual_options Sample.wp
           bilingual_blog Sample.empty_state run.1 run.2 "fr").
  - vm_compute. reflexivity.
  - exact Hin.
Defined.

#[local] Instance only_logs_preorder : PreOrder only_logs.
Proof.
  split.
  - intros s. split_and!; reflexivity.
  - intros s1 s2 s3 (?&?&?&?) (?&?&?&?).
    split_and!; try congruence. by etrans.
Qed.

Ltac only_logs_side :=
  intros; unfold only_logs; split_and!;
  first
    [ reflexivity
    | apply appends_same; reflexivity
    | eapply appends_emit; [|reflexivity]; simpl; done ].

Ltac only_logs_step :=
  lazymatch goal with
  | |- preserves _ (mbind _ _) => apply preserves_bind; [tc_solve| |intros ?]
  | |- preserves _ (ret _) => apply preserves_ret; tc_solve
  | |- preserves _ (raise _) => apply preserves_raise; tc_solve
  | |- preserves _ (gets _) => apply preserves_gets; tc_solve
  | |- preserves _ (modify _) => apply preserves_modify; only_logs_side
  | |- preserves _ (log _ _) => apply preserves_modify; only_logs_side
  end.

Section Skipped.
Context (env : Env) (o : Options).

Lemma import_item_dated_skipped item ns title link out_folder slug
  description dt post_date :
  skipped o ns item = true →
  preserves only_logs
    (import_item_dated env o item ns title link out_folder slug description
       dt post_date).
Proof.
  unfold skipped, item_status, item_content, import_item_dated.
  set (status := get_text_tag_str (Some item) (qname ns "status") "publish").
  set (content := get_text_tag_str (Some item) _ "").
  intros Hskip.
  apply preserves_bind; [tc_solve|apply preserves_gets; tc_solve|intros tz].
  apply preserves_bind; [tc_solve| |intros _].
  { destruct (tzinfo dt), tz; repeat only_logs_step. }
  case_bool_decide as Htrash; [repeat only_logs_step|].
  simpl in Hskip.
  assert (∀ tags (is_draft is_private : bool),
            is_private && exclude_privates o
            || is_draft && exclude_drafts o
            || PyStr.is_empty (PyStr.strip content)
               && negb (import_empty_items o) = true →
            preserves only_logs
              ('(tags, categories) ← category_loop item tags;
               let tags :=
                 if PyStr.contains "$latex" content
                 then tags ++ [Some "mathjax"] else tags in
               match find_post_format item ns with
               | Raise e => raise e
               | Ok post_format =>
                 if is_draft && exclude_drafts o then
                   log Notice (DraftNotImported title) ;; ret None
                 else if is_private && exclude_privates o then
                   log Notice (PrivateNotImported title) ;; ret None
                 else if negb (PyStr.is_empty (PyStr.strip content))
                         || import_empty_items o
                 then
                   modify (set_url_map
                     (Dict.set link
                        (PyStr.replace PosixPath.sep "/"
                           (site_url o +:+ PyStr.rstrip_chars "/" out_folder
                            +:+ "/" +:+ slug +:+ ".html")))) ;;
                   let content_translations :=
                     if opt_separate_qtranslate_content o
                     then separate_qtranslate_content content
                     else [(EmptyString, content)] in
                   written ←
                     write_translations env o title slug out_folder status
                       post_date
                       (let excerpt :=
                          get_text_tag (Some item)
                            "{http://wordpress.org/export/1.2/excerpt/}encoded"
                            None in
                        if truthy excerpt then excerpt else None)
                       post_format description categories
                       content_translations tags;
                   if written : bool then ret (Some (out_folder, slug))
                   else ret None
                 else
                   log Warn (NoContent title) ;; ret None
               end)) as Hrest.
  { intros tags is_draft is_private Hcond.
    apply preserves_bind; [tc_solve| |intros [tags' categories]].
    { unfold category_loop. repeat only_logs_step. }
    destruct (find_post_format item ns) as [post_format|e];
      cbn beta iota zeta; [|only_logs_step].
    destruct (is_draft && exclude_drafts o) eqn:Hd;
      [repeat only_logs_step|].
    destruct (is_private && exclude_privates o) eqn:Hp;
      [repeat only_logs_step|].
    simpl in Hcond. apply andb_true_iff in Hcond as [He Hi].
    rewrite He. apply negb_true_iff in Hi. rewrite Hi. simpl.
    repeat only_logs_step. }
  assert (status ≠ "private" ∨ status ≠ "publish") as Hne.
  { destruct (decide (status = "private")) as [->|]; [by right|by left]. }
  repeat case_bool_decide; try done; try (by destruct Hne);
    apply Hrest; clear Hrest;
    destruct (exclude_privates o), (exclude_drafts o),
      (PyStr.is_empty (PyStr.strip content)), (import_empty_items o);
    simpl in *; done.
Qed.

Lemma replace_sep s : PyStr.replace PosixPath.sep "/" s = s.
Proof.
  unfold PyStr.replace, PyStr.replace_count, PosixPath.sep. simpl.
  induction s as [|c s IH]; [done|].
  cbn [PyStr.replace_go PyStr.startswith fmap option_fmap option_map
       PyStr.len Nat.sub].
  destruct (Ascii.eqb "/" c) eqn:E.
  - apply Ascii.eqb_eq in E as <-.
    change (PyStr.len "/" - 1) with 0. by rewrite IH.
  - by rewrite IH.
Qed.

Lemma write_translations_all_tags title slug out_folder status post_date
  excerpt post_format description categories content_translations tags :
  preserves (unchanged all_tags)
    (write_translations env o title slug out_folder status post_date excerpt
       post_format description categories content_translations tags).
Proof.
  revert tags.
  induction content_translations as [|[lang content] rest IH]; intros tags;
    simpl; preserves_auto. apply IH.
Qed.

Lemma collect_categories_all_tags item all tags :
  acc_all_tags
    (collect_categories item
       {| acc_all_tags := all; acc_tags := tags; acc_categories := [] |})
  = all ∪ category_texts (findall "category" item).
Proof.
  unfold collect_categories.
  by destruct (collect_categories_frame (findall "category" item)
                 {| acc_all_tags := all; acc_tags := tags;
                    acc_categories := [] |}
                 {| acc_all_tags := all; acc_tags := tags;
                    acc_categories := [] |} eq_refl eq_refl)
    as (_ & _ & H & _).
Qed.

(** What a successful [import_item] has done. *)
Lemma import_item_ok_inv item ns folder s p s' :
  import_item env o item ns folder s = (Ok (Some p), s') →
  skipped o ns item = false
  ∧ ∃ link,
      get_text_tag (Some item) "link" None = Some link
      ∧ derive_slug env o item ns link folder = Some p
      ∧ url_map s'
        = Dict.set link
            (site_url o +:+ PyStr.rstrip_chars "/" p.1 +:+ "/" +:+ p.2
             +:+ ".html") (url_map s)
      ∧ all_tags s' = all_tags s ∪ category_texts (findall "category" item).
Proof.
  unfold import_item, skipped, item_status, item_content.
  destruct (get_text_tag (Some item) "link" None) as [link|]; [|done].
  destruct (derive_slug env o item ns link folder) as [[f sl]|] eqn:Hds;
    [|by intros ?%log_then_none_fails].
  intros Hrun.
  apply bind_ok_inv in Hrun as ([dt post_date] & s1 & Hdate & Hrun).
  assert (url_map s1 = url_map s ∧ all_tags s1 = all_tags s) as [Hu1 Ht1].
  { destruct (to_datetime env _);
      cbv [mbind M_bind bind log emit modify ret] in Hdate;
      injection Hdate as <- <- <-; done. }
  unfold import_item_dated in Hrun.
  apply bind_ok_inv in Hrun as (tz & s2 & [= <- <-] & Hrun).
  apply bind_ok_inv in Hrun as ([] & s3 & Htz & Hrun).
  assert (url_map s3 = url_map s1 ∧ all_tags s3 = all_tags s1) as [Hu3 Ht3].
  { destruct (tzinfo dt), (timezone s1);
      cbv [modify ret] in Htz; injection Htz as <-; done. }
  cbv zeta in Hrun.
  set (status := get_text_tag_str (Some item) (qname ns "status") "publish")
    in *.
  set (content := get_text_tag_str (Some item) _ "") in *.
  case_bool_decide as Htrash; [by apply log_then_none_fails in Hrun|].
  assert (∃ tags0 (is_draft is_private : bool),
            (if bool_decide (status = "private")
             then ([Some "private"], false, true)
             else if bool_decide (status ≠ "publish")
                  then ([Some "draft"], true, false)
                  else ([], false, false))
            = (tags0, is_draft, is_private)
            ∧ is_private = bool_decide (status = "private")
            ∧ is_draft = bool_decide (status ≠ "private")
                         && bool_decide (status ≠ "publish"))
    as (tags0 & is_draft & is_private & Hcase & -> & ->).
  { repeat case_bool_decide; try done; eauto 10. }
  rewrite Hcase in Hrun. clear Hcase.
  apply bind_ok_inv in Hrun as ([tags' categories] & s4 & Hcat & Hrun).
  assert (url_map s4 = url_map s3
          ∧ all_tags s4
            = all_tags s3 ∪ category_texts (findall "category" item))
    as [Hu4 Ht4].
  { cbv [category_loop mbind M_bind bind gets modify ret] in Hcat.
    injection Hcat as _ _ <-. split; [done|].
    apply collect_categories_all_tags. }
  cbv zeta in Hrun.
  destruct (find_post_format item ns) as [post_format|]; [|done].
  destruct (_ && bool_decide _ && exclude_drafts o) eqn:Hd;
    [by apply log_then_none_fails in Hrun|].
  destruct (bool_decide _ && exclude_privates o) eqn:Hp;
    [by apply log_then_none_fails in Hrun|].
  destruct (PyStr.is_empty (PyStr.strip content)) eqn:He;
    destruct (import_empty_items o) eqn:Hi; simpl in Hrun;
    try (by apply log_then_none_fails in Hrun).
  all: split; [done|].
  all: exists link; split; [done|].
  all: apply bind_ok_inv in Hrun as ([] & s5 & [= <-] & Hrun).
  all: apply bind_ok_inv in Hrun as (written & s6 & Hwr & Hrun).
  all: assert (Hu6 := Hwr); apply write_translations_url_map in Hu6.
  all: assert (Ht6 := Hwr); apply write_translations_all_tags in Ht6.
  all: unfold unchanged in Hu6, Ht6.
  all: destruct written; inversion Hrun; subst.
  all: rewrite Hu6, Ht6; simpl.
  all: rewrite replace_sep, Hu4, Hu3, Hu1, Ht4, Ht3, Ht1.
  all: done.
Qed.

(** X10: an item in the trash, an excluded draft or private post, or an
    item with blank content (unless empty items are asked for) is not
    imported: [import_item] does not return a folder and slug, registers
    nothing in the URL map or in [links], and writes nothing but log
    entries. *)
Theorem import_item_skipped item ns folder (s : State) r s' :
  skipped o ns item = true →
  import_item env o item ns folder s = (r, s') →
  (∀ p, r ≠ Ok (Some p))
  ∧ url_map s' = url_map s
  ∧ links s' = links s
  ∧ ∃ new, events s' = events s ++ new ∧ Forall is_log new.
Proof.
  intros Hskip Hrun. split.
  - intros p ->. apply import_item_ok_inv in Hrun as [Hno _]. congruence.
  - assert (preserves only_logs (import_item env o item ns folder)) as H.
    { unfold import_item.
      destruct (get_text_tag (Some item) "link" None) as [link|];
        [|only_logs_step].
      destruct (derive_slug env o item ns link folder) as [[f sl]|];
        [|repeat only_logs_step].
      apply preserves_bind; [tc_solve| |intros [dt post_date]].
      - destruct (to_datetime env _); repeat only_logs_step.
      - by apply import_item_dated_skipped. }
    destruct (H _ _ _ Hrun) as (? & ? & _ & ?). done.
Qed.

(** X11: when [import_item] reports an item as imported, the folder and
    slug it returns are the ones derived from the item's link, the link
    is registered in the URL map with the address
    SITE_URL + folder + "/" + slug + ".html" as the only change to the
    map, and the item was not one to skip. *)
Theorem import_item_imported item ns folder (s : State) out_folder slug s' :
  import_item env o item ns folder s = (Ok (Some (out_folder, slug)), s') →
  skipped o ns item = false
  ∧ ∃ link,
      get_text_tag (Some item) "link" None = Some link
      ∧ derive_slug env o item ns link folder = Some (out_folder, slug)
      ∧ url_map s'
        = Dict.set link
            (site_url o +:+ PyStr.rstrip_chars "/" out_folder +:+ "/" +:+
             slug +:+ ".html") (url_map s).
Proof.
  intros Hrun.
  apply import_item_ok_inv in Hrun as (Hskip & link & Hl & Hd & Hu & _).
  split; [done|]. exists link. done.
Qed.

End Skipped.

Lemma import_item_skipped_witness :
  let item :=
    Sample.entry "post" "7" "http://foo.com/2012/09/01/hello-world/" "trash"
      "2012-09-01 10:00:00" "Some text" [] in
  let run :=
    import_item Sample.env Sample.options item Sample.wp "posts"
      Sample.empty_state in
  (∀ p, run.1 ≠ Ok (Some p))
  ∧ url_map run.2 = url_map Sample.empty_state
  ∧ links run.2 = links Sample.empty_state
  ∧ ∃ new, events run.2 = events Sample.empty_state ++ new
           ∧ Forall is_log new.
Proof.
  intros item run.
  apply (import_item_skipped Sample.env Sample.options item Sample.wp
           "posts" Sample.empty_state run.1 run.2).
  - vm_compute. reflexivity.
  - vm_compute. reflexivity.
Defined.

Lemma import_item_imported_witness :
  let item :=
    Sample.entry "post" "7" "http://foo.com/2012/09/01/hello-world/"
      "publish" "2012-09-01 10:00:00" "Some text" [] in
  let run :=
    import_item Sample.env Sample.options item Sample.wp "posts"
      Sample.empty_state in
  url_map run.2
  = [("http://foo.com/2012/09/01/hello-world/",
      "http://foo.com/posts/2012/09/01/hello-world.html")].
Proof.
  intros item run.
  destruct (import_item_imported Sample.env Sample.options item Sample.wp
              "posts" Sample.empty_state "posts/2012/09/01" "hello-world"
              run.2) as (_ & link & Hlink & _ & Hmap).
  - vm_compute. reflexivity.
  - injection Hlink as <-. rewrite Hmap. vm_compute. reflexivity.
Defined.

(** Read a run [c s = (r, s')] as an instance of [preserves R c]. *)
Ltac as_preserves R H :=
  revert H;
  match goal with
  | |- ?c ?s = (?r, ?s') → _ => generalize s, r, s'; change (preserves R c)
  end.

Section Tags.
Context (env : Env) (o : Options).

(** X12: the categories and tags of every item that gets past the trash
    check are collected in [all_tags], whatever becomes of the item: also
    those of an excluded draft or private post, of an item with blank
    content and of an item whose import fails later. *)
Theorem import_item_collects_tags item ns folder link (s : State) r s' :
  get_text_tag (Some item) "link" None = Some link →
  is_Some (derive_slug env o item ns link folder) →
  item_status ns item ≠ "trash" →
  import_item env o item ns folder s = (r, s') →
  all_tags s' = all_tags s ∪ category_texts (findall "category" item).
Proof.
  unfold import_item, item_status. intros -> [[f sl] ->] Htrash Hrun.
  apply bind_inv in Hrun
    as [([dt post_date] & s1 & Hdate & Hrun)|(e & Hdate & _)];
    [|destruct (to_datetime env _);
      cbv [mbind M_bind bind log emit modify ret] in Hdate; done].
  assert (all_tags s1 = all_tags s) as Ht1.
  { destruct (to_datetime env _);
      cbv [mbind M_bind bind log emit modify ret] in Hdate;
      injection Hdate as <- <- <-; done. }
  unfold import_item_dated in Hrun.
  apply bind_inv in Hrun as [(tz & s2 & [= <- <-] & Hrun)|(e & [=] & _)].
  apply bind_inv in Hrun as [([] & s3 & Htz & Hrun)|(e & Htz & _)];
    [|destruct (tzinfo dt), (timezone s1); done].
  assert (all_tags s3 = all_tags s1) as Ht3.
  { destruct (tzinfo dt), (timezone s1);
      cbv [modify ret] in Htz; injection Htz as <-; done. }
  cbv zeta in Hrun.
  rewrite bool_decide_eq_false_2 in Hrun by done.
  destruct (if bool_decide _ then _ else _) as [[tags0 is_draft] is_private].
  apply bind_inv in Hrun
    as [([tags' categories] & s4 & Hcat & Hrun)|(e & [=] & _)].
  assert (all_tags s4
          = all_tags s3 ∪ category_texts (findall "category" item)) as Ht4.
  { cbv [category_loop mbind M_bind bind gets modify ret] in Hcat.
    injection Hcat as _ _ <-. apply collect_categories_all_tags. }
  assert (unchanged all_tags s4 s') as Ht5.
  { as_preserves (unchanged all_tags) Hrun. cbv zeta. preserves_auto.
    apply write_translations_all_tags. }
  unfold unchanged in Ht5. congruence.
Qed.

End Tags.

Lemma import_item_collects_tags_witness :
  let item :=
    Sample.entry "post" "7" "http://foo.com/2012/09/01/hello-world/" "draft"
      "2012-09-01 10:00:00" "Some text"
      [Sample.category "post_tag" "rocq"] in
  let o := options_exclude_drafts in
  let run :=
    import_item Sample.env o item Sample.wp "posts" Sample.empty_state in
  run.1 = Ok None
  ∧ all_tags run.2
    = all_tags Sample.empty_state
      ∪ category_texts (findall "category" item).
Proof.
  intros item o run. split; [vm_compute; reflexivity|].
  apply (import_item_collects_tags Sample.env o item Sample.wp "posts"
           "http://foo.com/2012/09/01/hello-world/" Sample.empty_state
           run.1 run.2).
  - vm_compute. reflexivity.
  - vm_compute. by eexists.
  - vm_compute. discriminate.
  - vm_compute. reflexivity.
Defined.
Section Translations.
Context (env : Env) (o : Options).

Lemma repeated_categories_S k categories :
  (Some <$> categories) ++ repeated_categories k categories
  = repeated_categories (S k) categories.
Proof. reflexivity. Qed.

Lemma version_events_shift title slug out_folder status post_date excerpt
  post_format description categories tags links i version :
  version_events env o title slug out_folder status post_date excerpt
    post_format description categories tags links (S i) version
  = version_events env o title slug out_folder status post_date excerpt
      post_format description categories (tags ++ (Some <$> categories))
      links i version.
Proof.
  unfold version_events.
  destruct (transform_content o _ _) as [[content extension]|]; [|done].
  destruct (translation_file env o slug extension _); [|done].
  by rewrite <- app_assoc, repeated_categories_S.
Qed.

Lemma perform_inv e (s : State) r s' :
  perform env e s = (r, s') →
  s' = set_events (λ l, l ++ [e]) s
  ∧ match r with
    | Ok _ => raises env (events s) e = None
    | Raise exn => raises env (events s) e = Some exn
    end.
Proof.
  unfold perform, mbind, M_bind, bind, gets, emit, modify, ret, raise.
  simpl. destruct (raises env (events s) e); by intros [= <- <-].
Qed.

(** The name of the content file is settled without any write; a
    language other than the default one joins the language set. *)
Lemma content_filename_run slug extension lang name (s : State) :
  translation_file env o slug extension lang = Ok name →
  ∃ s1,
    (if negb (PyStr.is_empty lang) then
       if bool_decide (lang = default_lang o)
       then ret (slug +:+ "." +:+ extension)
       else
         candidate ←
           lift (get_translation_candidate env
                   (slug +:+ "." +:+ extension) lang);
         modify (set_extra_languages (λ l, {[ lang ]} ∪ l)) ;;
         ret candidate
     else ret (slug +:+ "." +:+ extension)) s
    = (Ok name, s1)
    ∧ events s1 = events s ∧ links s1 = links s.
Proof.
  unfold translation_file. destruct (PyStr.is_empty lang); simpl.
  { intros [= <-]. by exists s. }
  case_bool_decide; simpl.
  { intros [= <-]. by exists s. }
  intros ->. by eexists.
Qed.

(** X13: the loop over the language versions of an item, when every
    version can be transformed and named.  Each version makes two calls,
    in the order of the versions: the metadata, written for every version
    to the same path [<slug>.meta], so that each version overwrites the
    metadata of the one before, then the content file of the version,
    with the table of links as it stands.  The metadata of the version at
    position i (from 0) carries the item's tags followed by i + 1 copies
    of its categories, because each round hands its extended tag list on
    to the next.  The loop returns normally only after all these calls,
    and then with success; it ends with an exception exactly when one of
    the calls raises, and that call is the last one made. *)
Theorem write_translations_events title slug out_folder status post_date
  excerpt post_format description categories content_translations tags
  (s : State) r s' :
  writable env o slug post_format content_translations →
  write_translations env o title slug out_folder status post_date excerpt
    post_format description categories content_translations tags s
  = (r, s') →
  ∃ new,
    events s' = events s ++ new
    ∧ links s' = links s
    ∧ match r with
      | Ok result =>
          result = true
          ∧ new
            = concat
                (imap
                   (version_events env o title slug out_folder status
                      post_date excerpt post_format description categories
                      tags (links s))
                   content_translations)
      | Raise exn =>
          ∃ before call,
            new = before ++ [call]
            ∧ new `prefix_of`
                concat
                  (imap
                     (version_events env o title slug out_folder status
                        post_date excerpt post_format description
                        categories tags (links s))
                     content_translations)
            ∧ raises env (events s ++ before) call = Some exn
      end.
Proof.
  intros Hw. revert tags s.
  induction Hw as [|[lang content] rest (c & ext & name & Hc & Hname) _ IH];
    intros tags s Hrun.
  { injection Hrun as <- <-. exists []. by rewrite app_nil_r. }
  simpl in Hc, Hname. simpl in Hrun. rewrite Hc in Hrun.
  apply bind_inv in Hrun as [(a & s1 & Ha & Hrun)|(e & He & ->)];
    destruct (content_filename_run slug ext lang name s Hname)
      as (s1' & Hx & Hev1 & Hlinks1).
  2:{ exfalso. pose proof (eq_trans (eq_sym He) Hx). done. }
  assert (a = name ∧ s1 = s1') as [-> ->].
  { pose proof (eq_trans (eq_sym Ha) Hx) as [= -> ->]. done. }
  set (meta := WriteMetadata _ _ _ _ _ _ _) in Hrun.
  assert (version_events env o title slug out_folder status post_date
            excerpt post_format description categories tags (links s) 0
            (lang, content)
          = [meta;
             WriteContent (PosixPath.join (output_folder o) [out_folder; name])
               c (links s)]) as Hfirst.
  { unfold version_events. simpl. rewrite Hc, Hname. subst meta.
    unfold repeated_categories. simpl. by rewrite app_nil_r. }
  cbn [imap concat]. rewrite Hfirst. clear Hfirst.
  apply bind_inv in Hrun as [([] & s2 & Hmeta & Hrun)|(e & Hmeta & ->)];
    apply perform_inv in Hmeta as [-> Hmeta].
  2:{ exists [meta]. simpl. rewrite Hev1. split; [done|].
      split; [done|]. exists [], meta.
      split; [done|]. split; [|by rewrite app_nil_r, <- Hev1].
      eexists. reflexivity. }
  apply bind_inv in Hrun as [(l & s3 & [= <- <-] & Hrun)|(e & [=] & _)].
  simpl in Hrun. rewrite Hlinks1 in Hrun.
  set (body := WriteContent _ _ _) in *.
  apply bind_inv in Hrun as [([] & s4 & Hbody & Hrun)|(e & Hbody & ->)];
    apply perform_inv in Hbody as [-> Hbody]; simpl in Hbody.
  2:{ exists [meta; body]. simpl. rewrite Hev1, <- app_assoc.
      split; [done|]. split; [done|]. exists [meta], body.
      split; [done|]. split; [|by rewrite Hev1 in Hbody].
      eexists. reflexivity. }
  apply IH in Hrun as (new & Hev & Hlinks & Hr).
  simpl in Hev, Hlinks. rewrite Hev1, <- !app_assoc in Hev.
  exists (meta :: body :: new). split; [done|].
  split; [by rewrite Hlinks|].
  assert (imap
            (version_events env o title slug out_folder status post_date
               excerpt post_format description categories tags (links s) ∘ S)
            rest
          = imap
              (version_events env o title slug out_folder status post_date
                 excerpt post_format description categories
                 (tags ++ (Some <$> categories)) (links s))
              rest) as ->.
  { apply imap_ext. intros i x _. apply version_events_shift. }
  simpl in Hr. rewrite Hlinks1 in Hr.
  destruct r as [result|exn].
  - destruct Hr as [-> ->]. done.
  - destruct Hr as (before & call & -> & Hprefix & Hraise).
    exists (meta :: body :: before), call. split; [done|]. split.
    + simpl. by do 2 apply prefix_cons.
    + simpl in Hraise. rewrite Hev1, <- !app_assoc in Hraise. done.
Qed.

End Translations.

Lemma write_translations_events_witness :
  let run :=
    write_translations Sample.env bilingual_options "Hello" "hello-world"
      "posts/2012/09/01" "publish" None None (Some "wp") "" ["category"]
      [("en", "Hello"); ("fr", "Bonjour")] [Some "rocq"]
      Sample.empty_state in
  ∃ new,
    events run.2 = events Sample.empty_state ++ new
    ∧ links run.2 = links Sample.empty_state
    ∧ run.1 = Ok true
    ∧ new
      = [WriteMetadata "new_site/posts/2012/09/01/hello-world.meta" "Hello"
           "hello-world" None "" [Some "rocq"; Some "category"]
           [("wp-status", "publish")];
         WriteContent "new_site/posts/2012/09/01/hello-world.md" "Hello" [];
         WriteMetadata "new_site/posts/2012/09/01/hello-world.meta" "Hello"
           "hello-world" None ""
           [Some "rocq"; Some "category"; Some "category"]
           [("wp-status", "publish")];
         WriteContent "new_site/posts/2012/09/01/hello-world.fr.md"
           "Bonjour" []].
Proof.
  intros run.
  assert (run.1 = Ok true) as Hok by (vm_compute; reflexivity).
  destruct (write_translations_events Sample.env bilingual_options
              "Hello" "hello-world" "posts/2012/09/01" "publish" None None
              (Some "wp") "" ["category"]
              [("en", "Hello"); ("fr", "Bonjour")] [Some "rocq"]
              Sample.empty_state run.1 run.2) as (new & Hev & Hlinks & H).
  - repeat constructor; vm_compute; by eexists _, _, _.
  - vm_compute. reflexivity.
  - exists new. split; [exact Hev|]. split; [exact Hlinks|].
    split; [exact Hok|]. rewrite Hok in H. destruct H as [_ ->].
    vm_compute. reflexivity.
Defined.

Section Records.
Context (env : Env) (o : Options).

Lemma import_item_posts_pages item ns folder :
  preserves (unchanged posts_pages) (import_item env o item ns folder).
Proof.
  apply import_item_invariant; try tc_solve; intros; reflexivity.
Qed.

(** X14: an item that is not an attachment is imported as a post, in
    the folder "posts", when its type is "post", and as a page, in the
    folder "stories", otherwise.  When [process_item] completes, the
    item's id is a number and [import_item] has returned; what is
    recorded follows its result.  If it returned a folder and a slug,
    which are the ones derived from the item's link and that folder, the
    item is recorded under its id with its kind, that folder and that
    slug, and this is the only change after the import; if it returned
    nothing, nothing is recorded. *)
Theorem process_item_records ns item (s s' : State) :
  let post_type :=
    get_text_tag_str (Some item) (qname ns "post_type") "post" in
  let is_post := bool_decide (post_type = "post") in
  let root := if is_post then "posts" else "stories" in
  let kind := if is_post then "post" else "page" in
  post_type ≠ "attachment" →
  process_item env o ns item s = (Ok tt, s') →
  ∃ post_id result s1,
    py_int env (get_text_tag_str (Some item) (qname ns "post_id") "0")
    = Some post_id
    ∧ import_item env o item ns root s = (Ok result, s1)
    ∧ match result with
      | Some (out_folder, slug) =>
          (∃ link,
             get_text_tag (Some item) "link" None = Some link
             ∧ derive_slug env o item ns link root = Some (out_folder, slug))
          ∧ s' = set_posts_pages
                   (Dict.set post_id (kind, out_folder, slug)) s1
          ∧ posts_pages s'
            = Dict.set post_id (kind, out_folder, slug) (posts_pages s)
      | None => s' = s1 ∧ posts_pages s' = posts_pages s
      end.
Proof.
  intros post_type is_post root kind Htype Hrun. unfold process_item in Hrun.
  fold post_type in Hrun.
  apply bind_ok_inv in Hrun as (post_id & s1 & Hid & Hrun).
  unfold to_int in Hid.
  destruct (py_int env _) as [n|] eqn:Hn; [|done].
  injection Hid as <- <-.
  rewrite bool_decide_eq_false_2 in Hrun by done.
  apply bind_ok_inv in Hrun as ([kind' result] & s2 & Himp & Hrun).
  assert (import_item env o item ns root s = (Ok result, s2) ∧ kind' = kind)
    as [Hitem ->].
  { subst root kind is_post. case_bool_decide as Hpost.
    - apply bind_ok_inv in Himp as (r & s1 & Hitem & [= <- <- <-]).
      by rewrite Hpost.
    - by apply bind_ok_inv in Himp as (r & s1 & Hitem & [= <- <- <-]). }
  pose proof (import_item_posts_pages _ _ _ _ _ _ Hitem) as Hpp.
  unfold unchanged in Hpp.
  exists n, result, s2. split; [done|]. split; [done|].
  destruct result as [[out_folder slug]|].
  - injection Hrun as <-. split; [|split; [done|simpl; by rewrite Hpp]].
    apply import_item_ok_inv in Hitem as (_ & link & Hlink & Hd & _).
    by exists link.
  - by injection Hrun as <-.
Qed.

End Records.

Lemma process_item_records_witness :
  let item :=
    Sample.entry "nav_menu_item" "12" "http://foo.com/about/" "publish"
      "2012-09-01 10:00:00" "About us" [] in
  let run :=
    process_item Sample.env Sample.options Sample.wp item
      Sample.empty_state in
  import_item Sample.env Sample.options item Sample.wp "stories"
    Sample.empty_state
  = (Ok (Some ("stories", "about")),
     set_posts_pages (λ _, []) run.2)
  ∧ posts_pages run.2 = [(12%Z, ("page", "stories", "about"))].
Proof.
  intros item run.
  destruct (process_item_records Sample.env Sample.options Sample.wp item
              Sample.empty_state run.2)
    as (id & result & s1 & Hid & Himp & H).
  - vm_compute. discriminate.
  - vm_compute. reflexivity.
  - split; vm_compute; reflexivity.
Defined.

#[local] Instance records_kept_preorder : PreOrder records_kept.
Proof.
  split.
  - intros s. split_and!; reflexivity.
  - intros s1 s2 s3 (?&?&?) (?&?&?). split_and!; try congruence. by etrans.
Qed.

Section Sidecars.
Context (env : Env) (o : Options).

Lemma assign_attachments_records_kept post_id :
  preserves records_kept (assign_attachments env o post_id).
Proof.
  unfold assign_attachments, write_attachments_info.
  apply preserves_bind; [tc_solve|apply preserves_gets; tc_solve|intros a].
  apply preserves_bind; [tc_solve|apply preserves_gets; tc_solve|intros p].
  destruct (Dict.get post_id p) as [[[kind f] sl]|];
    [apply preserves_perform; [tc_solve|]|apply preserves_modify];
    intros st; split_and!; try reflexivity;
    (eapply appends_emit; [|reflexivity]; done).
Qed.

(** X15: when [import_posts] completes, every post or page that was
    imported and has attachments gets its sidecar: the file
    <output>/<folder>/<slug>.attachments.json is written with the files
    of all the attachments recorded under its id. *)
Theorem import_posts_sidecars ns channel (s s' : State) id kind folder slug
  files :
  import_posts env o ns channel s = (Ok tt, s') →
  Dict.get id (posts_pages s') = Some (kind, folder, slug) →
  Dict.get id (attachments s') = Some files →
  WriteAttachmentsInfo
    (PosixPath.join (output_folder o)
       [folder; slug +:+ ".attachments.json"]) files ∈ events s'.
Proof.
  unfold import_posts. intros Hrun Hpost Hfiles.
  apply bind_ok_inv in Hrun as ([] & s1 & _ & Hrun).
  apply bind_ok_inv in Hrun as ([] & s2 & _ & Hrun).
  apply bind_ok_inv in Hrun as ([] & s3 & _ & Hrun).
  apply bind_ok_inv in Hrun as (atts & s4 & [= <- <-] & Hrun).
  pose proof (preserves_for_each records_kept _ _
                (assign_attachments_records_kept) _ _ _ Hrun)
    as (Hpp & Hat & _).
  rewrite Hpp in Hpost. rewrite Hat in Hfiles.
  destruct (for_each_elem records_kept (assign_attachments env o)
              (Dict.keys (attachments s3)) id s3 s'
              assign_attachments_records_kept Hrun)
    as (sa & sb & (Hpa & Haa & _) & Hbody & (_ & _ & n & Hev & _)).
  { apply dict_keys_get. by rewrite Hfiles. }
  unfold assign_attachments, write_attachments_info in Hbody.
  apply bind_ok_inv in Hbody as (a & sa1 & [= <- <-] & Hbody).
  apply bind_ok_inv in Hbody as (p & sa2 & [= <- <-] & Hbody).
  rewrite Hpa, Haa, Hpost, Hfiles in Hbody.
  apply perform_ok_inv in Hbody as ->.
  rewrite Hev. simpl. apply elem_of_app. left. apply elem_of_app. right.
  by apply list_elem_of_singleton.
Qed.

End Sidecars.

Lemma import_posts_sidecars_witness :
  let run :=
    import_posts Sample.env Sample.options Sample.wp Sample.blog
      Sample.empty_state in
  WriteAttachmentsInfo "new_site/posts/2012/09/01/hello-world.attachments.json"
    [(9%Z, ["/wp-content/uploads/2012/09/a.jpg"])] ∈ events run.2.
Proof.
  intros run.
  apply (import_posts_sidecars Sample.env Sample.options Sample.wp
           Sample.blog Sample.empty_state run.2 7%Z "post"
           "posts/2012/09/01" "hello-world"
           [(9%Z, ["/wp-content/uploads/2012/09/a.jpg"])]).
  - vm_compute. reflexivity.
  - vm_compute. reflexivity.
  - vm_compute. reflexivity.
Defined.

Lemma append_inj_l (p a b : string) : p +:+ a = p +:+ b → a = b.
Proof.
  induction p as [|c p IH]; [done|].
  rewrite !append_cons. intros [= ?]. auto.
Qed.

Section Redirects.
Context (env : Env) (o : Options).

Lemma add_tag_redirect_keeps src_tag tag :
  preserves
    (keeps (λ s, Dict.get (site_url o +:+ "tag/" +:+ slugify env src_tag)
                   (url_map s)
                 = Some (site_link_tag env (slugify env src_tag))))
    (add_tag_redirect env o tag).
Proof.
  unfold add_tag_redirect. destruct tag as [tag|];
    [|apply preserves_raise; tc_solve].
  case_bool_decide; [|apply preserves_ret; tc_solve].
  apply preserves_modify. intros s Hs. simpl. rewrite dict_get_set.
  destruct (decide _) as [Heq|]; [|done].
  apply append_inj_l, append_inj_l in Heq. by rewrite Heq.
Qed.

Lemma add_tag_redirect_all_tags tag :
  preserves (unchanged all_tags) (add_tag_redirect env o tag).
Proof. unfold add_tag_redirect. preserves_auto. Qed.

(** Sorting by rank keeps the elements of the tag set. *)
Lemma elem_of_tag_order (tags : gset (option string)) tag :
  tag ∈ tags → tag ∈ tag_order env tags.
Proof.
  intros H. unfold tag_order. rewrite merge_sort_Permutation.
  by apply elem_of_elements.
Qed.

(** Writing the URL map and the configuration changes no attribute. *)
Lemma output_files_keep {A} (f : State → A) translations redirections
  (x : State) r s' :
  (∀ g s, f (set_events g s) = f s) →
  (perform env (url_map_file o x) ;;
   write_configuration env o translations redirections) x = (r, s') →
  f s' = f x.
Proof.
  intros Hf.
  assert (preserves (unchanged f)
            (perform env (url_map_file o x) ;;
             write_configuration env o translations redirections)) as H.
  { unfold write_configuration, _adjust_config_template.
    repeat (preserves_step; try (intros; unfold unchanged; apply Hf)). }
  apply H.
Qed.

(** X16: when a run completes, every tag in the tag set has its redirect
    in the URL map that is written: the old tag address
    SITE_URL + "tag/" + slug leads to the tag page of the new site,
    unless the two addresses are the same. *)
Theorem execute_tag_redirects ns channel (s s' : State) tag :
  let slug := slugify env tag in
  let src_url := site_url o +:+ "tag/" +:+ slug in
  _execute env o ns channel s = (Ok tt, s') →
  Some tag ∈ all_tags s' →
  src_url ≠ site_link_tag env slug →
  Dict.get src_url (url_map s') = Some (site_link_tag env slug).
Proof.
  intros slug src_url Hrun Htag Hne. rewrite execute_split in Hrun.
  destruct (import_and_redirect env o ns channel (reset_attributes s))
    as [[[translations redirections]|e] x] eqn:Hpre; [|done].
  assert (url_map s' = url_map x ∧ all_tags s' = all_tags x) as [-> Hsame].
  { split.
    - eapply (output_files_keep url_map); [done|exact Hrun].
    - eapply (output_files_keep all_tags); [done|exact Hrun]. }
  rewrite Hsame in Htag. clear Hrun Hsame.
  unfold import_and_redirect in Hpre.
  apply bind_ok_inv in Hpre as ([] & s1 & _ & Hpre).
  apply bind_ok_inv in Hpre as (languages & s2 & [= <- <-] & Hpre).
  apply bind_ok_inv in Hpre as (t & s2 & [_ ->]%lift_ok_inv & Hpre).
  apply bind_ok_inv in Hpre as (imported & s2 & [= <- <-] & Hpre).
  apply bind_ok_inv in Hpre as (rd & s2 & [_ ->]%lift_ok_inv & Hpre).
  apply bind_ok_inv in Hpre as (all & s2 & [= <- <-] & Hpre).
  apply bind_ok_inv in Hpre as ([] & s2 & Hloop & [= _ _ ->]).
  pose proof (preserves_for_each (unchanged all_tags) _ _
                add_tag_redirect_all_tags _ _ _ Hloop) as Hall.
  unfold unchanged in Hall. rewrite Hall in Htag.
  destruct (for_each_elem _ (add_tag_redirect env o)
              (tag_order env (all_tags s1))
              (Some tag) s1 x (add_tag_redirect_keeps tag) Hloop)
    as (sa & sb & _ & Hbody & Hkeep).
  { by apply elem_of_tag_order. }
  apply Hkeep. unfold add_tag_redirect in Hbody. fold slug src_url in Hbody.
  rewrite bool_decide_eq_true_2 in Hbody by done.
  injection Hbody as <-. simpl. rewrite dict_get_set.
  by rewrite decide_True.
Qed.

End Redirects.

Lemma execute_tag_redirects_witness :
  let run :=
    _execute Sample.env Sample.options Sample.wp Sample.blog
      Sample.empty_state in
  Dict.get "http://foo.com/tag/rocq" (url_map run.2)
  = Some "/categories/rocq.html".
Proof.
  intros run.
  apply (execute_tag_redirects Sample.env Sample.options Sample.wp
           Sample.blog Sample.empty_state run.2 "rocq").
  - vm_compute. reflexivity.
  - vm_compute. reflexivity.
  - vm_compute. discriminate.
Defined.

Lemma split_once_go_pair s cur a b :
  split_once_go ":" s cur = [a; b] →
  PyStr.rev cur +:+ s = a +:+ ":" +:+ b
  ∧ (PyStr.mem ":" cur = false → PyStr.mem ":" a = false).
Proof.
  revert cur. induction s as [|c s IH]; intros cur; simpl; [done|].
  destruct (Ascii.eqb_spec ":"%char c) as [<-|Hne].
  - intros [= <- <-]. split; [done|]. intros Hcur.
    unfold PyStr.rev. by rewrite mem_rev_onto, Hcur.
  - intros [Heq Hmem]%IH. split.
    + rewrite <- Heq. unfold PyStr.rev. simpl.
      by rewrite !rev_onto_append.
    + intros Hcur. apply Hmem. simpl. rewrite Hcur.
      destruct (Ascii.eqb_spec c ":"%char) as [->|]; done.
Qed.

Lemma split_once_go_single s cur a :
  split_once_go ":" s cur = [a] → PyStr.mem ":" s = false.
Proof.
  revert cur. induction s as [|c s IH]; intros cur; simpl; [done|].
  destruct (Ascii.eqb_spec ":"%char c) as [<-|Hne]; [done|].
  intros ?%IH. destruct (Ascii.eqb_spec c ":"%char) as [->|]; done.
Qed.

Lemma split_once_go_length s cur :
  length (split_once_go ":" s cur) = 1 ∨ length (split_once_go ":" s cur) = 2.
Proof.
  revert cur. induction s as [|c s IH]; intros cur; simpl; [by left|].
  destruct (Ascii.eqb ":" c); [by right|apply IH].
Qed.

Lemma credentials_given options value :
  raw_download_auth options = Some value →
  credentials options
  = match split_once ":" value with
    | [username; password] => Some (Some (username, password))
    | _ => None
    end.
Proof. unfold credentials. by intros ->. Qed.

(** X17: [_read_options] accepts a [--download-auth] value exactly when
    it holds a colon, and cuts it at the first one: the user name is the
    text before the first colon, the password everything after it, colons
    included.  A value without a colon makes it give up. *)
Theorem read_options_credentials options args credentials :
  raw_download_auth options = Some credentials →
  match _read_options options args with
  | ReadDone settings _ =>
      ∃ username password,
        credentials = username +:+ ":" +:+ password
        ∧ PyStr.mem ":" username = false
        ∧ set_auth settings = Some (username, password)
  | ReadFailed => PyStr.mem ":" credentials = false
  | ReadRaise _ => True
  end.
Proof.
  intros Hauth. unfold _read_options. rewrite (credentials_given _ _ Hauth).
  destruct (positional_arguments options args) as [[[filename folder] rest]|e];
    [|done].
  unfold split_once.
  destruct (split_once_go_length credentials EmptyString) as [Hlen|Hlen];
    destruct (split_once_go ":" credentials EmptyString)
      as [|a [|b [|c l]]] eqn:Hsplit; try done.
  - by apply split_once_go_single in Hsplit.
  - apply split_once_go_pair in Hsplit as [Heq Hmem].
    exists a, b. split; [done|]. split; [by apply Hmem|done].
Qed.

Lemma read_options_credentials_witness :
  let options :=
    {| raw_output_folder := None; raw_squash_newlines := None;
       raw_exclude_drafts := None; raw_exclude_privates := None;
       raw_no_downloads := None; raw_include_empty_items := None;
       raw_download_auth := Some "joe:se:cret";
       raw_separate_qtranslate_content := None;
       raw_translations_pattern := None |} in
  match _read_options options ["export.xml"] with
  | ReadDone settings _ =>
      ∃ username password,
        "joe:se:cret" = username +:+ ":" +:+ password
        ∧ PyStr.mem ":" username = false
        ∧ set_auth settings = Some (username, password)
  | ReadFailed => PyStr.mem ":" "joe:se:cret" = false
  | ReadRaise _ => True
  end.
Proof.
  intros options.
  apply (read_options_credentials options ["export.xml"] "joe:se:cret").
  reflexivity.
Defined.

(** X18: the context [populate_context] builds has a base address that
    ends with a slash, whatever the channel's link is, the same address
    as SITE_URL, and a default language of at most two characters. *)
Theorem populate_context_base_url pattern ns channel context :
  populate_context pattern ns channel = Ok context →
  PyStr.endswith (BASE_URL context) "/" = true
  ∧ SITE_URL context = BASE_URL context
  ∧ PyStr.len (DEFAULT_LANG context) ≤ 2.
Proof.
  unfold populate_context.
  destruct (if PyStr.is_empty _ then _ else _) as [base_url|e]; [|done].
  intros [= <-]. cbn [BASE_URL SITE_URL DEFAULT_LANG]. split_and!.
  - destruct (PyStr.endswith base_url "/") eqn:E; simpl; [done|].
    apply endswith_app.
  - done.
  - destruct (get_text_tag_str (Some channel) "language" "en")
      as [|a [|b l]]; simpl; lia.
Qed.

Lemma populate_context_base_url_witness :
  let channel :=
    Elem "channel" None []
      [Sample.leaf "link" "http://foo.com/blog";
       Sample.leaf "language" "en-US"] in
  ∃ context,
    populate_context "{path}.{lang}.{ext}" Sample.wp channel = Ok context
    ∧ PyStr.endswith (BASE_URL context) "/" = true
    ∧ SITE_URL context = BASE_URL context
    ∧ PyStr.len (DEFAULT_LANG context) ≤ 2.
Proof.
  intros channel. eexists. split; [vm_compute; reflexivity|].
  apply (populate_context_base_url "{path}.{lang}.{ext}" Sample.wp channel).
  vm_compute. reflexivity.
Defined.

(** *** Lines *)

Lemma startswith_before_newline sub a b :
  PyStr.mem Re.newline sub = false →
  PyStr.startswith (a +:+ String Re.newline b) sub = PyStr.startswith a sub.
Proof.
  revert a. induction sub as [|c sub IH]; intros a Hsub; [by destruct a|].
  simpl in Hsub. apply orb_false_iff in Hsub as [Hc Hsub].
  destruct a as [|x a].
  - change (EmptyString +:+ String Re.newline b) with (String Re.newline b).
    cbn [PyStr.startswith]. by rewrite Hc.
  - rewrite append_cons. cbn [PyStr.startswith].
    destruct (Ascii.eqb c x); [|done]. by apply IH.
Qed.

Lemma contains_across_newline sub a b :
  PyStr.mem Re.newline sub = false →
  PyStr.contains sub (a +:+ String Re.newline b)
  = PyStr.contains sub a || PyStr.contains sub b.
Proof.
  intros Hsub. induction a as [|x a IH].
  - change (EmptyString +:+ String Re.newline b) with (String Re.newline b).
    cbn [PyStr.contains].
    rewrite <- (startswith_before_newline sub EmptyString b Hsub).
    change (EmptyString +:+ String Re.newline b) with (String Re.newline b).
    by rewrite orb_false_r.
  - rewrite append_cons. cbn [PyStr.contains].
    rewrite <- append_cons, startswith_before_newline by done.
    by rewrite IH, orb_assoc.
Qed.

Lemma atom_link_one_line : PyStr.mem Re.newline atom_link = false.
Proof. reflexivity. Qed.

Lemma contains_join sub lines :
  PyStr.mem Re.newline sub = false →
  PyStr.is_empty sub = false →
  Forall (λ line, PyStr.contains sub line = false) lines →
  PyStr.contains sub (PyStr.join nl lines) = false.
Proof.
  intros Hsub Hne. induction 1 as [|line rest Hline Hrest IH].
  - by destruct sub.
  - destruct rest as [|line2 rest]; [done|].
    change (PyStr.join nl (line :: line2 :: rest))
      with (line +:+ nl +:+ PyStr.join nl (line2 :: rest)).
    unfold nl at 1. rewrite append_cons.
    change (EmptyString +:+ ?x) with x.
    by rewrite contains_across_newline, Hline, IH.
Qed.

(** X19: the text [read_xml_file] returns holds no atom link marker. *)
Theorem read_xml_file_no_atom_link data :
  PyStr.contains atom_link (read_xml_file data) = false.
Proof.
  unfold read_xml_file. apply contains_join.
  - apply atom_link_one_line.
  - reflexivity.
  - apply List.Forall_forall. intros line [_ Hline]%List.filter_In.
    by apply negb_true_iff in Hline.
Qed.

Lemma rev_cons_append c cur x :
  PyStr.rev (String c cur) +:+ x = PyStr.rev cur +:+ String c x.
Proof. unfold PyStr.rev. simpl. by rewrite !rev_onto_append. Qed.

Lemma readlines_go_line line rest cur :
  PyStr.mem Re.newline line = false →
  readlines_go (line +:+ nl +:+ rest) cur
  = (PyStr.rev cur +:+ line +:+ nl) :: readlines_go rest EmptyString.
Proof.
  revert cur. induction line as [|c line IH]; intros cur Hline.
  - change (EmptyString +:+ nl +:+ rest) with (String Re.newline rest).
    cbn [readlines_go]. rewrite Ascii.eqb_refl. f_equal.
    change (EmptyString +:+ nl) with (String Re.newline EmptyString).
    by rewrite <- rev_cons_append, append_empty_r.
  - simpl in Hline. apply orb_false_iff in Hline as [Hc Hline].
    rewrite append_cons. cbn [readlines_go]. rewrite Hc, IH by done.
    by rewrite rev_cons_append, append_cons.
Qed.

Lemma readlines_lines_text lines :
  Forall (λ line, PyStr.mem Re.newline line = false) lines →
  readlines (lines_text lines) = (λ line, line +:+ nl) <$> lines.
Proof.
  unfold readlines. induction 1 as [|line rest Hline _ IH]; [done|].
  cbn [lines_text foldr]. rewrite readlines_go_line by done.
  rewrite fmap_cons. f_equal. exact IH.
Qed.

Lemma kept_line_with_end line :
  negb (PyStr.contains atom_link (line +:+ nl)) = kept_line line.
Proof.
  unfold kept_line, nl.
  rewrite contains_across_newline by apply atom_link_one_line.
  by rewrite orb_false_r.
Qed.

(** X20: [read_xml_file] drops the lines that hold an atom link marker
    and joins the others with a newline although each still has its own
    line end: in the text returned every kept line is followed by its
    line end, and a further newline separates it from the next. *)
Theorem read_xml_file_lines lines :
  Forall (λ line, PyStr.mem Re.newline line = false) lines →
  read_xml_file (lines_text lines)
  = PyStr.join nl ((λ line, line +:+ nl) <$> List.filter kept_line lines).
Proof.
  intros Hlines. unfold read_xml_file.
  rewrite readlines_lines_text by done. f_equal.
  clear Hlines. induction lines as [|line rest IH]; [done|].
  rewrite fmap_cons. cbn [List.filter].
  rewrite kept_line_with_end, IH.
  by destruct (kept_line line).
Qed.

Lemma read_xml_file_lines_witness :
  read_xml_file
    (lines_text ["<rss>"; "<atom:link rel='self'/>"; "</rss>"])
  = "<rss>" +:+ nl +:+ nl +:+ "</rss>" +:+ nl.
Proof.
  rewrite (read_xml_file_lines
             ["<rss>"; "<atom:link rel='self'/>"; "</rss>"]).
  - vm_compute. reflexivity.
  - repeat constructor.
Defined.

Ltac entries_side :=
  intros;
  first [ apply keeps_keys_same; reflexivity
        | eapply keeps_keys_set; reflexivity ].

Section Registers.
Context (env : Env) (o : Options).

Lemma download_keeps_url_map url dst_path :
  preserves (keeps_keys url_map)
    (download_url_content_to_file env o url dst_path).
Proof. unfold download_url_content_to_file. preserves_auto. Qed.

Lemma process_item_keeps_url_map ns item :
  preserves (keeps_keys url_map) (process_item env o ns item).
Proof.
  apply process_item_invariant; try tc_solve; try entries_side.
  apply download_keeps_url_map.
Qed.

Lemma assign_attachments_keeps_url_map post_id :
  preserves (keeps_keys url_map) (assign_attachments env o post_id).
Proof. apply assign_attachments_invariant; try tc_solve; entries_side. Qed.

Lemma add_tag_redirect_keeps_url_map tag :
  preserves (keeps_keys url_map) (add_tag_redirect env o tag).
Proof. apply add_tag_redirect_invariant; try tc_solve; entries_side. Qed.

(** An [import_item] that returns, with or without success, has
    registered the link of an item that it does not skip and for which
    it finds a slug. *)
Lemma import_item_done_registers item ns folder link s r s' :
  import_item env o item ns folder s = (Ok r, s') →
  skipped o ns item = false →
  get_text_tag (Some item) "link" None = Some link →
  is_Some (derive_slug env o item ns link folder) →
  is_Some (Dict.get link (url_map s')).
Proof.
  unfold import_item, skipped, item_status, item_content.
  intros Hrun Hskip Hlink [[f sl] Hds]. rewrite Hlink, Hds in Hrun.
  apply bind_ok_inv in Hrun as ([dt post_date] & s1 & _ & Hrun).
  unfold import_item_dated in Hrun.
  apply bind_ok_inv in Hrun as (tz & s2 & _ & Hrun).
  apply bind_ok_inv in Hrun as ([] & s3 & _ & Hrun).
  cbv zeta in Hrun.
  set (status := get_text_tag_str (Some item) (qname ns "status") "publish")
    in *.
  set (content := get_text_tag_str (Some item) _ "") in *.
  apply orb_false_iff in Hskip as [Hskip He].
  apply orb_false_iff in Hskip as [Hskip Hd].
  apply orb_false_iff in Hskip as [Htrash Hp].
  rewrite Htrash in Hrun.
  assert (∃ tags0 (is_draft is_private : bool),
            (if bool_decide (status = "private")
             then ([Some "private"], false, true)
             else if bool_decide (status ≠ "publish")
                  then ([Some "draft"], true, false)
                  else ([], false, false))
            = (tags0, is_draft, is_private)
            ∧ is_private = bool_decide (status = "private")
            ∧ is_draft = bool_decide (status ≠ "private")
                         && bool_decide (status ≠ "publish"))
    as (tags0 & is_draft & is_private & Hcase & -> & ->).
  { repeat case_bool_decide; try done; eauto 10. }
  rewrite Hcase in Hrun. clear Hcase.
  apply bind_ok_inv in Hrun as ([tags' categories] & s4 & _ & Hrun).
  cbv zeta in Hrun.
  destruct (find_post_format item ns) as [post_format|]; [|done].
  rewrite Hd, Hp in Hrun.
  assert (negb (PyStr.is_empty (PyStr.strip content))
          || import_empty_items o = true) as Hcontent.
  { destruct (PyStr.is_empty _), (import_empty_items o); done. }
  rewrite Hcontent in Hrun.
  apply bind_ok_inv in Hrun as ([] & s5 & [= <-] & Hrun).
  apply bind_ok_inv in Hrun as (written & s6 & Hwr & Hrun).
  apply write_translations_url_map in Hwr. unfold unchanged in Hwr.
  destruct written; injection Hrun as _ <-; rewrite Hwr; simpl;
    rewrite dict_get_set, decide_True by done; eauto.
Qed.

Lemma process_item_registers ns item link s s' :
  let post_type :=
    get_text_tag_str (Some item) (qname ns "post_type") "post" in
  process_item env o ns item s = (Ok tt, s') →
  post_type ≠ "attachment" →
  skipped o ns item = false →
  get_text_tag (Some item) "link" None = Some link →
  is_Some (derive_slug env o item ns link
             (if bool_decide (post_type = "post") then "posts"
              else "stories")) →
  is_Some (Dict.get link (url_map s')).
Proof.
  intros post_type Hrun Htype Hskip Hlink Hslug.
  unfold process_item in Hrun. fold post_type in Hrun.
  apply bind_ok_inv in Hrun as (post_id & s1 & Hid & Hrun).
  unfold to_int in Hid. destruct (py_int env _) as [n|]; [|done].
  injection Hid as <- <-.
  rewrite bool_decide_eq_false_2 in Hrun by done.
  apply bind_ok_inv in Hrun as ([kind result] & s2 & Himp & Hrun).
  assert (is_Some (Dict.get link (url_map s2))) as Hreg.
  { destruct (bool_decide (post_type = "post"));
      apply bind_ok_inv in Himp as (r & s1 & Hitem & [= <- <- <-]);
      by eapply import_item_done_registers. }
  destruct result as [[out_folder slug]|]; injection Hrun as <-; done.
Qed.

(** X21: when a run completes, every post or page of the export that is
    not skipped, and for which a slug is found, has its old address in
    the URL map that is written: each of them gets a redirect. *)
Theorem execute_registers_items ns channel (s s' : State) item link :
  let post_type :=
    get_text_tag_str (Some item) (qname ns "post_type") "post" in
  _execute env o ns channel s = (Ok tt, s') →
  item ∈ findall "item" channel →
  post_type ≠ "attachment" →
  skipped o ns item = false →
  get_text_tag (Some item) "link" None = Some link →
  is_Some (derive_slug env o item ns link
             (if bool_decide (post_type = "post") then "posts"
              else "stories")) →
  is_Some (Dict.get link (url_map s')).
Proof.
  intros post_type Hrun Hitem Htype Hskip Hlink Hslug.
  rewrite execute_split in Hrun.
  destruct (import_and_redirect env o ns channel (reset_attributes s))
    as [[[translations redirections]|e] x] eqn:Hpre; [|done].
  rewrite (output_files_keep env o url_map _ _ _ _ _ (λ _ _, eq_refl) Hrun).
  clear Hrun. unfold import_and_redirect in Hpre.
  apply bind_ok_inv in Hpre as ([] & s1 & Hposts & Hpre).
  apply bind_ok_inv in Hpre as (languages & s2 & [= <- <-] & Hpre).
  apply bind_ok_inv in Hpre as (t & s2 & [_ ->]%lift_ok_inv & Hpre).
  apply bind_ok_inv in Hpre as (imported & s2 & [= <- <-] & Hpre).
  apply bind_ok_inv in Hpre as (rd & s2 & [_ ->]%lift_ok_inv & Hpre).
  apply bind_ok_inv in Hpre as (all & s2 & [= <- <-] & Hpre).
  apply bind_ok_inv in Hpre as ([] & s2 & Htags & [= _ _ ->]).
  apply (preserves_for_each (keeps_keys url_map) _ _
           add_tag_redirect_keeps_url_map _ _ _ Htags).
  unfold import_posts in Hposts.
  apply bind_ok_inv in Hposts as ([] & s3 & _ & Hposts).
  apply bind_ok_inv in Hposts as ([] & s4 & _ & Hposts).
  apply bind_ok_inv in Hposts as ([] & s5 & Hitems & Hposts).
  apply bind_ok_inv in Hposts as (atts & s6 & [= <- <-] & Hassign).
  apply (preserves_for_each (keeps_keys url_map) _ _
           assign_attachments_keeps_url_map _ _ _ Hassign).
  destruct (for_each_elem (keeps_keys url_map) (process_item env o ns)
              (findall "item" channel) item s4 s5
              (process_item_keeps_url_map ns) Hitems Hitem)
    as (sa & sb & _ & Hbody & Hkeep).
  apply Hkeep. by eapply process_item_registers.
Qed.

End Registers.

Lemma execute_registers_items_witness :
  let item :=
    Sample.entry "post" "7" "http://foo.com/2012/09/01/hello-world/"
      "publish" "2012-09-01 10:00:00" "Some text"
      [Sample.category "category" "news";
       Sample.category "post_tag" "rocq"] in
  let run :=
    _execute Sample.env Sample.options Sample.wp Sample.blog
      Sample.empty_state in
  is_Some (Dict.get "http://foo.com/2012/09/01/hello-world/"
             (url_map run.2)).
Proof.
  intros item run.
  apply (execute_registers_items Sample.env Sample.options Sample.wp
           Sample.blog Sample.empty_state run.2 item).
  - vm_compute. reflexivity.
  - vm_compute. apply list_elem_of_here.
  - vm_compute. discriminate.
  - vm_compute. reflexivity.
  - vm_compute. reflexivity.
  - vm_compute. by eexists.
Defined.

Section TagSet.
Context (env : Env) (o : Options).

Lemma download_tags_grow url dst_path :
  preserves tags_grow (download_url_content_to_file env o url dst_path).
Proof.
  unfold download_url_content_to_file. repeat invariant_step.
Qed.

(** X22: a run never takes a tag out of the tag set, which belongs to
    the class and not to the run: the tags that were there when the run
    started, for instance those of an earlier import in the same process,
    are still there when it ends, whether it completes or not. *)
Theorem execute_keeps_tags ns channel (s : State) r s' tag :
  _execute env o ns channel s = (r, s') →
  tag ∈ all_tags s → tag ∈ all_tags s'.
Proof.
  intros Hrun.
  assert (preserves tags_grow (_execute env o ns channel)) as H.
  { apply execute_invariant; try tc_solve; try invariant_side.
    apply download_tags_grow. }
  apply (H _ _ _ Hrun).
Qed.

End TagSet.

Lemma execute_keeps_tags_witness :
  let s := set_all_tags (λ _, {[ Some "holidays" ]}) Sample.empty_state in
  let run := _execute Sample.env Sample.options Sample.wp Sample.blog s in
  Some "holidays" ∈ all_tags run.2.
Proof.
  intros s run.
  apply (execute_keeps_tags Sample.env Sample.options Sample.wp Sample.blog
           s run.1 run.2 (Some "holidays")).
  - vm_compute. reflexivity.
  - vm_compute. reflexivity.
Defined.

(** ** Where attachment links lead *)

(** The destination of a download from [/p1/.../pn] into a single
    output folder. *)
Lemma files_destination out p parts :
  segment out → segment p → Forall segment parts →
  PosixPath.join out ("files" :: PyStr.split "/" (url_path (p :: parts)))
  = PyStr.join "/" (out :: "files" :: p :: parts).
Proof.
  intros Hout Hp Hparts.
  assert (Forall (λ y, PyStr.mem "/" y = false) (p :: parts)) as Hno.
  { constructor; [apply Hp|]. eapply Forall_impl; [done|]. by intros ? [? ?]. }
  change (url_path (p :: parts)) with (PyStr.join "/" ("" :: p :: parts)).
  rewrite split_join by done.
  change (PosixPath.join out ("files" :: "" :: p :: parts))
    with (PosixPath.join
            (PosixPath.join2
               (PosixPath.join2 (PosixPath.join2 out "files") "") p)
            parts).
  rewrite (join2_segment out "files");
    [|apply Hout
     |rewrite <- (append_empty_r out) at 1;
      rewrite <- (append_empty_r out), append_assoc_s;
      change (EmptyString +:+ EmptyString) with EmptyString;
      rewrite append_empty_r;
      change out with (EmptyString +:+ out); by apply endswith_segment
     |apply segment_files].
  assert (PosixPath.join2 (out +:+ "/" +:+ "files") ""
          = (out +:+ "/" +:+ "files") +:+ "/") as ->.
  { unfold PosixPath.join2. simpl PyStr.startswith.
    rewrite append_nonempty by done.
    rewrite <- append_assoc_s, endswith_segment by apply segment_files.
    simpl. by rewrite !append_assoc_s, ?append_empty_r. }
  assert (PosixPath.join2 ((out +:+ "/" +:+ "files") +:+ "/") p
          = ((out +:+ "/" +:+ "files") +:+ "/") +:+ p) as ->.
  { unfold PosixPath.join2.
    by rewrite (segment_relative p Hp), endswith_app, orb_true_r. }
  rewrite join_segments; [|by apply append_nonempty, Hp
                          |by apply endswith_segment|done].
  rewrite !join_slashed. simpl slashed. by rewrite !append_assoc_s.
Qed.

Section Links.
Context (env : Env) (o : Options).

(** With a single output folder, the address entered in [links] for a
    file is the path of its URL. *)
Lemma files_url_path url parts :
  segment (output_folder o) → parts ≠ [] → Forall segment parts →
  urlparse_path env url = url_path parts →
  files_url env o url = url_path parts.
Proof.
  intros Hout Hne Hparts Hpath. destruct parts as [|p parts]; [done|].
  apply Forall_cons in Hparts as [Hp Hparts].
  unfold files_url. rewrite Hpath, files_destination by done.
  unfold PosixPath.sep. rewrite split_join.
  - done.
  - apply Hout.
  - constructor; [done|]. constructor; [apply Hp|].
    eapply Forall_impl; [done|]. by intros ? [? ?].
Qed.

Lemma preserves_bind_result {A B} (R : relation State) `{!PreOrder R}
  (Q : A → Prop) (c : M A) (k : A → M B) :
  (∀ s a s', c s = (Ok a, s') → Q a) →
  preserves R c → (∀ a, Q a → preserves R (k a)) →
  preserves R (c ≫= k).
Proof.
  intros HQ Hc Hk s r s'. unfold mbind, M_bind, bind.
  destruct (c s) as [[a|e] s1] eqn:E.
  - intros H. etrans; [by eapply Hc|]. eapply Hk; [by eapply HQ|done].
  - intros [= <- <-]. by eapply Hc.
Qed.

Lemma download_into_files_links url :
  preserves (unchanged links) (download_into_files env o url).
Proof.
  apply download_into_files_invariant; try tc_solve;
    try (intros; reflexivity).
  intros. unfold download_url_content_to_file. preserves_auto.
Qed.

Lemma download_into_files_address url s path dst_url s' :
  download_into_files env o url s = (Ok (path, dst_url), s') →
  "/" +:+ dst_url = files_url env o url.
Proof.
  unfold download_into_files. intros Hrun.
  apply bind_ok_inv in Hrun as ([] & s1 & _ & Hrun).
  apply bind_ok_inv in Hrun as ([] & s2 & _ & Hrun).
  apply bind_ok_inv in Hrun as ([] & s3 & _ & Hrun).
  by injection Hrun as _ <- _.
Qed.

Lemma linked_set url u s :
  linked env o url s →
  linked env o url (set_links (Dict.set u (files_url env o u)) s).
Proof.
  unfold linked. intros H. simpl. rewrite dict_get_set.
  destruct (decide (u = url)) as [->|]; done.
Qed.

Lemma download_into_files_linked url u :
  preserves (keeps (linked env o url)) (download_into_files env o u).
Proof.
  intros s r s' Hrun H. unfold linked.
  by rewrite (download_into_files_links u _ _ _ Hrun).
Qed.

Lemma download_size_files_linked url source_path files :
  preserves (keeps (linked env o url))
    (download_size_files env o source_path files).
Proof.
  induction files as [|f rest IH]; simpl;
    [apply preserves_ret; tc_solve|].
  apply (preserves_bind_result _
           (λ pd, "/" +:+ pd.2
                  = files_url env o (PyStr.join "/" [source_path; f]))).
  - intros s [p d] s' Hrun. by apply download_into_files_address in Hrun.
  - apply download_into_files_linked.
  - intros [p d] Hd. simpl in Hd.
    apply preserves_bind; [tc_solve| |intros _].
    + apply preserves_modify. intros s H. rewrite Hd. by apply linked_set.
    + apply preserves_bind; [tc_solve|apply IH|intros ?].
      apply preserves_ret; tc_solve.
Qed.

Lemma additional_sizes_loop_linked url loads ns source_path l :
  preserves (keeps (linked env o url))
    (additional_sizes_loop env o loads ns source_path l).
Proof.
  induction l as [|e rest IH]; simpl; preserves_auto.
  apply download_size_files_linked.
Qed.

(** X23: when the output folder is a single directory name and the
    address of an attachment has the path /p1/.../pn, a completed
    [import_attachment] leaves that address in [links] with the same
    path as its target: the file is served from the site root under the
    path it had on the old site. *)
Theorem import_attachment_link_target item ns (s : State) files s' parts :
  let url :=
    get_text_tag_str (Some item) (qname ns "attachment_url") "foo" in
  import_attachment env o item ns s = (Ok files, s') →
  segment (output_folder o) →
  parts ≠ [] → Forall segment parts →
  urlparse_path env url = url_path parts →
  Dict.get url (links s') = Some (url_path parts).
Proof.
  intros url Hrun Hout Hne Hparts Hpath.
  rewrite <- (files_url_path url parts) by done.
  unfold import_attachment in Hrun. fold url in Hrun.
  apply bind_ok_inv in Hrun as ([path dst_url] & s1 & Hdl & Hrun).
  apply download_into_files_address in Hdl as Hd.
  apply bind_ok_inv in Hrun as ([] & s2 & [= <-] & Hrun).
  apply bind_ok_inv in Hrun as ([] & s3 & [= <-] & Hrun).
  apply bind_ok_inv in Hrun as (more & s4 & Hmore & [= <- <-]).
  assert (preserves (keeps (linked env o url))
            (download_additional_image_sizes env o item ns
               (PosixPath.dirname url))) as Hkeep.
  { unfold download_additional_image_sizes.
    destruct (phpserialize env); [|apply preserves_ret; tc_solve].
    apply additional_sizes_loop_linked. }
  apply (Hkeep _ _ _ Hmore). unfold linked. simpl.
  rewrite dict_get_set, decide_True by done. by rewrite Hd.
Qed.

End Links.

Lemma import_attachment_link_target_witness :
  let item :=
    Sample.attachment "9" "http://foo.com/wp-content/uploads/2012/09/a.jpg"
      (Some "7") in
  let run :=
    import_attachment Sample.env Sample.options item Sample.wp
      Sample.empty_state in
  Dict.get "http://foo.com/wp-content/uploads/2012/09/a.jpg" (links run.2)
  = Some "/wp-content/uploads/2012/09/a.jpg".
Proof.
  intros item run.
  apply (import_attachment_link_target Sample.env Sample.options item
           Sample.wp Sample.empty_state
           ["/wp-content/uploads/2012/09/a.jpg"] run.2
           ["wp-content"; "uploads"; "2012"; "09"; "a.jpg"]).
  - vm_compute. reflexivity.
  - vm_compute. done.
  - done.
  - repeat constructor.
  - vm_compute. reflexivity.
Defined.
